(** * Verification of scripts/generate_formulas.py

    A shallow embedding of the Homebrew formula generator.

    - Python strings are [string]s, sequences of 8-bit characters; the
      [str] methods, [int], [repr] and the regular expressions that the
      script uses are written out below with the behaviour they have on
      ASCII text (case mapping, digits and white space of other scripts are
      outside the model).
    - Python dicts whose iteration order the script relies on are
      association lists with Python's update in place.
    - The formula directory is a finite map from file names to file
      contents; it holds regular files only, and the order in which [glob]
      lists them is the order of the map.
    - Console output is the list of the strings passed to [print]; the
      traceback that the exception handler sends to the error stream is not
      part of it.
    - The network is a record of functions: what the two API endpoints
      answer and the digest of the bytes behind a download URL, each either
      a value or the message of the exception raised.
    - Effects are threaded by a state monad with exceptions: a computation
      takes the world (directory and console) and returns a value or a
      raised message together with the new world. *)

From Stdlib Require Import ZArith Ascii String DecimalString List Lia Bool.
From Stdlib Require Import Sorting.Sorted Sorting.Permutation.
From stdpp Require Import base option list gmap strings.

Local Open Scope string_scope.
Local Open Scope Z_scope.

(** ** Python [str] methods used by the script *)

Module PyStr.

Definition ascii_in (lo hi c : ascii) : bool :=
  (N_of_ascii lo <=? N_of_ascii c)%N && (N_of_ascii c <=? N_of_ascii hi)%N.

Definition is_upper (c : ascii) : bool := ascii_in "A" "Z" c.
Definition is_lower (c : ascii) : bool := ascii_in "a" "z" c.
Definition is_digit (c : ascii) : bool := ascii_in "0" "9" c.

Definition lower_char (c : ascii) : ascii :=
  if is_upper c then ascii_of_N (N_of_ascii c + 32) else c.

Definition upper_char (c : ascii) : ascii :=
  if is_lower c then ascii_of_N (N_of_ascii c - 32) else c.

(** [s.lower()] *)
Fixpoint lower (s : string) : string :=
  match s with
  | EmptyString => EmptyString
  | String c s' => String (lower_char c) (lower s')
  end.

(** [s.capitalize()]: first character upper-cased, the rest lower-cased. *)
Definition capitalize (s : string) : string :=
  match s with
  | EmptyString => EmptyString
  | String c s' => String (upper_char c) (lower s')
  end.

(** [s.startswith(p)] *)
Fixpoint startswith (p s : string) : bool :=
  match p, s with
  | EmptyString, _ => true
  | String a p', String b s' => if Ascii.eqb a b then startswith p' s' else false
  | String _ _, EmptyString => false
  end.

(** [sub in s] *)
Fixpoint contains (sub s : string) : bool :=
  startswith sub s ||
  match s with
  | EmptyString => false
  | String _ s' => contains sub s'
  end.

(** [s.endswith(ext)] *)
Fixpoint endswith (ext s : string) : bool :=
  String.eqb ext s ||
  match s with
  | EmptyString => false
  | String _ s' => endswith ext s'
  end.

Fixpoint char_in (c : ascii) (chars : string) : bool :=
  match chars with
  | EmptyString => false
  | String d chars' => Ascii.eqb c d || char_in c chars'
  end.

(** [s.lstrip(chars)]: drops every leading character that belongs to the
    set [chars]. *)
Fixpoint lstrip (chars s : string) : string :=
  match s with
  | EmptyString => EmptyString
  | String c s' => if char_in c chars then lstrip chars s' else s
  end.

(** Splitting at every character that satisfies [is_sep]; the result is
    never empty and keeps empty pieces. *)
Fixpoint split_by (is_sep : ascii -> bool) (s : string) : list string :=
  match s with
  | EmptyString => [EmptyString]
  | String c s' =>
      if is_sep c then EmptyString :: split_by is_sep s'
      else match split_by is_sep s' with
           | [] => [String c EmptyString]
           | w :: ws => String c w :: ws
           end
  end.

(** [s.split(sep)] for a one-character separator. *)
Definition split (sep : ascii) (s : string) : list string :=
  split_by (Ascii.eqb sep) s.

(** [sep.join(l)] *)
Fixpoint join (sep : string) (l : list string) : string :=
  match l with
  | [] => EmptyString
  | [x] => x
  | x :: l' => x +:+ sep +:+ join sep l'
  end.

(** [s.replace(old, new)]: the occurrences of [old] are taken from left to
    right without overlap; for an empty [old] Python puts [new] before every
    character and at the end. *)
Fixpoint replace_go (old new : string) (skip : nat) (s : string) : string :=
  match s with
  | EmptyString => EmptyString
  | String c s' =>
      match skip with
      | S k => replace_go old new k s'
      | O =>
          if startswith old s
          then new +:+ replace_go old new (String.length old - 1) s'
          else String c (replace_go old new 0 s')
      end
  end.

Fixpoint replace_empty (new s : string) : string :=
  match s with
  | EmptyString => new
  | String c s' => new +:+ String c (replace_empty new s')
  end.

Definition replace (old new s : string) : string :=
  match old with
  | EmptyString => replace_empty new s
  | String _ _ => replace_go old new 0 s
  end.

(** [s[:n]] for [n >= 0]. *)
Fixpoint take (n : nat) (s : string) : string :=
  match n, s with
  | S k, String c s' => String c (take k s')
  | _, _ => EmptyString
  end.

End PyStr.

(** ** Version strings *)

(** [extract_version]: [tag.lstrip("v")]. *)
Definition extract_version (tag : string) : string := PyStr.lstrip "v" tag.

(** [extract_major_minor] *)
Definition extract_major_minor (version : string) : string :=
  match PyStr.split "." version with
  | p0 :: p1 :: _ => p0 +:+ "." +:+ p1
  | _ => version
  end.

(** ** Regular expressions

    The fragment of Python's [re] syntax that PLATFORM_PATTERNS uses:
    literal characters, [.] (any character but a newline) and a postfix
    [*].  Matching is by derivatives; [re_search] is [re.search] seen as a
    boolean, as [detect_platform] uses it. *)

Module Re.

Inductive regex : Type :=
| RNone : regex
| REps : regex
| RChar (c : ascii) : regex
| RDot : regex
| RCat (r1 r2 : regex) : regex
| RAlt (r1 r2 : regex) : regex
| RStar (r : regex) : regex.

Definition newline : ascii := ascii_of_nat 10.

Fixpoint nullable (r : regex) : bool :=
  match r with
  | RNone => false
  | REps => true
  | RChar _ => false
  | RDot => false
  | RCat r1 r2 => nullable r1 && nullable r2
  | RAlt r1 r2 => nullable r1 || nullable r2
  | RStar _ => true
  end.

Definition cat (r1 r2 : regex) : regex :=
  match r1, r2 with
  | RNone, _ => RNone
  | _, RNone => RNone
  | REps, _ => r2
  | _, _ => RCat r1 r2
  end.

Definition alt (r1 r2 : regex) : regex :=
  match r1, r2 with
  | RNone, _ => r2
  | _, RNone => r1
  | _, _ => RAlt r1 r2
  end.

Fixpoint deriv (a : ascii) (r : regex) : regex :=
  match r with
  | RNone => RNone
  | REps => RNone
  | RChar c => if Ascii.eqb a c then REps else RNone
  | RDot => if Ascii.eqb a newline then RNone else REps
  | RCat r1 r2 =>
      if nullable r1
      then alt (cat (deriv a r1) r2) (deriv a r2)
      else cat (deriv a r1) r2
  | RAlt r1 r2 => alt (deriv a r1) (deriv a r2)
  | RStar r1 => cat (deriv a r1) (RStar r1)
  end.

(** Some prefix of [s] matches [r]. *)
Fixpoint match_prefix (r : regex) (s : string) : bool :=
  nullable r ||
  match s with
  | EmptyString => false
  | String c s' => match_prefix (deriv c r) s'
  end.

(** Some substring of [s] matches [r]. *)
Fixpoint search (r : regex) (s : string) : bool :=
  match_prefix r s ||
  match s with
  | EmptyString => false
  | String _ s' => search r s'
  end.

Definition atom (c : ascii) : regex :=
  if Ascii.eqb c "." then RDot else RChar c.

(** Reads a pattern written with literals, [.] and postfix [*]. *)
Fixpoint parse (p : string) : regex :=
  match p with
  | EmptyString => REps
  | String c p' =>
      match p' with
      | String d p'' =>
          if Ascii.eqb d "*" then RCat (RStar (atom c)) (parse p'')
          else RCat (atom c) (parse p')
      | EmptyString => RCat (atom c) (parse p')
      end
  end.

(** [re.search(pattern, s)] is not [None]. *)
Definition re_search (pattern s : string) : bool := search (parse pattern) s.

End Re.

(** ** Platform detection *)

(** Platform detection patterns, in the order the dict literal lists them. *)
Definition PLATFORM_PATTERNS : list (string * list string) :=
  [ ("macos_arm64",
      [ "darwin.*arm64"; "darwin.*aarch64"; "macos.*arm64"; "macos.*aarch64";
        "apple.*arm64"; "apple.*aarch64"; "osx.*arm64"; "osx.*aarch64";
        "mac.*arm64"; "mac.*aarch64" ]);
    ("macos_x86_64",
      [ "darwin.*x86_64"; "darwin.*amd64"; "macos.*x86_64"; "macos.*amd64";
        "apple.*x86_64"; "apple.*amd64"; "osx.*x86_64"; "osx.*amd64";
        "mac.*x86_64"; "mac.*amd64"; "darwin64" ]);
    ("linux_arm64",
      [ "linux.*arm64"; "linux.*aarch64" ]);
    ("linux_x86_64",
      [ "linux.*x86_64"; "linux.*amd64"; "linux64" ]) ].

Definition ARCHIVE_EXTENSIONS : list string :=
  [ ".tar.gz"; ".tgz"; ".zip"; ".tar.xz"; ".tar.bz2" ].

(** [any(name_lower.endswith(ext) for ext in ARCHIVE_EXTENSIONS)] *)
Definition is_archive (name_lower : string) : bool :=
  existsb (fun ext => PyStr.endswith ext name_lower) ARCHIVE_EXTENSIONS.

(** The inner loop of [detect_platform]: some pattern of the group is found
    in the name. *)
Definition group_matches (patterns : list string) (name_lower : string) : bool :=
  existsb (fun pattern => Re.re_search pattern name_lower) patterns.

(** The outer loop of [detect_platform] over [PLATFORM_PATTERNS.items()]. *)
Fixpoint first_platform (groups : list (string * list string))
    (name_lower : string) : option string :=
  match groups with
  | [] => None
  | (platform, patterns) :: rest =>
      if group_matches patterns name_lower then Some platform
      else first_platform rest name_lower
  end.

(** [detect_platform] *)
Definition detect_platform (asset_name : string) : option string :=
  let name_lower := PyStr.lower asset_name in
  if negb (is_archive name_lower) then None
  else first_platform PLATFORM_PATTERNS name_lower.

(** [match_asset_pattern] *)
Definition match_asset_pattern (asset_name pattern : string) : bool :=
  PyStr.contains (PyStr.lower pattern) (PyStr.lower asset_name).

(** ** Python dicts with their iteration order

    A dict is the list of its items in insertion order; assigning to a key
    that is present keeps the key where it is. *)

Module PyDict.
Section Dict.
Context {V : Type}.

Fixpoint get (k : string) (d : list (string * V)) : option V :=
  match d with
  | [] => None
  | (k', v) :: d' => if String.eqb k k' then Some v else get k d'
  end.

Definition mem (k : string) (d : list (string * V)) : bool :=
  match get k d with Some _ => true | None => false end.

(** [d[k] = v] *)
Fixpoint set (k : string) (v : V) (d : list (string * V)) : list (string * V) :=
  match d with
  | [] => [(k, v)]
  | (k', v') :: d' =>
      if String.eqb k k' then (k, v) :: d' else (k', v') :: set k v d'
  end.

Definition keys (d : list (string * V)) : list string := map fst d.
End Dict.
End PyDict.

(** ** Data model *)

Module Asset.
Record t : Type := mk { name : string; url : string; sha256 : string }.
End Asset.

Module Release.
Record t : Type := mk {
  tag : string;
  version : string;
  major_minor : string;
  assets : list (string * Asset.t)
}.
End Release.

Module Project.
(** A project after [__post_init__].  [license] is [None] when the
    attribute holds Python's [None], which a null [spdx_id] in the
    repository metadata leaves there. *)
Record t : Type := mk {
  repo : string;
  name : string;
  description : string;
  license : option string;
  homepage : string;
  binary_name : string;
  keep_versions : Z;
  asset_patterns : list (string * string)
}.
End Project.

(** The objects of the release list returned by the API, with the keys the
    script reads. *)
Module AssetData.
Record t : Type := mk { name : string; browser_download_url : string }.
End AssetData.

Module ReleaseData.
Record t : Type := mk {
  tag_name : string;
  prerelease : bool;
  draft : bool;
  assets : list AssetData.t
}.
End ReleaseData.

(** A key of a JSON object: absent, [null], or holding a value. *)
Inductive json_field (A : Type) : Type :=
| Absent : json_field A
| Null : json_field A
| Present (a : A) : json_field A.
Arguments Absent {A}.
Arguments Null {A}.
Arguments Present {A} a.

(** The repository object: [description] is a string or null, [license] is
    null or an object whose values are strings or null ([None]). *)
Module RepoInfo.
Record t : Type := mk {
  description : json_field string;
  license : json_field (list (string * option string))
}.
End RepoInfo.

(** ** Asset classification *)

(** The loop over [project.asset_patterns.items()] with its [break]: the
    platform of the first pattern the name matches. *)
Fixpoint first_pattern (patterns : list (string * string)) (name : string)
    : option string :=
  match patterns with
  | [] => None
  | (platform, pattern) :: rest =>
      if match_asset_pattern name pattern then Some platform
      else first_pattern rest name
  end.

(** The slot one asset is filed under, if any. *)
Definition classify (project : Project.t) (name : string) : option string :=
  match Project.asset_patterns project with
  | _ :: _ => first_pattern (Project.asset_patterns project) name
  | [] => detect_platform name
  end.

(** One iteration of the loop of [find_release_assets]. *)
Definition add_asset (project : Project.t) (assets : list (string * Asset.t))
    (asset : AssetData.t) : list (string * Asset.t) :=
  let name := AssetData.name asset in
  let url := AssetData.browser_download_url asset in
  match classify project name with
  | Some platform => PyDict.set platform (Asset.mk name url EmptyString) assets
  | None => assets
  end.

(** [find_release_assets] *)
Definition find_release_assets (release_data : ReleaseData.t)
    (project : Project.t) : list (string * Asset.t) :=
  fold_left (add_asset project) (ReleaseData.assets release_data) [].

(** ** Formula rendering *)

Definition nl : string := String (ascii_of_nat 10) EmptyString.
Definition dq : string := String (ascii_of_nat 34) EmptyString.

(** A value between double quotes, as the f-strings of the template put it. *)
Definition quoted (s : string) : string := dq +:+ s +:+ dq.

(** [str(x)] of an attribute that holds a string or [None]. *)
Definition py_str (x : option string) : string :=
  match x with
  | Some s => s
  | None => "None"
  end.

(** [re.split(r"[-_]", s)] *)
Definition split_words (s : string) : list string :=
  PyStr.split_by (fun c => Ascii.eqb c "-" || Ascii.eqb c "_") s.

(** ["".join(word.capitalize() for word in re.split(r"[-_]", name))] *)
Definition camel_case (name : string) : string :=
  PyStr.join EmptyString (map PyStr.capitalize (split_words name)).

(** The template expression put in place of the tag. *)
Definition version_template : string := "v#{version}".

(** [asset.url.replace(release.tag, "v#{version}")] *)
Definition render_url (release : Release.t) (asset : Asset.t) : string :=
  PyStr.replace (Release.tag release) version_template (Asset.url asset).

(** [generate_formula] *)
Definition generate_formula (project : Project.t) (release : Release.t)
    (is_versioned : bool) : string :=
  let class_name :=
    if is_versioned
    then camel_case (Project.name project) +:+ "AT"
         +:+ PyStr.replace "." EmptyString (Release.major_minor release)
    else camel_case (Project.name project) in
  let formula :=
    "class " +:+ class_name +:+ " < Formula" +:+ nl
    +:+ "  desc " +:+ quoted (Project.description project) +:+ nl
    +:+ "  homepage " +:+ quoted (Project.homepage project) +:+ nl
    +:+ "  license " +:+ quoted (py_str (Project.license project)) +:+ nl
    +:+ "  version " +:+ quoted (Release.version release) +:+ nl
    +:+ nl in
  (* macOS block *)
  let macos_arm := PyDict.get "macos_arm64" (Release.assets release) in
  let macos_x86 := PyDict.get "macos_x86_64" (Release.assets release) in
  let formula :=
    match macos_arm, macos_x86 with
    | None, None => formula
    | _, _ =>
        let formula := formula +:+ "  on_macos do" +:+ nl in
        let formula :=
          match macos_arm, macos_x86 with
          | Some arm, Some x86 =>
              formula +:+ "    if Hardware::CPU.arm?" +:+ nl
              +:+ "      url " +:+ quoted (render_url release arm) +:+ nl
              +:+ "      sha256 " +:+ quoted (Asset.sha256 arm) +:+ nl
              +:+ "    else" +:+ nl
              +:+ "      url " +:+ quoted (render_url release x86) +:+ nl
              +:+ "      sha256 " +:+ quoted (Asset.sha256 x86) +:+ nl
              +:+ "    end" +:+ nl
          | Some arm, None =>
              formula +:+ "    url " +:+ quoted (render_url release arm) +:+ nl
              +:+ "    sha256 " +:+ quoted (Asset.sha256 arm) +:+ nl
          | None, Some x86 =>
              formula +:+ "    url " +:+ quoted (render_url release x86) +:+ nl
              +:+ "    sha256 " +:+ quoted (Asset.sha256 x86) +:+ nl
          | None, None => formula
          end in
        formula +:+ "  end" +:+ nl +:+ nl
    end in
  (* Linux block *)
  let linux_arm := PyDict.get "linux_arm64" (Release.assets release) in
  let linux_x86 := PyDict.get "linux_x86_64" (Release.assets release) in
  let formula :=
    match linux_arm, linux_x86 with
    | None, None => formula
    | _, _ =>
        let formula := formula +:+ "  on_linux do" +:+ nl in
        let formula :=
          match linux_arm, linux_x86 with
          | Some arm, Some x86 =>
              formula +:+ "    if Hardware::CPU.arm?" +:+ nl
              +:+ "      url " +:+ quoted (render_url release arm) +:+ nl
              +:+ "      sha256 " +:+ quoted (Asset.sha256 arm) +:+ nl
              +:+ "    else" +:+ nl
              +:+ "      url " +:+ quoted (render_url release x86) +:+ nl
              +:+ "      sha256 " +:+ quoted (Asset.sha256 x86) +:+ nl
              +:+ "    end" +:+ nl
          | Some arm, None =>
              formula +:+ "    url " +:+ quoted (render_url release arm) +:+ nl
              +:+ "    sha256 " +:+ quoted (Asset.sha256 arm) +:+ nl
          | None, Some x86 =>
              formula +:+ "    url " +:+ quoted (render_url release x86) +:+ nl
              +:+ "    sha256 " +:+ quoted (Asset.sha256 x86) +:+ nl
          | None, None => formula
          end in
        formula +:+ "  end" +:+ nl +:+ nl
    end in
  (* Install block *)
  formula
  +:+ "  def install" +:+ nl
  +:+ "    bin.install " +:+ quoted (Project.binary_name project) +:+ nl
  +:+ "  end" +:+ nl
  +:+ nl
  +:+ "  test do" +:+ nl
  +:+ "    assert_match version.to_s, shell_output(" +:+ dq +:+ "#{bin}/"
  +:+ Project.binary_name project +:+ " --version" +:+ dq +:+ ")" +:+ nl
  +:+ "  end" +:+ nl
  +:+ "end" +:+ nl.

(** ** Effects: files, console, exceptions *)

(** The formula directory (file name to content) and what has been printed
    (one entry per call of [print], without the newline [print] adds). *)
Record World : Type := mkWorld {
  files : gmap string string;
  stdout : list string
}.

Inductive result (A : Type) : Type :=
| Ok (a : A) : result A
| Raise (msg : string) : result A.
Arguments Ok {A} a.
Arguments Raise {A} msg.

(** A computation changes the world and returns or raises; what it did
    before raising stays done. *)
Definition M (A : Type) : Type := World -> result A * World.

Definition ret {A : Type} (a : A) : M A := fun w => (Ok a, w).

Definition bind {A B : Type} (c : M A) (k : A -> M B) : M B :=
  fun w =>
    match c w with
    | (Ok a, w') => k a w'
    | (Raise msg, w') => (Raise msg, w')
    end.

Definition lift {A : Type} (r : result A) : M A := fun w => (r, w).

Notation "'let*' x ':=' c 'in' k" := (bind c (fun x => k))
  (at level 10, x name, c at level 100, k at level 200, only parsing).
Notation "'do' c 'then' k" := (bind c (fun _ => k))
  (at level 10, c at level 100, k at level 200, only parsing).

Definition print (s : string) : M unit :=
  fun w => (Ok tt, mkWorld (files w) (stdout w ++ [s])).

(** [open(path, "w")] and [f.write(content)].  The write is taken to
    succeed: the errors of a file system (a missing directory, a target
    that cannot be written) are outside the model. *)
Definition write_file (path content : string) : M unit :=
  fun w => (Ok tt, mkWorld (<[path := content]> (files w)) (stdout w)).

(** [path.unlink()]; on a missing file Python raises [FileNotFoundError],
    whose message names the full path of the file. *)
Definition unlink (path : string) : M unit :=
  fun w =>
    match files w !! path with
    | Some _ => (Ok tt, mkWorld (delete path (files w)) (stdout w))
    | None => (Raise ("[Errno 2] No such file or directory: " +:+ path), w)
    end.

(** The names in the directory, in the order the file system lists them. *)
Definition listdir : M (list string) :=
  fun w => (Ok (map fst (map_to_list (files w))), w).

(** [for x in l: body x] *)
Fixpoint for_each {A : Type} (l : list A) (body : A -> M unit) : M unit :=
  match l with
  | [] => ret tt
  | x :: l' => do body x then for_each l' body
  end.

(** A loop that updates a local variable [acc]. *)
Fixpoint for_fold {A S : Type} (l : list A) (acc : S) (body : S -> A -> M S)
    : M S :=
  match l with
  | [] => ret acc
  | x :: l' => let* acc' := body acc x in for_fold l' acc' body
  end.

(** ** [int(x)] and [repr(x)] on strings *)

Module PyInt.

(** The characters [int] strips: tab, newline, vertical tab, form feed,
    carriage return, the four separators 28 to 31, and the space. *)
Definition is_space (c : ascii) : bool :=
  let n := N_of_ascii c in
  ((9 <=? n) && (n <=? 13) || (28 <=? n) && (n <=? 32))%N.

Fixpoint skip_spaces (s : string) : string :=
  match s with
  | EmptyString => EmptyString
  | String c s' => if is_space c then skip_spaces s' else s
  end.

Definition digit_value (c : ascii) : Z :=
  Z.of_N (N_of_ascii c) - 48.

(** Digits with single underscores between them; returns the value, the
    number of digits and what follows. *)
Fixpoint digits (s : string) (acc : Z) (count : nat) (after_digit : bool)
    : option (Z * nat * string) :=
  match s with
  | EmptyString => if after_digit then Some (acc, count, s) else None
  | String c s' =>
      if PyStr.is_digit c
      then digits s' (10 * acc + digit_value c) (S count) true
      else if Ascii.eqb c "_"
      then (if after_digit then digits s' acc count false else None)
      else (if after_digit then Some (acc, count, s) else None)
  end.

Definition hex_digit (n : N) : ascii :=
  if (n <? 10)%N then ascii_of_N (48 + n) else ascii_of_N (87 + n).

Definition escape_char (quote c : ascii) : string :=
  let n := N_of_ascii c in
  if Ascii.eqb c quote || Ascii.eqb c "\" then String "\" (String c EmptyString)
  else if (n =? 9)%N then "\t"
  else if (n =? 10)%N then "\n"
  else if (n =? 13)%N then "\r"
  else if (n <? 32)%N || (n =? 127)%N
  then String "\" (String "x" (String (hex_digit (n / 16)) (String (hex_digit (n mod 16)) EmptyString)))
  else String c EmptyString.

Fixpoint escape (quote : ascii) (s : string) : string :=
  match s with
  | EmptyString => EmptyString
  | String c s' => escape_char quote c +:+ escape quote s'
  end.

(** [repr(s)] *)
Definition repr (s : string) : string :=
  let quote : ascii :=
    if PyStr.char_in "'" s && negb (PyStr.char_in (ascii_of_nat 34) s)
    then ascii_of_nat 34 else "'"%char in
  String quote (escape quote s) +:+ String quote EmptyString.

Definition max_str_digits : nat := 4300.

Definition invalid_literal {A : Type} (x : string) : result A :=
  Raise ("invalid literal for int() with base 10: " +:+ PyStr.take 200 (repr x)).

(** [int(x)] for a string [x]. *)
Definition int (x : string) : result Z :=
  let s := skip_spaces x in
  let '(negative, s) :=
    match s with
    | String c s' =>
        if Ascii.eqb c "-" then (true, s')
        else if Ascii.eqb c "+" then (false, s')
        else (false, s)
    | EmptyString => (false, s)
    end in
  match digits s 0 0 false with
  | None => invalid_literal x
  | Some (value, count, rest) =>
      if negb (String.eqb (skip_spaces rest) EmptyString) then invalid_literal x
      else if (max_str_digits <? count)%nat
      then Raise ("Exceeds the limit (4300 digits) for integer string conversion: value has "
                  +:+ NilZero.string_of_uint (Nat.to_uint count)
                  +:+ " digits; use sys.set_int_max_str_digits() to increase the limit")
      else Ok (if negative then - value else value)
  end.

End PyInt.

(** ** Version selection *)

(** One iteration of the grouping loop of [process_project]. *)
Definition group_step (releases_by_minor : list (string * ReleaseData.t))
    (release_data : ReleaseData.t) : list (string * ReleaseData.t) :=
  if ReleaseData.prerelease release_data || ReleaseData.draft release_data
  then releases_by_minor
  else
    let tag := ReleaseData.tag_name release_data in
    let version := extract_version tag in
    let major_minor := extract_major_minor version in
    (* Keep only the first (latest) release for each major.minor *)
    if negb (PyDict.mem major_minor releases_by_minor)
    then PyDict.set major_minor release_data releases_by_minor
    else releases_by_minor.

(** The dict [releases_by_minor] after the grouping loop. *)
Definition group_releases (releases_data : list ReleaseData.t)
    : list (string * ReleaseData.t) :=
  fold_left group_step releases_data [].

Fixpoint map_result {A B : Type} (f : A -> result B) (l : list A)
    : result (list B) :=
  match l with
  | [] => Ok []
  | x :: l' =>
      match f x with
      | Raise msg => Raise msg
      | Ok y =>
          match map_result f l' with
          | Raise msg => Raise msg
          | Ok ys => Ok (y :: ys)
          end
      end
  end.

(** The sort key [[int(x) for x in v.split(".")]]. *)
Definition sort_key (v : string) : result (list Z) :=
  map_result PyInt.int (PyStr.split "." v).

(** [a <= b] on lists of integers, as Python compares lists. *)
Fixpoint key_leb (a b : list Z) : bool :=
  match a, b with
  | [], _ => true
  | _ :: _, [] => false
  | x :: a', y :: b' =>
      if x <? y then true
      else if y <? x then false
      else key_leb a' b'
  end.

(** Stable insertion for a descending order: the new entry, which comes from
    earlier in the input, goes before the entries whose key is not larger. *)
Fixpoint insert_desc {A : Type} (e : list Z * A) (l : list (list Z * A))
    : list (list Z * A) :=
  match l with
  | [] => [e]
  | e' :: l' =>
      if key_leb (fst e') (fst e) then e :: l
      else e' :: insert_desc e l'
  end.

Definition sort_desc {A : Type} (l : list (list Z * A)) : list (list Z * A) :=
  fold_right insert_desc [] l.

(** [sorted(keys, key=lambda v: [int(x) for x in v.split(".")], reverse=True)]:
    the keys are computed first, in order, then the list is sorted, entries
    with equal keys staying in their input order. *)
Definition sorted_versions (keys : list string) : result (list string) :=
  match map_result (fun v => match sort_key v with
                             | Ok k => Ok (k, v)
                             | Raise msg => Raise msg
                             end) keys with
  | Ok decorated => Ok (map snd (sort_desc decorated))
  | Raise msg => Raise msg
  end.

(** [l[:stop]] *)
Definition slice_to {A : Type} (stop : Z) (l : list A) : list A :=
  if 0 <=? stop then firstn (Z.to_nat stop) l
  else firstn (Z.to_nat (Z.of_nat (length l) + stop)) l.

(** [sorted_versions[:project.keep_versions + 1]] *)
Definition versions_to_keep (project : Project.t) (sorted : list string)
    : list string :=
  slice_to (Project.keep_versions project + 1) sorted.

(** ** Pinned formula files *)

(** [fnmatch] of a file name against a pattern made of literal characters
    and [*], which is what the pattern of [find_existing_versioned_formulas]
    is when the project name has none of the characters that [glob] reads
    as wildcards or as path separators. *)
Fixpoint glob_match (pattern name : string) : bool :=
  match pattern with
  | EmptyString => String.eqb name EmptyString
  | String p pattern' =>
      if Ascii.eqb p "*"
      then (fix star (s : string) : bool :=
              glob_match pattern' s ||
              match s with
              | EmptyString => false
              | String _ s' => star s'
              end) name
      else match name with
           | EmptyString => false
           | String c name' => Ascii.eqb p c && glob_match pattern' name'
           end
  end.

(** [find_existing_versioned_formulas] *)
Definition find_existing_versioned_formulas (project_name : string)
    : M (list string) :=
  let pattern := project_name +:+ "@*.rb" in
  let* names := listdir in
  ret (filter (fun n => glob_match pattern n = true) names).

(** The longest prefix of digits and what follows it. *)
Fixpoint span_digits (s : string) : string * string :=
  match s with
  | EmptyString => (EmptyString, EmptyString)
  | String c s' =>
      if PyStr.is_digit c
      then let '(d, rest) := span_digits s' in (String c d, rest)
      else (EmptyString, s)
  end.

Fixpoint drop_prefix (p s : string) : option string :=
  match p, s with
  | EmptyString, _ => Some s
  | String a p', String b s' => if Ascii.eqb a b then drop_prefix p' s' else None
  | String _ _, EmptyString => None
  end.

(** [$]: the end of the string, or a newline that ends it. *)
Definition at_end (s : string) : bool :=
  String.eqb s EmptyString || String.eqb s nl.

(** A match of [name@(\d+\.\d+)\.rb$] that starts at the head of [s]; the
    result is the group. *)
Definition match_pinned_here (project_name s : string) : option string :=
  match drop_prefix (project_name +:+ "@") s with
  | None => None
  | Some s1 =>
      let '(major, s2) := span_digits s1 in
      match major, drop_prefix "." s2 with
      | String _ _, Some s3 =>
          let '(minor, s4) := span_digits s3 in
          match minor, drop_prefix ".rb" s4 with
          | String _ _, Some s5 =>
              if at_end s5 then Some (major +:+ "." +:+ minor) else None
          | _, _ => None
          end
      | _, _ => None
      end
  end.

(** [re.search(rf"{re.escape(project_name)}@(\d+\.\d+)\.rb$", filename)]:
    the group of the leftmost match. *)
Fixpoint pinned_minor (project_name filename : string) : option string :=
  match match_pinned_here project_name filename with
  | Some v => Some v
  | None =>
      match filename with
      | EmptyString => None
      | String _ rest => pinned_minor project_name rest
      end
  end.

(** The body of the loop of [cleanup_old_versions]. *)
Definition cleanup_step (project_name : string) (keep_versions : list string)
    (dry_run : bool) (removed : list string) (formula_path : string)
    : M (list string) :=
  match pinned_minor project_name formula_path with
  | Some version =>
      if bool_decide (version ∈ keep_versions) then ret removed
      else
        do (if dry_run
            then print ("  Would remove: " +:+ formula_path)
            else do unlink formula_path
                 then print ("  Removed: " +:+ formula_path))
        then ret (removed ++ [formula_path])%list
  | None => ret removed
  end.

(** [cleanup_old_versions] *)
Definition cleanup_old_versions (project_name : string)
    (keep_versions : list string) (dry_run : bool) : M (list string) :=
  let* existing := find_existing_versioned_formulas project_name in
  for_fold existing [] (cleanup_step project_name keep_versions dry_run).

(** ** Processing one project *)

(** What the network answers: the two endpoints of [GitHubAPI] that
    [process_project] calls, and the SHA-256 digest of the bytes served at a
    download URL.  A [Raise] is the exception of a failed request. *)
Module GitHubAPI.
Record t : Type := mk {
  get_repo : string -> result RepoInfo.t;
  get_releases : string -> Z -> result (list ReleaseData.t);
  download_sha256 : string -> result string
}.
End GitHubAPI.

(** [compute_sha256] *)
Definition compute_sha256 (github : GitHubAPI.t) (url : string) : M string :=
  do print ("    Downloading " +:+ List.last (PyStr.split "/" url) EmptyString +:+ "...")
  then lift (GitHubAPI.download_sha256 github url).

Definition truthy (s : string) : bool := negb (String.eqb s EmptyString).

Definition truthy_opt (s : option string) : bool :=
  match s with
  | Some s => truthy s
  | None => false
  end.

(** The description taken from the repository object:
    [repo_info.get("description", "") or f"{project.name} CLI tool"]. *)
Definition description_of (repo_info : RepoInfo.t) (project : Project.t) : string :=
  match RepoInfo.description repo_info with
  | Present d => if truthy d then d else Project.name project +:+ " CLI tool"
  | _ => Project.name project +:+ " CLI tool"
  end.

(** The license taken from the repository object:
    [license_info = repo_info.get("license", {})] and then
    [license_info.get("spdx_id", "MIT") if license_info else "MIT"]. *)
Definition license_of (repo_info : RepoInfo.t) : option string :=
  match RepoInfo.license repo_info with
  | Present ((_ :: _) as license_info) =>
      match PyDict.get "spdx_id" license_info with
      | Some spdx_id => spdx_id
      | None => Some "MIT"
      end
  | _ => Some "MIT"
  end.

(** The first block of [process_project]: description and license are
    fetched when the configuration leaves one of them empty. *)
Definition fill_repo_info (github : GitHubAPI.t) (project : Project.t)
    : result Project.t :=
  if negb (truthy (Project.description project))
     || negb (truthy_opt (Project.license project))
  then
    match GitHubAPI.get_repo github (Project.repo project) with
    | Raise msg => Raise msg
    | Ok repo_info =>
        let description :=
          if negb (truthy (Project.description project))
          then description_of repo_info project
          else Project.description project in
        let license :=
          if negb (truthy_opt (Project.license project))
          then license_of repo_info
          else Project.license project in
        Ok (Project.mk (Project.repo project) (Project.name project)
              description license (Project.homepage project)
              (Project.binary_name project) (Project.keep_versions project)
              (Project.asset_patterns project))
    end
  else Ok project.

(** The loop that downloads every matched asset and stores its digest. *)
Fixpoint checksum_assets (github : GitHubAPI.t) (assets : list (string * Asset.t))
    : M (list (string * Asset.t)) :=
  match assets with
  | [] => ret []
  | (platform, asset) :: rest =>
      let* sha256 := compute_sha256 github (Asset.url asset) in
      do print ("    " +:+ platform +:+ ": " +:+ PyStr.take 16 sha256 +:+ "...")
      then let* rest' := checksum_assets github rest in
      ret ((platform, Asset.mk (Asset.name asset) (Asset.url asset) sha256) :: rest')
  end.

(** The body of the loop over [versions_to_keep]. *)
Definition process_version (github : GitHubAPI.t) (project : Project.t)
    (releases_by_minor : list (string * ReleaseData.t))
    (generated_releases : list (string * Release.t)) (major_minor : string)
    : M (list (string * Release.t)) :=
  match PyDict.get major_minor releases_by_minor with
  | None => lift (Raise (PyInt.repr major_minor))
  | Some release_data =>
      let tag := ReleaseData.tag_name release_data in
      let version := extract_version tag in
      do print (nl +:+ "  Processing v" +:+ version +:+ "...")
      then
        (* Find assets *)
        let assets := find_release_assets release_data project in
        match assets with
        | [] =>
            do print "    WARNING: No compatible assets found, skipping"
            then ret generated_releases
        | _ :: _ =>
            do print ("    Found assets for: " +:+ PyStr.join ", " (PyDict.keys assets))
            then
              (* Compute SHA256 for each asset *)
              let* assets := checksum_assets github assets in
              (* Create release object *)
              let release := Release.mk tag version major_minor assets in
              ret (PyDict.set major_minor release generated_releases)
        end
  end.

(** The body of the loop that writes the formulas. *)
Definition write_formulas (project : Project.t) (latest_version : string)
    (dry_run : bool) (item : string * Release.t) : M unit :=
  let '(major_minor, release) := item in
  let is_latest := String.eqb major_minor latest_version in
  do (* Always generate the main formula for the latest version *)
     (if is_latest
      then
        let formula_content := generate_formula project release false in
        if dry_run
        then
          do print (nl +:+ "--- " +:+ Project.name project +:+ ".rb (latest: "
                    +:+ Release.version release +:+ ") ---")
          then print formula_content
        else
          let formula_path := Project.name project +:+ ".rb" in
          do write_file formula_path formula_content
          then print ("  Generated: " +:+ formula_path)
      else ret tt)
  then
    (* Generate versioned formula if keep_versions > 0 *)
    if 0 <? Project.keep_versions project
    then
      let formula_content := generate_formula project release true in
      if dry_run
      then
        do print (nl +:+ "--- " +:+ Project.name project +:+ "@" +:+ major_minor
                  +:+ ".rb ---")
        then print formula_content
      else
        let formula_path := Project.name project +:+ "@" +:+ major_minor +:+ ".rb" in
        do write_file formula_path formula_content
        then print ("  Generated: " +:+ formula_path)
    else ret tt.

(** The [try] block of [process_project] after the repository metadata. *)
Definition process_releases (github : GitHubAPI.t) (project : Project.t)
    (dry_run : bool) : M bool :=
  (* Get releases (fetch more if we need to keep versions) *)
  let* releases_data :=
    lift (GitHubAPI.get_releases github (Project.repo project) 30) in
  match releases_data with
  | [] => do print "  ERROR: No releases found" then ret false
  | _ :: _ =>
      (* Group releases by major.minor, keeping the latest patch for each *)
      let releases_by_minor := group_releases releases_data in
      match releases_by_minor with
      | [] => do print "  ERROR: No valid releases found" then ret false
      | _ :: _ =>
          (* Sort versions (newest first) *)
          let* sorted := lift (sorted_versions (PyDict.keys releases_by_minor)) in
          let latest_version := List.hd EmptyString sorted in
          do print ("  Latest version: " +:+ latest_version)
          then
            (* Determine which versions to generate *)
            let to_keep := versions_to_keep project sorted in
            do print ("  Versions to generate: " +:+ PyStr.join ", " to_keep)
            then
              (* Process each version *)
              let* generated_releases :=
                for_fold to_keep []
                  (process_version github project releases_by_minor) in
              match generated_releases with
              | [] => do print "  ERROR: No releases could be processed" then ret false
              | _ :: _ =>
                  (* Generate formulas *)
                  do for_each generated_releases
                       (write_formulas project latest_version dry_run)
                  then
                    (* Cleanup old versions *)
                    do (if 0 <? Project.keep_versions project
                        then
                          let versions_to_keep_set := PyDict.keys generated_releases in
                          do cleanup_old_versions (Project.name project)
                               versions_to_keep_set dry_run
                          then ret tt
                        else ret tt)
                    then ret true
              end
      end
  end.

(** [process_project]: the result, the project as the call leaves it, and
    the world.  Any exception of the [try] block is reported and makes the
    result [False]. *)
Definition process_project (github : GitHubAPI.t) (project : Project.t)
    (dry_run : bool) (w : World) : bool * Project.t * World :=
  let '(_, w) := print (nl +:+ "Processing " +:+ Project.repo project +:+ "...") w in
  match fill_repo_info github project with
  | Raise msg =>
      let '(_, w) := print ("  ERROR: " +:+ msg) w in (false, project, w)
  | Ok project =>
      match process_releases github project dry_run w with
      | (Ok b, w) => (b, project, w)
      | (Raise msg, w) =>
          let '(_, w) := print ("  ERROR: " +:+ msg) w in (false, project, w)
      end
  end.

(** ** Project configuration *)

(** [Project.__post_init__]: the defaults derived from the repository id. *)
Definition __post_init__ (self : Project.t) : Project.t :=
  let name :=
    if negb (truthy (Project.name self))
    then List.last (PyStr.split "/" (Project.repo self)) EmptyString
    else Project.name self in
  let binary_name :=
    if negb (truthy (Project.binary_name self)) then name
    else Project.binary_name self in
  let homepage :=
    if negb (truthy (Project.homepage self))
    then "https://github.com/" +:+ Project.repo self
    else Project.homepage self in
  Project.mk (Project.repo self) name (Project.description self)
    (Project.license self) homepage binary_name (Project.keep_versions self)
    (Project.asset_patterns self).

(** An entry of the [projects] list of the configuration, as [yaml.safe_load]
    returns it: a string, or a mapping in which a key is absent ([None]) or
    holds a value of the type that [Project] declares for it. *)
Module ConfigItem.
Record fields : Type := mk {
  repo : option string;
  name : option string;
  description : option string;
  license : option string;
  homepage : option string;
  binary_name : option string;
  keep_versions : option Z;
  asset_patterns : option (list (string * string))
}.

Inductive t : Type :=
| Str (repo : string) : t
| Dict (item : fields) : t.
End ConfigItem.

(** [item.get(key, default)] *)
Definition get_default {A : Type} (field : option A) (default : A) : A :=
  match field with
  | Some v => v
  | None => default
  end.

(** The project that [load_config] builds from one entry; a mapping without
    the key [repo] raises [KeyError]. *)
Definition load_item (item : ConfigItem.t) : result Project.t :=
  match item with
  | ConfigItem.Str repo =>
      Ok (__post_init__
            (Project.mk repo EmptyString EmptyString (Some EmptyString)
               EmptyString EmptyString 0 []))
  | ConfigItem.Dict item =>
      match ConfigItem.repo item with
      | None => Raise (PyInt.repr "repo")
      | Some repo =>
          Ok (__post_init__
                (Project.mk repo
                   (get_default (ConfigItem.name item) EmptyString)
                   (get_default (ConfigItem.description item) EmptyString)
                   (Some (get_default (ConfigItem.license item) EmptyString))
                   (get_default (ConfigItem.homepage item) EmptyString)
                   (get_default (ConfigItem.binary_name item) EmptyString)
                   (get_default (ConfigItem.keep_versions item) 0)
                   (get_default (ConfigItem.asset_patterns item) [])))
      end
  end.

(** [load_config], from the parsed document on: [projects] is the value of
    the key [projects], [None] when the key is absent. *)
Definition load_config (projects : option (list ConfigItem.t))
    : result (list Project.t) :=
  map_result load_item (get_default projects []).

(** ** Command line *)

(** The parsed arguments: [project] is [None] without [--project]. *)
Module Args.
Record t : Type := mk {
  config : string;
  project : option string;
  list : bool;
  dry_run : bool
}.
End Args.

(** The decimal text of a number in an f-string. *)
Definition str_of_nat (n : nat) : string := NilZero.string_of_uint (Nat.to_uint n).
Definition str_of_Z (z : Z) : string := NilZero.string_of_int (Z.to_int z).

(** The line of [--list] for one project. *)
Definition list_line (p : Project.t) : string :=
  let versions_info :=
    if negb (Project.keep_versions p =? 0)
    then ", keep_versions: " +:+ str_of_Z (Project.keep_versions p)
    else EmptyString in
  "  - " +:+ Project.repo p +:+ " (name: " +:+ Project.name p
  +:+ versions_info +:+ ")".

(** [args.project in (p.repo, p.name, p.repo.split("/")[-1])] *)
Definition project_selected (wanted : string) (p : Project.t) : bool :=
  String.eqb wanted (Project.repo p)
  || String.eqb wanted (Project.name p)
  || String.eqb wanted (List.last (PyStr.split "/" (Project.repo p)) EmptyString).

(** The loop of [main] over the projects: the number of successes. *)
Fixpoint process_all (github : GitHubAPI.t) (projects : list Project.t)
    (dry_run : bool) (success_count : nat) (w : World) : nat * World :=
  match projects with
  | [] => (success_count, w)
  | project :: rest =>
      let '(ok, _, w) := process_project github project dry_run w in
      process_all github rest dry_run
        (if ok then S success_count else success_count) w
  end.

(** The end of [main]: every project is processed, the summary is
    printed, and the exit status is 1 when a project failed. *)
Definition process_and_report (github : GitHubAPI.t) (projects : list Project.t)
    (dry_run : bool) (w : World) : Z * World :=
  (* Process each project *)
  let '(success_count, w) := process_all github projects dry_run 0 w in
  let '(_, w) :=
    print (nl +:+ "Processed " +:+ str_of_nat success_count +:+ "/"
           +:+ str_of_nat (length projects) +:+ " projects successfully") w in
  (if (success_count <? length projects)%nat then 1 else 0, w).

(** [main] after the arguments are parsed: [config_file] is [None] when the
    configuration file does not exist and otherwise the value of its
    [projects] key; the result is the exit status of the process.  An
    exception of [load_config] is not caught: it ends the process with
    status 1 and a traceback on the error stream. *)
Definition main (args : Args.t) (config_file : option (option (list ConfigItem.t)))
    (github : GitHubAPI.t) (w : World) : Z * World :=
  match config_file with
  | None =>
      let '(_, w) := print ("Error: Config file not found: " +:+ Args.config args) w in
      (1, w)
  | Some document =>
      match load_config document with
      | Raise _ => (1, w)
      | Ok projects =>
          if Args.list args
          then
            let '(_, w) := print "Configured projects:" w in
            let '(_, w) := for_each projects (fun p => print (list_line p)) w in
            (0, w)
          else
            (* Filter to specific project if requested *)
            let wanted := get_default (Args.project args) EmptyString in
            if truthy wanted
            then
              let projects := List.filter (project_selected wanted) projects in
              match projects with
              | [] =>
                  let '(_, w) :=
                    print ("Error: Project '" +:+ wanted +:+ "' not found in config") w in
                  (1, w)
              | _ :: _ =>
                  process_and_report github projects (Args.dry_run args) w
              end
            else process_and_report github projects (Args.dry_run args) w
      end
  end.

(** ** Vocabulary of the specification *)

(** The documented behaviour of [extract_version]: the tag without its one
    leading [v], or the tag itself when it has none. *)
Definition remove_v_prefix (tag : string) : string :=
  match tag with
  | String c rest => if Ascii.eqb c "v" then rest else tag
  | EmptyString => tag
  end.

(** Ruby's interpolation of [#{version}] in a [url] line, as Homebrew
    evaluates it against the declared version when the formula is loaded. *)
Definition interpolate_version (version line : string) : string :=
  PyStr.replace "#{version}" version line.

(** The release object [process_project] builds for a tag. *)
Definition release_for_tag (tag : string) (assets : list (string * Asset.t))
    : Release.t :=
  let version := extract_version tag in
  Release.mk tag version (extract_major_minor version) assets.

(** A project name that is a plain file name for [glob]: none of the
    characters [*], [?], [[] and [/]. *)
Fixpoint plain_name (s : string) : bool :=
  match s with
  | EmptyString => true
  | String c s' => negb (PyStr.char_in c "*?[/") && plain_name s'
  end.

(** The two shapes of an OS block of a formula, for the keyword [on_macos]
    or [on_linux]: a runtime branch between the two architectures, and one
    unconditional url/sha256 pair. *)
Definition branch_block (keyword : string) (release : Release.t)
    (arm x86 : Asset.t) : string :=
  "  " +:+ keyword +:+ " do" +:+ nl
  +:+ "    if Hardware::CPU.arm?" +:+ nl
  +:+ "      url " +:+ quoted (render_url release arm) +:+ nl
  +:+ "      sha256 " +:+ quoted (Asset.sha256 arm) +:+ nl
  +:+ "    else" +:+ nl
  +:+ "      url " +:+ quoted (render_url release x86) +:+ nl
  +:+ "      sha256 " +:+ quoted (Asset.sha256 x86) +:+ nl
  +:+ "    end" +:+ nl
  +:+ "  end" +:+ nl +:+ nl.

Definition single_block (keyword : string) (release : Release.t)
    (asset : Asset.t) : string :=
  "  " +:+ keyword +:+ " do" +:+ nl
  +:+ "    url " +:+ quoted (render_url release asset) +:+ nl
  +:+ "    sha256 " +:+ quoted (Asset.sha256 asset) +:+ nl
  +:+ "  end" +:+ nl +:+ nl.

(** The OS block the specification asks for, from the two assets of the
    operating system. *)
Definition os_block (keyword : string) (release : Release.t)
    (arm x86 : option Asset.t) : string :=
  match arm, x86 with
  | Some a, Some x => branch_block keyword release a x
  | Some a, None => single_block keyword release a
  | None, Some x => single_block keyword release x
  | None, None => EmptyString
  end.

(** What precedes and what follows the OS blocks. *)
Definition formula_class_name (project : Project.t) (release : Release.t)
    (is_versioned : bool) : string :=
  if is_versioned
  then camel_case (Project.name project) +:+ "AT"
       +:+ PyStr.replace "." EmptyString (Release.major_minor release)
  else camel_case (Project.name project).

Definition formula_header (project : Project.t) (release : Release.t)
    (is_versioned : bool) : string :=
  "class " +:+ formula_class_name project release is_versioned
  +:+ " < Formula" +:+ nl
  +:+ "  desc " +:+ quoted (Project.description project) +:+ nl
  +:+ "  homepage " +:+ quoted (Project.homepage project) +:+ nl
  +:+ "  license " +:+ quoted (py_str (Project.license project)) +:+ nl
  +:+ "  version " +:+ quoted (Release.version release) +:+ nl
  +:+ nl.

Definition formula_footer (project : Project.t) : string :=
  "  def install" +:+ nl
  +:+ "    bin.install " +:+ quoted (Project.binary_name project) +:+ nl
  +:+ "  end" +:+ nl
  +:+ nl
  +:+ "  test do" +:+ nl
  +:+ "    assert_match version.to_s, shell_output(" +:+ dq +:+ "#{bin}/"
  +:+ Project.binary_name project +:+ " --version" +:+ dq +:+ ")" +:+ nl
  +:+ "  end" +:+ nl
  +:+ "end" +:+ nl.

(** How the shape of an OS block follows the assets of its operating
    system: a runtime architecture branch exactly when both are there, one
    unconditional url/sha256 pair exactly when one is, and no text at all
    exactly when none is. *)
Definition block_follows_assets (keyword block : string)
    (arm x86 : option Asset.t) : Prop :=
  let opening := "  " +:+ keyword +:+ " do" +:+ nl in
  (PyStr.startswith (opening +:+ "    if Hardware::CPU.arm?" +:+ nl) block = true
     <-> is_Some arm /\ is_Some x86) /\
  (PyStr.startswith (opening +:+ "    url ") block = true
     <-> (is_Some arm /\ x86 = None) \/ (arm = None /\ is_Some x86)) /\
  (block = EmptyString <-> arm = None /\ x86 = None).

(** The slots an asset name matches: every slot of [PLATFORM_PATTERNS] one
    of whose patterns is found in the name of an archive, in the order of
    the table; under custom patterns, every slot whose pattern the name
    contains, in the order the project declares them. *)
Definition builtin_slots (asset_name : string) : list string :=
  let name_lower := PyStr.lower asset_name in
  if is_archive name_lower
  then map fst (List.filter (fun g => group_matches (snd g) name_lower)
                  PLATFORM_PATTERNS)
  else [].

Definition custom_slots (patterns : list (string * string))
    (asset_name : string) : list string :=
  map fst (List.filter (fun p => match_asset_pattern asset_name (snd p)) patterns).

Definition matched_slots (project : Project.t) (asset_name : string)
    : list string :=
  match Project.asset_patterns project with
  | _ :: _ => custom_slots (Project.asset_patterns project) asset_name
  | [] => builtin_slots asset_name
  end.

(** The asset object [find_release_assets] creates for an entry of the
    release. *)
Definition asset_of (d : AssetData.t) : Asset.t :=
  Asset.mk (AssetData.name d) (AssetData.browser_download_url d) EmptyString.

(** A release that the grouping loop considers: neither a prerelease nor a
    draft. *)
Definition is_published (release_data : ReleaseData.t) : bool :=
  negb (ReleaseData.prerelease release_data || ReleaseData.draft release_data).

(** The major.minor key of a release of the API. *)
Definition minor_of (release_data : ReleaseData.t) : string :=
  extract_major_minor (extract_version (ReleaseData.tag_name release_data)).

(** The first published release of the list with the given minor. *)
Definition first_seen (major_minor : string) (releases_data : list ReleaseData.t)
    : option ReleaseData.t :=
  List.find (fun rd => is_published rd && String.eqb (minor_of rd) major_minor)
    releases_data.

(** [a] is at least as new as [b]: both have numeric keys, and the key of
    [b] is not larger than the key of [a]. *)
Definition at_least_as_new (a b : string) : Prop :=
  exists ka kb : list Z,
    sort_key a = Ok ka /\ sort_key b = Ok kb /\ key_leb kb ka = true.

(** The order [sort_desc] establishes on decorated entries: the key of the
    later entry is not larger than the key of the earlier one. *)
Definition not_after {A : Type} (e1 e2 : list Z * A) : Prop :=
  key_leb (fst e2) (fst e1) = true.

(** A file name that [cleanup_old_versions] removes: it matches the glob of
    the pinned formulas of the project, a minor is read off it, and this
    minor is not among the versions to keep. *)
Definition to_remove (project_name : string) (keep_versions : list string)
    (filename : string) : bool :=
  glob_match (project_name +:+ "@*.rb") filename &&
  match pinned_minor project_name filename with
  | Some version => negb (bool_decide (version ∈ keep_versions))
  | None => false
  end.

(** The line that reports a removal. *)
Definition removal_report (dry_run : bool) (filename : string) : string :=
  (if dry_run then "  Would remove: " else "  Removed: ") +:+ filename.

(** A non-empty string of decimal digits. *)
Fixpoint all_digits (s : string) : bool :=
  match s with
  | EmptyString => true
  | String c s' => PyStr.is_digit c && all_digits s'
  end.

Definition is_number (s : string) : bool :=
  match s with
  | EmptyString => false
  | String _ _ => all_digits s
  end.

(** The name of the pinned formula file of a minor. *)
Definition pinned_file (project_name major_minor : string) : string :=
  project_name +:+ "@" +:+ major_minor +:+ ".rb".

(** The test of the loop of [cleanup_old_versions] on one listed file. *)
Definition names_stale_minor (project_name : string) (keep_versions : list string)
    (filename : string) : bool :=
  match pinned_minor project_name filename with
  | Some version => negb (bool_decide (version ∈ keep_versions))
  | None => false
  end.

(** The directory after the listed files are unlinked one after the other. *)
Definition unlink_all (names : list string) (dir : gmap string string)
    : gmap string string :=
  fold_left (fun m f => delete f m) names dir.

(** The assets of a release with the digests the downloads give, as the
    checksum loop of [process_project] leaves them when no download fails. *)
Fixpoint with_checksums (github : GitHubAPI.t) (assets : list (string * Asset.t))
    : result (list (string * Asset.t)) :=
  match assets with
  | [] => Ok []
  | (platform, asset) :: rest =>
      match GitHubAPI.download_sha256 github (Asset.url asset) with
      | Raise msg => Raise msg
      | Ok sha256 =>
          match with_checksums github rest with
          | Raise msg => Raise msg
          | Ok rest' =>
              Ok ((platform, Asset.mk (Asset.name asset) (Asset.url asset) sha256)
                    :: rest')
          end
      end
  end.

(** The release object that the loop over the versions to keep builds for a
    minor: none when the release of the minor has no matched asset. *)
Definition release_of (github : GitHubAPI.t) (project : Project.t)
    (releases_by_minor : list (string * ReleaseData.t)) (major_minor : string)
    : option Release.t :=
  match PyDict.get major_minor releases_by_minor with
  | None => None
  | Some release_data =>
      match find_release_assets release_data project with
      | [] => None
      | (_ :: _) as assets =>
          match with_checksums github assets with
          | Raise _ => None
          | Ok assets' =>
              let tag := ReleaseData.tag_name release_data in
              Some (Release.mk tag (extract_version tag) major_minor assets')
          end
      end
  end.

Definition add_release (github : GitHubAPI.t) (project : Project.t)
    (releases_by_minor : list (string * ReleaseData.t))
    (generated_releases : list (string * Release.t)) (major_minor : string)
    : list (string * Release.t) :=
  match release_of github project releases_by_minor major_minor with
  | Some release => PyDict.set major_minor release generated_releases
  | None => generated_releases
  end.

(** The name of the canonical formula file of a project. *)
Definition canonical_file (project : Project.t) : string :=
  Project.name project +:+ ".rb".

(** The directory after the formulas of one generated release are written
    (not a dry run). *)
Definition write_step (project : Project.t) (latest_version : string)
    (dir : gmap string string) (item : string * Release.t) : gmap string string :=
  let '(major_minor, release) := item in
  let dir :=
    if String.eqb major_minor latest_version
    then <[canonical_file project := generate_formula project release false]> dir
    else dir in
  if 0 <? Project.keep_versions project
  then <[pinned_file (Project.name project) major_minor
           := generate_formula project release true]> dir
  else dir.

(** A computation that leaves the formula directory as it is, whatever its
    outcome. *)
Definition keeps_files {A : Type} (c : M A) : Prop :=
  forall w : World, files (snd (c w)) = files w.

(** Every file of [dir'] is as in [dir], or is a rendering of a formula of
    the project; files of [dir] may be gone. *)
Definition rendered_from (project : Project.t) (dir dir' : gmap string string)
    : Prop :=
  forall f : string,
    dir' !! f = dir !! f \/ dir' !! f = None \/
    exists release is_versioned,
      dir' !! f = Some (generate_formula project release is_versioned).

Definition renders_only {A : Type} (project : Project.t) (c : M A) : Prop :=
  forall w : World, rendered_from project (files w) (files (snd (c w))).

(** The license line of a formula. *)
Definition license_line (license : string) : string :=
  "  license " +:+ quoted license +:+ nl.

(** The files of a directory that [cleanup_old_versions] removes, in the
    order it meets them. *)
Definition stale_files (project_name : string) (keep_versions : list string)
    (dir : gmap string string) : list string :=
  List.filter (names_stale_minor project_name keep_versions)
    (filter (fun n => glob_match (project_name +:+ "@*.rb") n = true)
       (map fst (map_to_list dir))).

(** The directory that a successful run of [process_project] (not a dry
    run) leaves: every generated release is written, then the stale pinned
    files are removed when past versions are kept. *)
Definition directory_after (project : Project.t) (latest_version : string)
    (generated_releases : list (string * Release.t)) (dir : gmap string string)
    : gmap string string :=
  let written := fold_left (write_step project latest_version) generated_releases dir in
  if 0 <? Project.keep_versions project
  then unlink_all (stale_files (Project.name project)
                     (PyDict.keys generated_releases) written) written
  else written.

(** A network for the examples: a repository with the releases v2.1.0,
    whose only asset is a Windows archive, and v2.0.0, which has a Linux
    archive. *)
Definition example_releases : list ReleaseData.t :=
  [ ReleaseData.mk "v2.1.0" false false
      [ AssetData.mk "tool-windows-amd64.zip"
          "https://github.com/acme/tool/releases/download/v2.1.0/tool-windows-amd64.zip" ];
    ReleaseData.mk "v2.0.0" false false
      [ AssetData.mk "tool-linux-amd64.tar.gz"
          "https://github.com/acme/tool/releases/download/v2.0.0/tool-linux-amd64.tar.gz" ] ].

Definition example_github (releases_data : list ReleaseData.t) : GitHubAPI.t :=
  GitHubAPI.mk
    (fun _ => Ok (RepoInfo.mk (Present "A tool") Null))
    (fun _ _ => Ok releases_data)
    (fun _ => Ok "0123456789abcdef0123456789abcdef").

Definition example_project (keep_versions : Z) : Project.t :=
  Project.mk "acme/tool" "tool" "A tool" (Some "MIT")
    "https://github.com/acme/tool" "tool" keep_versions [].

Definition empty_world : World := mkWorld ∅ [].

(** Lines of text, each ended by a newline. *)
Fixpoint unlines (l : list string) : string :=
  match l with
  | [] => EmptyString
  | x :: l' => x +:+ nl +:+ unlines l'
  end.

(** The language of a regular expression: the strings it matches in full. *)
Inductive re_matches : Re.regex -> string -> Prop :=
| MEps : re_matches Re.REps EmptyString
| MChar (c : ascii) : re_matches (Re.RChar c) (String c EmptyString)
| MDot (c : ascii) : c <> Re.newline -> re_matches Re.RDot (String c EmptyString)
| MCat (r1 r2 : Re.regex) (s1 s2 : string) :
    re_matches r1 s1 -> re_matches r2 s2 -> re_matches (Re.RCat r1 r2) (s1 +:+ s2)
| MAltL (r1 r2 : Re.regex) (s : string) :
    re_matches r1 s -> re_matches (Re.RAlt r1 r2) s
| MAltR (r1 r2 : Re.regex) (s : string) :
    re_matches r2 s -> re_matches (Re.RAlt r1 r2) s
| MStarNil (r : Re.regex) : re_matches (Re.RStar r) EmptyString
| MStarCons (r : Re.regex) (s1 s2 : string) :
    re_matches r s1 -> re_matches (Re.RStar r) s2 ->
    re_matches (Re.RStar r) (s1 +:+ s2).

(** A pattern without the two special characters of the fragment. *)
Fixpoint literal_pattern (p : string) : bool :=
  match p with
  | EmptyString => true
  | String c p' => negb (PyStr.char_in c ".*") && literal_pattern p'
  end.

(** The entries of a decorated list whose key equals [k]. *)
Definition with_key {A : Type} (k : list Z) (l : list (list Z * A))
    : list (list Z * A) :=
  List.filter (fun e => key_leb (fst e) k && key_leb k (fst e)) l.

(** ** Vocabulary of the further properties *)

(** The last entry of a release that is filed under a slot. *)
Definition last_filed (project : Project.t) (slot : string)
    (entries : list AssetData.t) : option AssetData.t :=
  List.find (fun d => bool_decide (classify project (AssetData.name d) = Some slot))
    (rev entries).

(** The slots that a project can file an asset under. *)
Definition known_slots (project : Project.t) : list string :=
  match Project.asset_patterns project with
  | _ :: _ => map fst (Project.asset_patterns project)
  | [] => map fst PLATFORM_PATTERNS
  end.

(** A string of [n] letters [v]. *)
Fixpoint v_letters (n : nat) : string :=
  match n with
  | O => EmptyString
  | S k => String "v" (v_letters k)
  end.


(** A computation that never raises. *)
Definition always_ok {A : Type} (c : M A) : Prop :=
  forall w : World, exists a : A, fst (c w) = Ok a.

(** Two directories that agree on every file that is neither the canonical
    file nor a pinned file (by the glob) of the project. *)
Definition same_outside (project_name : string) (dir dir' : gmap string string)
    : Prop :=
  forall f : string,
    f <> project_name +:+ ".rb" ->
    glob_match (project_name +:+ "@*.rb") f = false ->
    dir' !! f = dir !! f.

Definition touches_own_files {A : Type} (project_name : string) (c : M A) : Prop :=
  forall w : World, same_outside project_name (files w) (files (snd (c w))).


(** The projects that [main] processes: all of them, or those that
    [--project] selects. *)
Definition selected_projects (args : Args.t) (projects : list Project.t)
    : list Project.t :=
  let wanted := get_default (Args.project args) EmptyString in
  if truthy wanted then List.filter (project_selected wanted) projects
  else projects.


(** The repository id that an entry of the configuration gives, if any. *)
Definition item_repo (item : ConfigItem.t) : option string :=
  match item with
  | ConfigItem.Str repo => Some repo
  | ConfigItem.Dict item => ConfigItem.repo item
  end.

(** Some character of the string satisfies [p]. *)
Fixpoint any_char (p : ascii -> bool) (s : string) : bool :=
  match s with
  | EmptyString => false
  | String c s' => p c || any_char p s'
  end.

(** The separators of the words of a project name. *)
Definition is_word_sep (c : ascii) : bool := Ascii.eqb c "-" || Ascii.eqb c "_".

(** The number of occurrences of a character in a string. *)
Fixpoint count_char (c : ascii) (s : string) : nat :=
  match s with
  | EmptyString => 0
  | String d s' => (if Ascii.eqb c d then 1 else 0) + count_char c s'
  end.

(** A release of the examples: one Linux archive under the given tag. *)
Definition linux_release (tag : string) : ReleaseData.t :=
  ReleaseData.mk tag false false
    [ AssetData.mk "tool-linux-amd64.tar.gz"
        ("https://github.com/acme/tool/releases/download/" +:+ tag
         +:+ "/tool-linux-amd64.tar.gz") ].

(** ** Platform names, stated on the characters of a name *)

(** [s] holds the word [os] and, later on the same line, the word [arch]. *)
Definition names_in_order (os arch s : string) : Prop :=
  exists pre mid post : string,
    s = pre +:+ os +:+ mid +:+ arch +:+ post /\
    PyStr.char_in (ascii_of_nat 10) mid = false.

(** [s] holds the word [word]. *)
Definition holds_word (word s : string) : Prop :=
  exists pre post : string, s = pre +:+ word +:+ post.

(** The words that name a platform: an operating system followed by an
    architecture, or one word that names both. *)
Module PlatformWords.
Record t : Type := mk {
  os_words : list string;
  arch_words : list string;
  single_words : list string
}.
End PlatformWords.

Definition macos_words : list string := ["darwin"; "macos"; "apple"; "osx"; "mac"].
Definition arm64_words : list string := ["arm64"; "aarch64"].
Definition x86_64_words : list string := ["x86_64"; "amd64"].

(** The four platform slots in the order of testing, with their words. *)
Definition platform_table : list (string * PlatformWords.t) :=
  [ ("macos_arm64", PlatformWords.mk macos_words arm64_words []);
    ("macos_x86_64", PlatformWords.mk macos_words x86_64_words ["darwin64"]);
    ("linux_arm64", PlatformWords.mk ["linux"] arm64_words []);
    ("linux_x86_64", PlatformWords.mk ["linux"] x86_64_words ["linux64"]) ].

(** The name [s] names the platform of [words]. *)
Definition names_platform (words : PlatformWords.t) (s : string) : Prop :=
  Exists (fun os =>
            Exists (fun arch => names_in_order os arch s)
              (PlatformWords.arch_words words))
    (PlatformWords.os_words words)
  \/ Exists (fun word => holds_word word s) (PlatformWords.single_words words).

(** The name [s] ends with one of the archive extensions. *)
Definition has_archive_extension (s : string) : Prop :=
  exists stem ext : string,
    ext ∈ [".tar.gz"; ".tgz"; ".zip"; ".tar.xz"; ".tar.bz2"] /\ s = stem +:+ ext.

(** The regular expressions that say the same as the words of a platform. *)
Definition patterns_of (words : PlatformWords.t) : list string :=
  (flat_map (fun os => map (fun arch => os +:+ ".*" +:+ arch)
                         (PlatformWords.arch_words words))
     (PlatformWords.os_words words)
   ++ PlatformWords.single_words words)%list.

(** Every word of the platform is free of the special characters of
    regular expressions. *)
Definition plain_words (words : PlatformWords.t) : Prop :=
  Forall (fun w => literal_pattern w = true) (PlatformWords.os_words words) /\
  Forall (fun w => literal_pattern w = true) (PlatformWords.arch_words words) /\
  Forall (fun w => literal_pattern w = true) (PlatformWords.single_words words).

(** ** Minors read as pairs of decimal numbers *)







(** ** Examples *)

Example extract_version_v123 : extract_version "v1.2.3" = "1.2.3".
Proof. reflexivity. Qed.

Example extract_major_minor_123 : extract_major_minor "1.2.3" = "1.2".
Proof. reflexivity. Qed.

Example replace_empty_old : PyStr.replace EmptyString "X" "abc" = "XaXbXcX".
Proof. reflexivity. Qed.

Example replace_overlap : PyStr.replace "aa" "b" "aaaaa" = "bba".
Proof. reflexivity. Qed.

Example detect_darwin_arm64 :
  detect_platform "tool-darwin-arm64.tar.gz" = Some "macos_arm64".
Proof. vm_compute. reflexivity. Qed.

Example detect_sig : detect_platform "tool-darwin-arm64.sig" = None.
Proof. vm_compute. reflexivity. Qed.

Example detect_upper :
  detect_platform "Tool_Linux_AMD64.TGZ" = Some "linux_x86_64".
Proof. vm_compute. reflexivity. Qed.

Example detect_windows : detect_platform "tool-windows-amd64.zip" = None.
Proof. vm_compute. reflexivity. Qed.

Example camel_case_my_tool : camel_case "my-cool_tool" = "MyCoolTool".
Proof. reflexivity. Qed.

Example int_12 : PyInt.int "12" = Ok 12.
Proof. reflexivity. Qed.

Example int_spaces_sign : PyInt.int " -1_000 " = Ok (-1000).
Proof. reflexivity. Qed.

Example int_beta : PyInt.int "2-beta" =
  Raise "invalid literal for int() with base 10: '2-beta'".
Proof. reflexivity. Qed.

Example int_empty : PyInt.int EmptyString =
  Raise "invalid literal for int() with base 10: ''".
Proof. reflexivity. Qed.

Example sorted_versions_example :
  sorted_versions ["1.9"; "2.10"; "2.9"; "10.0"] = Ok ["10.0"; "2.10"; "2.9"; "1.9"].
Proof. reflexivity. Qed.

Example pinned_minor_example : pinned_minor "tool" "tool@1.9.rb" = Some "1.9".
Proof. reflexivity. Qed.

Example pinned_minor_latest : pinned_minor "tool" "tool@latest.rb" = None.
Proof. reflexivity. Qed.

Example formula_macos_x86_only :
  generate_formula (example_project 0)
    (Release.mk "v1.2.3" "1.2.3" "1.2"
       [("macos_x86_64",
         Asset.mk "tool-darwin-amd64.tar.gz"
           "https://github.com/acme/tool/releases/download/v1.2.3/tool-darwin-amd64.tar.gz"
           "abc123")])
    false
  = unlines
      [ "class Tool < Formula";
        "  desc " +:+ quoted "A tool";
        "  homepage " +:+ quoted "https://github.com/acme/tool";
        "  license " +:+ quoted "MIT";
        "  version " +:+ quoted "1.2.3";
        EmptyString;
        "  on_macos do";
        "    url " +:+ quoted "https://github.com/acme/tool/releases/download/v#{version}/tool-darwin-amd64.tar.gz";
        "    sha256 " +:+ quoted "abc123";
        "  end";
        EmptyString;
        "  def install";
        "    bin.install " +:+ quoted "tool";
        "  end";
        EmptyString;
        "  test do";
        "    assert_match version.to_s, shell_output(" +:+ quoted "#{bin}/tool --version" +:+ ")";
        "  end";
        "end" ].
Proof. vm_compute. reflexivity. Qed.

Example formula_macos_both_versioned :
  generate_formula (example_project 1)
    (Release.mk "v1.2.3" "1.2.3" "1.2"
       [("macos_arm64",
         Asset.mk "tool-darwin-arm64.tar.gz" "https://example.org/v1.2.3/arm.tgz" "aaa");
        ("macos_x86_64",
         Asset.mk "tool-darwin-amd64.tar.gz" "https://example.org/v1.2.3/x86.tgz" "bbb")])
    true
  = unlines
      [ "class ToolAT12 < Formula";
        "  desc " +:+ quoted "A tool";
        "  homepage " +:+ quoted "https://github.com/acme/tool";
        "  license " +:+ quoted "MIT";
        "  version " +:+ quoted "1.2.3";
        EmptyString;
        "  on_macos do";
        "    if Hardware::CPU.arm?";
        "      url " +:+ quoted "https://example.org/v#{version}/arm.tgz";
        "      sha256 " +:+ quoted "aaa";
        "    else";
        "      url " +:+ quoted "https://example.org/v#{version}/x86.tgz";
        "      sha256 " +:+ quoted "bbb";
        "    end";
        "  end";
        EmptyString;
        "  def install";
        "    bin.install " +:+ quoted "tool";
        "  end";
        EmptyString;
        "  test do";
        "    assert_match version.to_s, shell_output(" +:+ quoted "#{bin}/tool --version" +:+ ")";
        "  end";
        "end" ].
Proof. vm_compute. reflexivity. Qed.

Example process_project_skips_newest :
  let '(ok, _, w) := process_project (example_github example_releases)
                       (example_project 1) false empty_world in
  ok = true /\
  map fst (map_to_list (files w)) = ["tool@2.0.rb"] /\
  stdout w =
    [ nl +:+ "Processing acme/tool...";
      "  Latest version: 2.1";
      "  Versions to generate: 2.1, 2.0";
      nl +:+ "  Processing v2.1.0...";
      "    WARNING: No compatible assets found, skipping";
      nl +:+ "  Processing v2.0.0...";
      "    Found assets for: linux_x86_64";
      "    Downloading tool-linux-amd64.tar.gz...";
      "    linux_x86_64: 0123456789abcdef...";
      "  Generated: tool@2.0.rb" ].
Proof. vm_compute. repeat split; reflexivity. Qed.

Example process_project_non_numeric_tag :
  let github := example_github [ReleaseData.mk "nightly" false false []] in
  let '(ok, _, w) := process_project github (example_project 0) false empty_world in
  ok = false /\
  stdout w =
    [ nl +:+ "Processing acme/tool...";
      "  ERROR: invalid literal for int() with base 10: 'nightly'" ].
Proof. vm_compute. split; reflexivity. Qed.

Example cleanup_example :
  let dir : gmap string string :=
    list_to_map [("tool.rb", "latest"); ("tool@2.1.rb", "a");
                 ("tool@2.0.rb", "b"); ("tool@1.9.rb", "c")] in
  cleanup_old_versions "tool" ["2.1"; "2.0"] false (mkWorld dir [])
  = (Ok ["tool@1.9.rb"],
     mkWorld (delete "tool@1.9.rb" dir) ["  Removed: tool@1.9.rb"]) /\
  cleanup_old_versions "tool" ["2.1"; "2.0"] true (mkWorld dir [])
  = (Ok ["tool@1.9.rb"], mkWorld dir ["  Would remove: tool@1.9.rb"]).
Proof. vm_compute. split; reflexivity. Qed.

(** ** Strings *)

#[local] Arguments Ascii.eqb : simpl never.
#[local] Arguments String.eqb : simpl never.

Lemma str_app_cons (c : ascii) (a b : string) : String c a +:+ b = String c (a +:+ b).
Proof. reflexivity. Qed.

Lemma str_app_nil_l (s : string) : EmptyString +:+ s = s.
Proof. reflexivity. Qed.

Lemma str_app_nil_r (s : string) : s +:+ EmptyString = s.
Proof.
  induction s as [|c s IH]; [reflexivity|].
  rewrite str_app_cons, IH. reflexivity.
Qed.

Lemma str_app_assoc (a b c : string) : (a +:+ b) +:+ c = a +:+ (b +:+ c).
Proof.
  induction a as [|x a IH]; [reflexivity|].
  rewrite !str_app_cons, IH. reflexivity.
Qed.



Lemma startswith_cons (a b : ascii) (p s : string) :
  PyStr.startswith (String a p) (String b s)
  = if Ascii.eqb a b then PyStr.startswith p s else false.
Proof. reflexivity. Qed.

Lemma startswith_nil (s : string) : PyStr.startswith EmptyString s = true.
Proof. destruct s; reflexivity. Qed.

(** ** Version extraction *)

Lemma extract_version_cons_v (tag : string) :
  extract_version (String "v" tag) = extract_version tag.
Proof. reflexivity. Qed.

Lemma extract_version_no_v (c : ascii) (tag : string) :
  Ascii.eqb c "v" = false -> extract_version (String c tag) = String c tag.
Proof.
  intros H. unfold extract_version. simpl. rewrite H. reflexivity.
Qed.

Lemma extract_version_length (tag : string) :
  (String.length (extract_version tag) <= String.length tag)%nat.
Proof.
  induction tag as [|a s IH]; [simpl; lia|].
  destruct (Ascii.eqb a "v") eqn:E.
  - apply Ascii.eqb_eq in E as ->. rewrite extract_version_cons_v. simpl. lia.
  - rewrite extract_version_no_v by assumption. lia.
Qed.

(** Extraction agrees with the removal of one [v] exactly on the tags that
    do not begin with two of them. *)
Lemma extract_version_remove_v_prefix (tag : string) :
  extract_version tag = remove_v_prefix tag <-> PyStr.startswith "vv" tag = false.
Proof.
  destruct tag as [|c tag]; [now split|].
  unfold remove_v_prefix. rewrite (startswith_cons "v" c).
  rewrite (Ascii.eqb_sym "v" c).
  destruct (Ascii.eqb c "v") eqn:Hc.
  - apply Ascii.eqb_eq in Hc as ->. rewrite extract_version_cons_v.
    destruct tag as [|d tag]; [now split|].
    rewrite (startswith_cons "v" d), (Ascii.eqb_sym "v" d).
    destruct (Ascii.eqb d "v") eqn:Hd.
    + apply Ascii.eqb_eq in Hd as ->.
      split; [|discriminate]. intros H. exfalso.
      rewrite extract_version_cons_v in H.
      pose proof (extract_version_length tag) as Hlen.
      rewrite H in Hlen. simpl in Hlen. lia.
    + split; [reflexivity|]. intros _. now apply extract_version_no_v.
  - split; [reflexivity|]. intros _. now apply extract_version_no_v.
Qed.

(** C4 (fails on the code): extraction of the version from a tag.  On the
    tag [vv1.0], which begins with the prefix letter, [extract_version]
    removes both leading letters and returns [1.0], where the removal of
    exactly the one leading letter gives [v1.0]. *)
Theorem C4_extract_version_strips_every_v :
  extract_version "vv1.0" = "1.0" /\
  remove_v_prefix "vv1.0" = "v1.0" /\
  extract_version "vv1.0" <> remove_v_prefix "vv1.0".
Proof. split; [reflexivity | split; [reflexivity | discriminate]]. Qed.

(** ** URL template *)

Example template_roundtrip_v_tag :
  let tag := "v1.2.3" in
  let url := "https://github.com/acme/tool/releases/download/v1.2.3/tool-1.2.3.zip" in
  let asset := Asset.mk "tool-1.2.3.zip" url EmptyString in
  let release := release_for_tag tag [("linux_x86_64", asset)] in
  render_url release asset
    = "https://github.com/acme/tool/releases/download/v#{version}/tool-1.2.3.zip"
  /\ interpolate_version (Release.version release) (render_url release asset) = url.
Proof. split; reflexivity. Qed.

(** C2 (fails on the code): round trip of the URL template.  For the tag
    [1.2.3], which has no [v], the asset URL contains the tag, the rendered
    URL carries [v#{version}] in its place, and its evaluation against the
    declared version [1.2.3] yields a URL with [v1.2.3], which is not the
    asset URL. *)
Theorem C2_template_roundtrip_fails_without_v :
  let tag := "1.2.3" in
  let url := "https://github.com/acme/tool/releases/download/1.2.3/tool-linux-amd64.tar.gz" in
  let asset := Asset.mk "tool-linux-amd64.tar.gz" url EmptyString in
  let release := release_for_tag tag [("linux_x86_64", asset)] in
  PyStr.contains (Release.tag release) (Asset.url asset) = true /\
  Release.version release = "1.2.3" /\
  render_url release asset
    = "https://github.com/acme/tool/releases/download/v#{version}/tool-linux-amd64.tar.gz" /\
  interpolate_version (Release.version release) (render_url release asset)
    = "https://github.com/acme/tool/releases/download/v1.2.3/tool-linux-amd64.tar.gz" /\
  interpolate_version (Release.version release) (render_url release asset)
    <> Asset.url asset.
Proof.
  cbv zeta.
  split; [reflexivity|]. split; [reflexivity|]. split; [reflexivity|].
  split; [reflexivity|]. vm_compute. discriminate.
Qed.

(** ** OS blocks of a formula *)

Lemma startswith_app (p q r : string) :
  PyStr.startswith (p +:+ q) (p +:+ r) = PyStr.startswith q r.
Proof.
  induction p as [|c p IH]; [reflexivity|].
  rewrite !str_app_cons, startswith_cons, Ascii.eqb_refl. apply IH.
Qed.

Lemma startswith_self_app (p s : string) : PyStr.startswith p (p +:+ s) = true.
Proof.
  rewrite <- (str_app_nil_r p) at 1. rewrite startswith_app. apply startswith_nil.
Qed.

Lemma os_block_shape (keyword : string) (release : Release.t)
    (arm x86 : option Asset.t) :
  block_follows_assets keyword (os_block keyword release arm x86) arm x86.
Proof.
  unfold block_follows_assets. cbv zeta.
  assert (Hb : forall a x, exists t, branch_block keyword release a x
     = ("  " +:+ keyword +:+ " do" +:+ nl) +:+ "    if Hardware::CPU.arm?" +:+ nl +:+ t).
  { intros a x. eexists. unfold branch_block. rewrite !str_app_assoc. reflexivity. }
  assert (Hs : forall a, exists t, single_block keyword release a
     = ("  " +:+ keyword +:+ " do" +:+ nl) +:+ "    url " +:+ t).
  { intros a. eexists. unfold single_block. rewrite !str_app_assoc. reflexivity. }
  assert (Hnil : forall p, PyStr.startswith (("  " +:+ keyword +:+ " do" +:+ nl) +:+ p) EmptyString = false).
  { intros p. reflexivity. }
  destruct arm as [a|], x86 as [x|]; simpl os_block.
  - destruct (Hb a x) as [t ->]. rewrite !startswith_app.
    split; [|split].
    + split; [eauto | reflexivity].
    + split; [discriminate | intros [[_ H]|[H _]]; discriminate].
    + split; [discriminate | intros [H _]; discriminate].
  - destruct (Hs a) as [t ->]. rewrite !startswith_app.
    split; [|split].
    + split; [discriminate | intros [_ [? H]]; discriminate].
    + split; [eauto | reflexivity].
    + split; [discriminate | intros [H _]; discriminate].
  - destruct (Hs x) as [t ->]. rewrite !startswith_app.
    split; [|split].
    + split; [discriminate | intros [[? H] _]; discriminate].
    + split; [eauto | reflexivity].
    + split; [discriminate | intros [_ H]; discriminate].
  - rewrite !Hnil. split; [|split].
    + split; [discriminate | intros [[? H] _]; discriminate].
    + split; [discriminate | intros [[[? H] _]|[_ [? H]]]; discriminate].
    + split; [auto | reflexivity].
Qed.

Lemma generate_formula_blocks (project : Project.t) (release : Release.t)
    (is_versioned : bool) :
  generate_formula project release is_versioned
  = formula_header project release is_versioned
    +:+ os_block "on_macos" release
          (PyDict.get "macos_arm64" (Release.assets release))
          (PyDict.get "macos_x86_64" (Release.assets release))
    +:+ os_block "on_linux" release
          (PyDict.get "linux_arm64" (Release.assets release))
          (PyDict.get "linux_x86_64" (Release.assets release))
    +:+ formula_footer project.
Proof.
  unfold generate_formula, formula_header, formula_class_name, formula_footer.
  destruct (PyDict.get "macos_arm64" (Release.assets release)),
           (PyDict.get "macos_x86_64" (Release.assets release)),
           (PyDict.get "linux_arm64" (Release.assets release)),
           (PyDict.get "linux_x86_64" (Release.assets release));
    unfold os_block, branch_block, single_block;
    rewrite ?str_app_assoc, ?str_app_nil_l; reflexivity.
Qed.

(** C8: structure of the OS blocks.  The rendered formula is its header,
    the macOS block, the Linux block and the install and test part; each of
    the two blocks is a runtime architecture branch exactly when both
    architecture assets of its operating system exist, a single
    unconditional url/sha256 pair exactly when exactly one exists, and
    empty exactly when neither exists. *)
Theorem C8_os_block_structure (project : Project.t) (release : Release.t)
    (is_versioned : bool) :
  let macos_arm := PyDict.get "macos_arm64" (Release.assets release) in
  let macos_x86 := PyDict.get "macos_x86_64" (Release.assets release) in
  let linux_arm := PyDict.get "linux_arm64" (Release.assets release) in
  let linux_x86 := PyDict.get "linux_x86_64" (Release.assets release) in
  exists macos_block linux_block : string,
    generate_formula project release is_versioned
    = formula_header project release is_versioned
      +:+ macos_block +:+ linux_block +:+ formula_footer project /\
    macos_block = os_block "on_macos" release macos_arm macos_x86 /\
    linux_block = os_block "on_linux" release linux_arm linux_x86 /\
    block_follows_assets "on_macos" macos_block macos_arm macos_x86 /\
    block_follows_assets "on_linux" linux_block linux_arm linux_x86.
Proof.
  cbv zeta. eexists _, _.
  split; [apply generate_formula_blocks|].
  split; [reflexivity|]. split; [reflexivity|].
  split; apply os_block_shape.
Qed.

(** ** Retention window *)

Lemma slice_to_nonneg {A : Type} (stop : Z) (l : list A) :
  0 <= stop -> slice_to stop l = firstn (Z.to_nat stop) l.
Proof.
  intros H. unfold slice_to.
  destruct (0 <=? stop) eqn:E; [reflexivity|]. apply Z.leb_gt in E. lia.
Qed.

(** C6: the retention window.  For a retention count [keep_versions >= 0]
    the versions to keep are the first [keep_versions + 1] entries of the
    sorted list, all of them when there are fewer; a count of 0 keeps
    exactly the first entry, and a count of 1 keeps 2.1 and 2.0 out of
    2.1, 2.0, 1.9, 1.8. *)
Theorem C6_retention_window (project : Project.t) (sorted : list string) :
  0 <= Project.keep_versions project ->
  let k := Z.to_nat (Project.keep_versions project) in
  versions_to_keep project sorted = firstn (k + 1) sorted /\
  length (versions_to_keep project sorted) = Nat.min (k + 1) (length sorted) /\
  ((length sorted <= k + 1)%nat -> versions_to_keep project sorted = sorted) /\
  (Project.keep_versions project = 0 ->
     forall v rest, sorted = v :: rest -> versions_to_keep project sorted = [v]) /\
  (Project.keep_versions project = 1 ->
     sorted = ["2.1"; "2.0"; "1.9"; "1.8"] ->
     versions_to_keep project sorted = ["2.1"; "2.0"]).
Proof.
  intros Hk k.
  assert (E : versions_to_keep project sorted = firstn (k + 1) sorted).
  { unfold versions_to_keep. rewrite slice_to_nonneg by lia.
    f_equal. unfold k. lia. }
  rewrite E. split; [reflexivity|]. split; [apply length_firstn|].
  split; [|split].
  - intros Hlen. now apply firstn_all2.
  - intros H0 v rest ->. unfold k. rewrite H0. reflexivity.
  - intros H1 ->. unfold k. rewrite H1. reflexivity.
Qed.

Lemma C6_retention_window_witness :
  let project := Project.mk "acme/tool" "tool" "A tool" (Some "MIT")
                   "https://github.com/acme/tool" "tool" 1 [] in
  versions_to_keep project ["2.1"; "2.0"; "1.9"; "1.8"] = ["2.1"; "2.0"].
Proof.
  intros project.
  apply (C6_retention_window project ["2.1"; "2.0"; "1.9"; "1.8"]);
    [simpl; lia | reflexivity | reflexivity].
Defined.

(** ** Built-in platform detection *)

Lemma first_platform_Some (groups : list (string * list string))
    (name_lower slot : string) :
  first_platform groups name_lower = Some slot <->
  exists (i : nat) (patterns : list string),
    groups !! i = Some (slot, patterns) /\
    group_matches patterns name_lower = true /\
    forall (j : nat) (earlier : string * list string),
      (j < i)%nat -> groups !! j = Some earlier ->
      group_matches (snd earlier) name_lower = false.
Proof.
  induction groups as [|[p pats] groups IH]; simpl.
  - split; [discriminate|]. intros (i & ? & H & _). destruct i; discriminate.
  - destruct (group_matches pats name_lower) eqn:E.
    + split.
      * intros [= <-]. exists 0%nat, pats. repeat split; auto. intros j ? Hj. lia.
      * intros (i & pats' & Hi & Hm & Hbefore).
        destruct i as [|i]; [simpl in Hi; congruence|].
        specialize (Hbefore 0%nat (p, pats) ltac:(lia) eq_refl). simpl in Hbefore.
        congruence.
    + rewrite IH. split.
      * intros (i & pats' & Hi & Hm & Hbefore). exists (S i), pats'.
        repeat split; auto. intros [|j] e Hj He.
        -- simpl in He. injection He as <-. exact E.
        -- simpl in He. eapply Hbefore; [|exact He]. lia.
      * intros (i & pats' & Hi & Hm & Hbefore).
        destruct i as [|i]; [simpl in Hi; congruence|].
        exists i, pats'. repeat split; auto.
        intros j e Hj He. apply (Hbefore (S j) e); [lia | exact He].
Qed.

Lemma first_platform_None (groups : list (string * list string))
    (name_lower : string) :
  first_platform groups name_lower = None <->
  forall slot patterns, (slot, patterns) ∈ groups ->
    group_matches patterns name_lower = false.
Proof.
  induction groups as [|[p pats] groups IH]; simpl.
  - split; [|intros; reflexivity]. intros _ ? ? H. inversion H.
  - destruct (group_matches pats name_lower) eqn:E.
    + split; [discriminate|]. intros H.
      assert (Hin : (p, pats) ∈ (p, pats) :: groups) by (apply elem_of_cons; now left).
      specialize (H p pats Hin). congruence.
    + rewrite IH. split.
      * intros H slot patterns Hin.
        apply elem_of_cons in Hin as [Heq|Hin]; [|now apply (H slot)].
        injection Heq as -> ->. exact E.
      * intros H slot patterns Hin. apply (H slot). apply elem_of_cons. now right.
Qed.

(** ** Dicts *)

Section DictFacts.
Context {V : Type}.
Implicit Types (d : list (string * V)) (k : string) (v : V).

Lemma dict_get_set k k' v d :
  PyDict.get k (PyDict.set k' v d)
  = if String.eqb k k' then Some v else PyDict.get k d.
Proof.
  induction d as [|[k0 v0] d IH]; simpl.
  - destruct (String.eqb k k'); reflexivity.
  - destruct (String.eqb_spec k' k0) as [->|Hne]; simpl.
    + destruct (String.eqb k k0); reflexivity.
    + rewrite IH. destruct (String.eqb_spec k k0) as [->|Hne'].
      * destruct (String.eqb_spec k0 k'); [congruence | reflexivity].
      * reflexivity.
Qed.

Lemma dict_get_elem_of k v d : PyDict.get k d = Some v -> (k, v) ∈ d.
Proof.
  induction d as [|[k0 v0] d IH]; simpl; [discriminate|].
  destruct (String.eqb_spec k k0) as [->|Hne].
  - intros [= ->]. apply elem_of_cons. now left.
  - intros H. apply elem_of_cons. right. now apply IH.
Qed.

Lemma dict_elem_of_set k v k' v' d :
  (k, v) ∈ PyDict.set k' v' d -> (k, v) = (k', v') \/ (k, v) ∈ d.
Proof.
  induction d as [|[k0 v0] d IH]; simpl.
  - intros H. apply list_elem_of_singleton in H. now left.
  - destruct (String.eqb k' k0).
    + intros H. apply elem_of_cons in H as [H|H]; [now left|].
      right. apply elem_of_cons. now right.
    + intros H. apply elem_of_cons in H as [H|H].
      * right. apply elem_of_cons. now left.
      * destruct (IH H) as [?|?]; [now left|]. right. apply elem_of_cons. now right.
Qed.

Lemma dict_keys_set k v d :
  PyDict.keys (PyDict.set k v d)
  = if PyDict.mem k d then PyDict.keys d else (PyDict.keys d ++ [k])%list.
Proof.
  unfold PyDict.mem, PyDict.keys.
  induction d as [|[k0 v0] d IH]; simpl; [reflexivity|].
  destruct (String.eqb_spec k k0) as [->|Hne]; simpl; [reflexivity|].
  rewrite IH. destruct (PyDict.get k d); reflexivity.
Qed.

Lemma dict_mem_keys k d : PyDict.mem k d = true <-> k ∈ PyDict.keys d.
Proof.
  unfold PyDict.mem, PyDict.keys.
  induction d as [|[k0 v0] d IH]; simpl.
  - split; [discriminate|]. intros H. inversion H.
  - destruct (String.eqb_spec k k0) as [->|Hne].
    + split; [|reflexivity]. intros _. apply elem_of_cons. now left.
    + rewrite IH. split.
      * intros H. apply elem_of_cons. now right.
      * intros H. apply elem_of_cons in H as [?|?]; [congruence | assumption].
Qed.

End DictFacts.

(** ** Asset classification *)

Lemma first_pattern_head (patterns : list (string * string)) (name : string) :
  first_pattern patterns name = head (custom_slots patterns name).
Proof.
  unfold custom_slots.
  induction patterns as [|[slot pattern] rest IH]; simpl; [reflexivity|].
  destruct (match_asset_pattern name pattern); [reflexivity | exact IH].
Qed.

Lemma first_platform_head (groups : list (string * list string)) (n : string) :
  first_platform groups n
  = head (map fst (List.filter (fun g => group_matches (snd g) n) groups)).
Proof.
  induction groups as [|[slot pats] rest IH]; simpl; [reflexivity|].
  destruct (group_matches pats n); [reflexivity | exact IH].
Qed.

Lemma classify_head (project : Project.t) (name : string) :
  classify project name = head (matched_slots project name).
Proof.
  unfold classify, matched_slots.
  destruct (Project.asset_patterns project) as [|p rest] eqn:E.
  - unfold detect_platform, builtin_slots. cbv zeta.
    destruct (is_archive (PyStr.lower name)); [|reflexivity].
    exact (first_platform_head PLATFORM_PATTERNS (PyStr.lower name)).
  - apply first_pattern_head.
Qed.

Lemma find_release_assets_invariant (project : Project.t)
    (entries : list AssetData.t) (acc : list (string * Asset.t))
    (slot : string) (asset : Asset.t) :
  (slot, asset) ∈ fold_left (add_asset project) entries acc ->
  (slot, asset) ∈ acc \/
  exists d, d ∈ entries /\ asset = asset_of d /\
            classify project (AssetData.name d) = Some slot.
Proof.
  revert acc. induction entries as [|d entries IH]; intros acc; simpl.
  - now left.
  - intros H. destruct (IH _ H) as [Hacc|(d' & Hd' & Ha & Hc)].
    + unfold add_asset in Hacc.
      destruct (classify project (AssetData.name d)) as [platform|] eqn:E.
      * apply dict_elem_of_set in Hacc as [[= -> ->]|Hacc]; [|now left].
        right. exists d. split; [apply elem_of_cons; now left|]. now split.
      * now left.
    + right. exists d'. split; [apply elem_of_cons; now right|]. now split.
Qed.

(** C3 (as amended): an asset appears in the mapping of a release under a
    slot only if it is an asset of the release whose name matched at least
    one slot, and the slot it is filed under is the first one its name
    matches in the order of testing, under built-in detection and under
    custom patterns alike; the name may match further slots. *)
Theorem C3_asset_filed_under_first_match (release_data : ReleaseData.t)
    (project : Project.t) (slot : string) (asset : Asset.t) :
  PyDict.get slot (find_release_assets release_data project) = Some asset ->
  (exists d, d ∈ ReleaseData.assets release_data /\ asset = asset_of d) /\
  classify project (Asset.name asset) = Some slot /\
  head (matched_slots project (Asset.name asset)) = Some slot /\
  (forall slot' : string,
     PyDict.get slot' (find_release_assets release_data project) = Some asset ->
     slot' = slot).
Proof.
  assert (Hkey : forall s a,
    PyDict.get s (find_release_assets release_data project) = Some a ->
    exists d, d ∈ ReleaseData.assets release_data /\ a = asset_of d /\
              classify project (Asset.name a) = Some s).
  { intros s a H. apply dict_get_elem_of in H.
    apply find_release_assets_invariant in H as [H|(d & Hd & -> & Hc)].
    - inversion H.
    - exists d. repeat split; assumption. }
  intros H. destruct (Hkey _ _ H) as (d & Hd & Ha & Hc).
  split; [eauto|]. split; [exact Hc|]. split.
  - now rewrite <- classify_head.
  - intros slot' H'. destruct (Hkey _ _ H') as (_ & _ & _ & Hc'). congruence.
Qed.

Lemma C3_asset_filed_under_first_match_witness :
  let asset := Asset.mk "linuxkit-darwin-arm64.tar.gz"
                 "https://github.com/acme/linuxkit/releases/download/v1.0.0/linuxkit-darwin-arm64.tar.gz"
                 EmptyString in
  let release_data := ReleaseData.mk "v1.0.0" false false
        [AssetData.mk (Asset.name asset) (Asset.url asset)] in
  let project := Project.mk "acme/linuxkit" "linuxkit" "A kit" (Some "MIT")
                   "https://github.com/acme/linuxkit" "linuxkit" 0 [] in
  head (matched_slots project (Asset.name asset)) = Some "macos_arm64".
Proof.
  intros asset release_data project.
  apply (C3_asset_filed_under_first_match release_data project "macos_arm64" asset).
  vm_compute. reflexivity.
Defined.

(** C3 (as stated, refuted): the asset [linuxkit-darwin-arm64.tar.gz] is in
    the mapping of its release, under macos_arm64, and its name matches two
    slots, macos_arm64 and linux_arm64. *)
Lemma C3_counterexample :
  let asset := Asset.mk "linuxkit-darwin-arm64.tar.gz"
                 "https://github.com/acme/linuxkit/releases/download/v1.0.0/linuxkit-darwin-arm64.tar.gz"
                 EmptyString in
  let release_data := ReleaseData.mk "v1.0.0" false false
        [AssetData.mk (Asset.name asset) (Asset.url asset)] in
  let project := Project.mk "acme/linuxkit" "linuxkit" "A kit" (Some "MIT")
                   "https://github.com/acme/linuxkit" "linuxkit" 0 [] in
  PyDict.get "macos_arm64" (find_release_assets release_data project) = Some asset /\
  matched_slots project (Asset.name asset) = ["macos_arm64"; "linux_arm64"] /\
  length (matched_slots project (Asset.name asset)) <> 1%nat.
Proof.
  cbv zeta. split; [vm_compute; reflexivity|].
  split; [vm_compute; reflexivity|]. vm_compute. discriminate.
Qed.

(** ** Grouping by minor *)

Lemma group_fold_get (releases_data : list ReleaseData.t)
    (acc : list (string * ReleaseData.t)) (mm : string) :
  PyDict.get mm (fold_left group_step releases_data acc)
  = match PyDict.get mm acc with
    | Some rd => Some rd
    | None => first_seen mm releases_data
    end.
Proof.
  revert acc. induction releases_data as [|rd rest IH]; intros acc; simpl.
  - destruct (PyDict.get mm acc); reflexivity.
  - rewrite IH. unfold group_step, is_published, minor_of.
    destruct (ReleaseData.prerelease rd || ReleaseData.draft rd); simpl.
    + reflexivity.
    + set (k := extract_major_minor (extract_version (ReleaseData.tag_name rd))).
      unfold PyDict.mem.
      destruct (PyDict.get k acc) as [old|] eqn:Hk; simpl.
      * destruct (String.eqb_spec k mm) as [->|Hne]; [|reflexivity].
        rewrite Hk. reflexivity.
      * rewrite dict_get_set. rewrite (String.eqb_sym mm k).
        destruct (String.eqb_spec k mm) as [->|Hne].
        -- rewrite Hk. reflexivity.
        -- reflexivity.
Qed.

Lemma group_fold_NoDup (releases_data : list ReleaseData.t)
    (acc : list (string * ReleaseData.t)) :
  NoDup (PyDict.keys acc) ->
  NoDup (PyDict.keys (fold_left group_step releases_data acc)).
Proof.
  revert acc. induction releases_data as [|rd rest IH]; intros acc Hacc; simpl.
  - exact Hacc.
  - apply IH. unfold group_step.
    destruct (ReleaseData.prerelease rd || ReleaseData.draft rd); [exact Hacc|].
    destruct (PyDict.mem _ acc) eqn:Hm; simpl; [exact Hacc|].
    rewrite dict_keys_set, Hm. apply NoDup_app. split; [exact Hacc|].
    split; [|apply NoDup_singleton].
    intros x Hx Hx'. apply list_elem_of_singleton in Hx' as ->.
    apply dict_mem_keys in Hx. congruence.
Qed.

(** ** Ordering of minors *)

Lemma key_leb_refl (a : list Z) : key_leb a a = true.
Proof.
  induction a as [|x a IH]; simpl; [reflexivity|].
  now rewrite Z.ltb_irrefl.
Qed.

Lemma key_leb_total (a b : list Z) : key_leb a b = false -> key_leb b a = true.
Proof.
  revert b. induction a as [|x a IH]; intros [|y b]; simpl; try discriminate; auto.
  destruct (Z.ltb_spec x y), (Z.ltb_spec y x); try discriminate; auto; lia.
Qed.

Lemma key_leb_trans (a b c : list Z) :
  key_leb a b = true -> key_leb b c = true -> key_leb a c = true.
Proof.
  revert b c. induction a as [|x a IH]; intros [|y b] [|z c]; simpl;
    try discriminate; auto.
  destruct (Z.ltb_spec x y), (Z.ltb_spec y x), (Z.ltb_spec y z), (Z.ltb_spec z y),
    (Z.ltb_spec x z), (Z.ltb_spec z x); try discriminate; auto; try lia.
  apply IH.
Qed.


Section SortDesc.
Context {A : Type}.
Implicit Types (e : list Z * A) (l : list (list Z * A)).

Lemma insert_desc_perm e l : Permutation (insert_desc e l) (e :: l).
Proof.
  induction l as [|e' l IH]; simpl; [reflexivity|].
  destruct (key_leb (fst e') (fst e)); [reflexivity|].
  rewrite IH. apply perm_swap.
Qed.

Lemma sort_desc_perm l : Permutation (sort_desc l) l.
Proof.
  induction l as [|e l IH]; simpl; [reflexivity|].
  rewrite insert_desc_perm. now apply perm_skip.
Qed.

Lemma insert_desc_sorted e l :
  StronglySorted (@not_after A) l -> StronglySorted (@not_after A) (insert_desc e l).
Proof.
  induction 1 as [|e' l Hl IH Hall]; simpl.
  - constructor; constructor.
  - destruct (key_leb (fst e') (fst e)) eqn:E.
    + constructor; [constructor; assumption|].
      constructor; [exact E|].
      eapply Forall_impl; [exact Hall|]. intros b Hb. unfold not_after in *.
      eapply key_leb_trans; eassumption.
    + constructor; [exact IH|].
      rewrite insert_desc_perm. constructor; [|exact Hall].
      unfold not_after. now apply key_leb_total.
Qed.

Lemma sort_desc_sorted l : StronglySorted (@not_after A) (sort_desc l).
Proof.
  induction l as [|e l IH]; simpl; [constructor|].
  now apply insert_desc_sorted.
Qed.

(** The sort is stable: the entries of one key keep their order. *)
Lemma insert_desc_with_key (k : list Z) e l :
  with_key k (insert_desc e l) = with_key k (e :: l).
Proof.
  unfold with_key. induction l as [|e' l IH]; [reflexivity|].
  cbn [insert_desc]. destruct (key_leb (fst e') (fst e)) eqn:E; [reflexivity|].
  cbn [List.filter] in *. rewrite IH.
  destruct (key_leb (fst e) k && key_leb k (fst e)) eqn:Ee;
    destruct (key_leb (fst e') k && key_leb k (fst e')) eqn:Ee'; try reflexivity.
  apply andb_true_iff in Ee as [_ He]. apply andb_true_iff in Ee' as [He' _].
  rewrite (key_leb_trans _ _ _ He' He) in E. discriminate.
Qed.

Lemma sort_desc_stable (k : list Z) l : with_key k (sort_desc l) = with_key k l.
Proof.
  induction l as [|e l IH]; [reflexivity|].
  cbn [sort_desc fold_right]. fold (sort_desc l).
  rewrite insert_desc_with_key. unfold with_key in *. cbn [List.filter].
  now rewrite IH.
Qed.

End SortDesc.

Lemma map_result_Ok {A B : Type} (f : A -> result B) (l : list A) (ys : list B) :
  map_result f l = Ok ys -> Forall2 (fun x y => f x = Ok y) l ys.
Proof.
  revert ys. induction l as [|x l IH]; intros ys; simpl.
  - intros [= <-]. constructor.
  - destruct (f x) as [y|] eqn:E; [|discriminate].
    destruct (map_result f l) as [ys'|]; [|discriminate].
    intros [= <-]. constructor; [exact E | now apply IH].
Qed.


Lemma sorted_versions_Ok (keys sorted : list string) :
  sorted_versions keys = Ok sorted ->
  exists decorated : list (list Z * string),
    Forall2 (fun v e => sort_key v = Ok (fst e) /\ snd e = v) keys decorated /\
    sorted = map snd (sort_desc decorated).
Proof.
  unfold sorted_versions.
  destruct (map_result _ keys) as [decorated|] eqn:E; [|discriminate].
  intros [= <-]. exists decorated. split; [|reflexivity].
  apply map_result_Ok in E. eapply Forall2_impl; [exact E|].
  intros v [k v'] H. simpl in H. destruct (sort_key v); [|discriminate].
  injection H as <- <-. now split.
Qed.

Lemma sorted_versions_perm (keys sorted : list string) :
  sorted_versions keys = Ok sorted -> Permutation sorted keys.
Proof.
  intros H. apply sorted_versions_Ok in H as (decorated & Hdec & ->).
  rewrite sort_desc_perm.
  assert (map snd decorated = keys) as ->; [|reflexivity].
  induction Hdec as [|v e keys decorated [_ He] _ IH]; simpl; congruence.
Qed.

Lemma sorted_versions_sorted (keys sorted : list string) :
  sorted_versions keys = Ok sorted -> StronglySorted at_least_as_new sorted.
Proof.
  intros H. apply sorted_versions_Ok in H as (decorated & Hdec & ->).
  assert (Hall : Forall (fun e => sort_key (snd e) = Ok (fst e)) (sort_desc decorated)).
  { rewrite sort_desc_perm.
    induction Hdec as [|v e keys decorated [Hk He] _ IH]; constructor; [|exact IH].
    now rewrite He. }
  pose proof (sort_desc_sorted decorated) as Hs.
  induction Hs as [|e l Hl IH Hfa]; simpl; [constructor|].
  apply Forall_cons in Hall as [He Hall].
  constructor; [now apply IH|].
  rewrite Forall_map. rewrite Forall_forall in Hfa, Hall |- *.
  intros b Hb. exists (fst e), (fst b).
  split; [exact He|]. split; [now apply Hall | now apply Hfa].
Qed.


(** ** Running computations *)

Lemma bind_Ok {A B : Type} (c : M A) (k : A -> M B) (w w1 : World) (a : A) :
  c w = (Ok a, w1) -> bind c k w = k a w1.
Proof. intros H. unfold bind. now rewrite H. Qed.

Lemma bind_Raise {A B : Type} (c : M A) (k : A -> M B) (w w1 : World) (msg : string) :
  c w = (Raise msg, w1) -> bind c k w = (Raise msg, w1).
Proof. intros H. unfold bind. now rewrite H. Qed.

Lemma bind_Ok_inv {A B : Type} (c : M A) (k : A -> M B) (w w' : World) (b : B) :
  bind c k w = (Ok b, w') ->
  exists a w1, c w = (Ok a, w1) /\ k a w1 = (Ok b, w').
Proof.
  unfold bind. destruct (c w) as [[a|msg] w1]; [eauto | discriminate].
Qed.

(** ** Pinned file names *)

Lemma glob_match_star (pattern name : string) :
  glob_match (String "*" pattern) name
  = glob_match pattern name ||
    match name with
    | EmptyString => false
    | String _ name' => glob_match (String "*" pattern) name'
    end.
Proof. destruct name; reflexivity. Qed.

Lemma glob_match_char (p c : ascii) (pattern name : string) :
  Ascii.eqb p "*" = false ->
  glob_match (String p pattern) (String c name)
  = Ascii.eqb p c && glob_match pattern name.
Proof. intros H. cbn [glob_match]. now rewrite H. Qed.

Lemma char_in_cons (c d : ascii) (s : string) :
  PyStr.char_in c (String d s) = Ascii.eqb c d || PyStr.char_in c s.
Proof. reflexivity. Qed.

Lemma glob_match_literal (lit rest name : string) :
  PyStr.char_in "*" lit = false ->
  glob_match (lit +:+ rest) (lit +:+ name) = glob_match rest name.
Proof.
  induction lit as [|c lit IH]; intros H; [reflexivity|].
  rewrite char_in_cons in H. apply orb_false_iff in H as [Hc Hlit].
  rewrite !str_app_cons, glob_match_char by now rewrite Ascii.eqb_sym.
  rewrite Ascii.eqb_refl. now apply IH.
Qed.

Lemma glob_match_literal_mismatch (lit rest name : string) (a b : ascii) :
  PyStr.char_in "*" lit = false -> Ascii.eqb a "*" = false -> Ascii.eqb a b = false ->
  glob_match (lit +:+ String a rest) (lit +:+ String b name) = false.
Proof.
  intros H Ha Hab. rewrite glob_match_literal by assumption.
  rewrite glob_match_char by assumption. now rewrite Hab.
Qed.

Lemma glob_match_star_suffix (suffix middle : string) :
  glob_match suffix suffix = true ->
  glob_match (String "*" suffix) (middle +:+ suffix) = true.
Proof.
  intros H. induction middle as [|c middle IH].
  - rewrite str_app_nil_l, glob_match_star, H. reflexivity.
  - rewrite str_app_cons, glob_match_star, IH. apply orb_true_r.
Qed.

Lemma plain_name_no_star (s : string) :
  plain_name s = true -> PyStr.char_in "*" s = false.
Proof.
  induction s as [|c s IH]; [reflexivity|].
  cbn [plain_name]. intros H. apply andb_true_iff in H as [Hc Hs].
  rewrite char_in_cons, (IH Hs), orb_false_r.
  destruct (Ascii.eqb_spec "*" c) as [<-|]; [discriminate | reflexivity].
Qed.

Lemma glob_match_pinned (project_name middle : string) :
  plain_name project_name = true ->
  glob_match (project_name +:+ "@*.rb") (project_name +:+ "@" +:+ middle +:+ ".rb") = true.
Proof.
  intros H. apply plain_name_no_star in H.
  rewrite glob_match_literal by assumption.
  change (glob_match (String "*" ".rb") (middle +:+ ".rb") = true).
  now apply glob_match_star_suffix.
Qed.

Lemma glob_match_canonical (project_name : string) :
  plain_name project_name = true ->
  glob_match (project_name +:+ "@*.rb") (project_name +:+ ".rb") = false.
Proof.
  intros H. apply plain_name_no_star in H.
  now apply glob_match_literal_mismatch.
Qed.

Lemma drop_prefix_app (p s : string) : drop_prefix p (p +:+ s) = Some s.
Proof.
  induction p as [|c p IH]; [reflexivity|].
  rewrite str_app_cons. simpl. now rewrite Ascii.eqb_refl.
Qed.

Lemma span_digits_app (d rest : string) (c : ascii) :
  all_digits d = true -> PyStr.is_digit c = false ->
  span_digits (d +:+ String c rest) = (d, String c rest).
Proof.
  intros Hd Hc. induction d as [|x d IH].
  - rewrite str_app_nil_l. simpl. now rewrite Hc.
  - simpl in Hd. apply andb_true_iff in Hd as [Hx Hd].
    rewrite str_app_cons. simpl. now rewrite Hx, (IH Hd).
Qed.

Lemma pinned_minor_pinned_file (project_name major minor : string) :
  is_number major = true -> is_number minor = true ->
  pinned_minor project_name (pinned_file project_name (major +:+ "." +:+ minor))
  = Some (major +:+ "." +:+ minor).
Proof.
  intros Hmaj Hmin.
  assert (Hhere : match_pinned_here project_name
                    (pinned_file project_name (major +:+ "." +:+ minor))
                  = Some (major +:+ "." +:+ minor)).
  { unfold match_pinned_here, pinned_file.
    rewrite <- (str_app_assoc project_name "@"), drop_prefix_app.
    rewrite !str_app_assoc.
    destruct major as [|a major]; [discriminate|].
    destruct minor as [|b minor]; [discriminate|].
    unfold is_number in Hmaj, Hmin.
    change ("." +:+ String b minor +:+ ".rb")
      with (String "." (String b minor +:+ ".rb")).
    rewrite span_digits_app by (assumption || reflexivity).
    change (drop_prefix "." (String "." (String b minor +:+ ".rb")))
      with (Some (String b minor +:+ ".rb")).
    cbv iota beta.
    change (String b minor +:+ ".rb")
      with (String b minor +:+ String "." "rb").
    rewrite span_digits_app by (assumption || reflexivity).
    reflexivity. }
  unfold pinned_file in *.
  destruct (project_name +:+ "@" +:+ (major +:+ "." +:+ minor) +:+ ".rb");
    simpl; now rewrite Hhere.
Qed.

Lemma all_digits_no_dot (s : string) :
  all_digits s = true -> PyStr.char_in "." s = false.
Proof.
  induction s as [|c s IH]; [reflexivity|]. cbn [all_digits].
  intros H. apply andb_true_iff in H as [Hc Hs].
  rewrite char_in_cons, IH by exact Hs. rewrite orb_false_r.
  destruct (Ascii.eqb_spec "." c) as [<-|]; [discriminate Hc | reflexivity].
Qed.

(** ** Cleanup of pinned formulas *)

Lemma unlink_all_lookup (names : list string) (dir : gmap string string) (f : string) :
  unlink_all names dir !! f = if bool_decide (f ∈ names) then None else dir !! f.
Proof.
  unfold unlink_all. revert dir.
  induction names as [|n names IH]; intros dir; simpl.
  - reflexivity.
  - rewrite IH. destruct (decide (f = n)) as [->|Hne].
    + rewrite lookup_delete_eq.
      rewrite (bool_decide_eq_true_2 (n ∈ n :: names)) by (apply elem_of_cons; now left).
      now destruct (bool_decide (n ∈ names)).
    + rewrite lookup_delete_ne by congruence.
      destruct (decide (f ∈ names)) as [Hin|Hnin].
      * rewrite !bool_decide_eq_true_2; auto. apply elem_of_cons. now right.
      * rewrite !bool_decide_eq_false_2; auto.
        intros H. apply elem_of_cons in H as [?|?]; contradiction.
Qed.

Lemma cleanup_step_keeps (project_name : string) (keep_versions : list string)
    (dry_run : bool) (removed : list string) (n : string) :
  names_stale_minor project_name keep_versions n = false ->
  cleanup_step project_name keep_versions dry_run removed n = ret removed.
Proof.
  unfold names_stale_minor, cleanup_step.
  destruct (pinned_minor project_name n); [|reflexivity].
  destruct (bool_decide _); [reflexivity | discriminate].
Qed.

Lemma cleanup_step_removes (project_name : string) (keep_versions : list string)
    (dry_run : bool) (removed : list string) (n : string) (w : World) :
  names_stale_minor project_name keep_versions n = true ->
  is_Some (files w !! n) ->
  cleanup_step project_name keep_versions dry_run removed n w
  = (Ok (removed ++ [n])%list,
     mkWorld (if dry_run then files w else delete n (files w))
             (stdout w ++ [removal_report dry_run n])).
Proof.
  unfold names_stale_minor, cleanup_step. intros Hs [content Hc].
  destruct (pinned_minor project_name n); [|discriminate].
  destruct (bool_decide _); [discriminate|].
  destruct dry_run.
  - reflexivity.
  - unfold bind, unlink. rewrite Hc. reflexivity.
Qed.

Lemma cleanup_loop (project_name : string) (keep_versions : list string)
    (dry_run : bool) (names removed : list string) (w : World) :
  NoDup names ->
  (forall n, n ∈ names -> is_Some (files w !! n)) ->
  let stale := List.filter (names_stale_minor project_name keep_versions) names in
  for_fold names removed (cleanup_step project_name keep_versions dry_run) w
  = (Ok (removed ++ stale)%list,
     mkWorld (if dry_run then files w else unlink_all stale (files w))
             (stdout w ++ map (removal_report dry_run) stale)).
Proof.
  intros Hnd. revert removed w.
  induction Hnd as [|n names Hn Hnd IH]; intros removed w Hex; cbv zeta.
  - simpl. unfold ret. rewrite !List.app_nil_r. destruct w, dry_run; reflexivity.
  - cbn [for_fold List.filter].
    destruct (names_stale_minor project_name keep_versions n) eqn:Hs.
    + erewrite bind_Ok; cycle 1.
      { apply cleanup_step_removes; [exact Hs|]. apply Hex, elem_of_cons. now left. }
      rewrite IH; cycle 1.
      { intros n' Hn'. cbn [files].
        assert (is_Some (files w !! n')) by (apply Hex, elem_of_cons; now right).
        destruct dry_run; [assumption|].
        rewrite lookup_delete_ne; [assumption|]. intros ->. contradiction. }
      cbn [files stdout map]. rewrite <- !List.app_assoc.
      destruct dry_run; reflexivity.
    + rewrite cleanup_step_keeps by exact Hs.
      erewrite bind_Ok by reflexivity. apply IH.
      intros n' Hn'. apply Hex, elem_of_cons. now right.
Qed.

Lemma cleanup_old_versions_run (project_name : string)
    (keep_versions : list string) (dry_run : bool) (w : World) :
  let existing :=
    filter (fun n => glob_match (project_name +:+ "@*.rb") n = true)
      (map fst (map_to_list (files w))) in
  let stale := List.filter (names_stale_minor project_name keep_versions) existing in
  cleanup_old_versions project_name keep_versions dry_run w
  = (Ok stale,
     mkWorld (if dry_run then files w else unlink_all stale (files w))
             (stdout w ++ map (removal_report dry_run) stale)).
Proof.
  cbv zeta. unfold cleanup_old_versions, find_existing_versioned_formulas.
  erewrite bind_Ok by (erewrite bind_Ok by reflexivity; reflexivity).
  apply (cleanup_loop project_name keep_versions dry_run _ []).
  - apply NoDup_filter, NoDup_fst_map_to_list.
  - intros n Hn. apply list_elem_of_filter in Hn as [_ Hn].
    apply list_elem_of_fmap in Hn as [[k v] [-> Hkv]].
    apply elem_of_map_to_list in Hkv. simpl. eauto.
Qed.

Lemma stale_elem_of (project_name : string) (keep_versions : list string)
    (dir : gmap string string) (f : string) :
  f ∈ List.filter (names_stale_minor project_name keep_versions)
        (filter (fun n => glob_match (project_name +:+ "@*.rb") n = true)
           (map fst (map_to_list dir)))
  <-> is_Some (dir !! f) /\ to_remove project_name keep_versions f = true.
Proof.
  rewrite list_elem_of_In, filter_In, <- list_elem_of_In, list_elem_of_filter.
  unfold to_remove. fold (names_stale_minor project_name keep_versions f).
  rewrite andb_true_iff.
  assert (f ∈ map fst (map_to_list dir) <-> is_Some (dir !! f)) as ->; [|tauto].
  split.
  - intros H. apply list_elem_of_fmap in H as [[k v] [-> Hkv]].
    apply elem_of_map_to_list in Hkv. simpl. eauto.
  - intros [v Hv]. apply list_elem_of_fmap. exists (f, v).
    split; [reflexivity|]. now apply elem_of_map_to_list.
Qed.

(** Cleanup and its dry run.  For every state of the formula directory,
    [cleanup_old_versions] returns without an exception; it removes exactly
    the files of the directory that match the glob of the pinned formulas
    of the project and name a minor that is not to be kept, and leaves every
    other file as it was; in a dry run the directory is unchanged; each
    removed (or would-be removed) file is reported by one line.  The pinned
    file of a minor [major.minor] is removed exactly when this minor is not
    kept, and the canonical file of the project never is. *)
Lemma cleanup_old_versions_spec (project_name : string)
    (keep_versions : list string) (dry_run : bool) (w : World) :
  plain_name project_name = true ->
  exists (removed : list string) (w' : World),
    cleanup_old_versions project_name keep_versions dry_run w = (Ok removed, w') /\
    NoDup removed /\
    (forall f, f ∈ removed <->
       is_Some (files w !! f) /\ to_remove project_name keep_versions f = true) /\
    (dry_run = false ->
       forall f, files w' !! f
                 = if to_remove project_name keep_versions f then None
                   else files w !! f) /\
    (dry_run = true -> files w' = files w) /\
    stdout w' = (stdout w ++ map (removal_report dry_run) removed)%list /\
    (forall major minor : string,
       is_number major = true -> is_number minor = true ->
       to_remove project_name keep_versions
         (pinned_file project_name (major +:+ "." +:+ minor))
       = negb (bool_decide (major +:+ "." +:+ minor ∈ keep_versions))) /\
    to_remove project_name keep_versions (project_name +:+ ".rb") = false.
Proof.
  intros Hplain. eexists _, _.
  split; [apply cleanup_old_versions_run|].
  split; [|split; [|split; [|split; [|split; [|split]]]]].
  - apply NoDup_ListNoDup, List.NoDup_filter, NoDup_ListNoDup.
    apply NoDup_filter, NoDup_fst_map_to_list.
  - apply stale_elem_of.
  - intros -> f. cbn [files]. rewrite unlink_all_lookup.
    destruct (to_remove project_name keep_versions f) eqn:Hr.
    + destruct (files w !! f) as [content|] eqn:Hf.
      * rewrite bool_decide_eq_true_2; [reflexivity|].
        apply stale_elem_of. rewrite Hf. eauto.
      * now destruct (bool_decide _).
    + rewrite bool_decide_eq_false_2; [reflexivity|].
      intros H. apply stale_elem_of in H as [_ H]. congruence.
  - intros ->. reflexivity.
  - reflexivity.
  - intros major minor Hmaj Hmin. unfold to_remove.
    rewrite pinned_minor_pinned_file by assumption.
    unfold pinned_file. now rewrite glob_match_pinned.
  - unfold to_remove. now rewrite glob_match_canonical.
Qed.

Example cleanup_old_versions_example :
  let dir : gmap string string :=
    list_to_map [("tool.rb", "latest"); ("tool@2.1.rb", "a");
                 ("tool@2.0.rb", "b"); ("tool@1.9.rb", "c")] in
  (exists removed w',
     cleanup_old_versions "tool" ["2.1"; "2.0"] false (mkWorld dir []) = (Ok removed, w') /\
     files w' !! "tool@1.9.rb" = None /\
     files w' !! "tool@2.0.rb" = Some "b" /\
     files w' !! "tool@2.1.rb" = Some "a" /\
     files w' !! "tool.rb" = Some "latest") /\
  (exists removed w',
     cleanup_old_versions "tool" ["2.1"; "2.0"] true (mkWorld dir []) = (Ok removed, w') /\
     files w' = dir /\
     stdout w' = map (removal_report true) removed /\
     forall f, f ∈ removed <-> f = "tool@1.9.rb").
Proof.
  intros dir. split.
  - destruct (cleanup_old_versions_spec "tool" ["2.1"; "2.0"] false (mkWorld dir []))
      as (removed & w' & Hrun & _ & _ & Hfiles & _); [reflexivity|].
    exists removed, w'. split; [exact Hrun|].
    rewrite !Hfiles by reflexivity. repeat split; vm_compute; reflexivity.
  - destruct (cleanup_old_versions_spec "tool" ["2.1"; "2.0"] true (mkWorld dir []))
      as (removed & w' & Hrun & _ & Hin & _ & Hfiles & Hout & _); [reflexivity|].
    exists removed, w'. split; [exact Hrun|].
    split; [now apply Hfiles|]. split; [exact Hout|].
    intros f. rewrite Hin. cbn [files]. split.
    + intros [[content Hf] Hr].
      change dir with (<["tool.rb" := "latest"]> (<["tool@2.1.rb" := "a"]>
                         (<["tool@2.0.rb" := "b"]> (<["tool@1.9.rb" := "c"]>
                            (∅ : gmap string string))))) in Hf.
      apply lookup_insert_Some in Hf as [[<- _]|[_ Hf]];
        [vm_compute in Hr; discriminate|].
      apply lookup_insert_Some in Hf as [[<- _]|[_ Hf]];
        [vm_compute in Hr; discriminate|].
      apply lookup_insert_Some in Hf as [[<- _]|[_ Hf]];
        [vm_compute in Hr; discriminate|].
      apply lookup_insert_Some in Hf as [[<- _]|[_ Hf]]; [reflexivity|].
      rewrite lookup_empty in Hf. discriminate.
    + intros ->. split; [|vm_compute; reflexivity].
      exists "c". vm_compute. reflexivity.
Qed.

(** ** Pinned files of a minor without a dot *)

Lemma count_char_app (c : ascii) (a b : string) :
  count_char c (a +:+ b) = (count_char c a + count_char c b)%nat.
Proof.
  induction a as [|d a IH]; [reflexivity|].
  rewrite str_app_cons. cbn [count_char]. rewrite IH. lia.
Qed.

Lemma count_char_none (c : ascii) (s : string) :
  PyStr.char_in c s = false -> count_char c s = 0%nat.
Proof.
  induction s as [|d s IH]; [reflexivity|].
  rewrite char_in_cons. intros H. apply orb_false_iff in H as [Hd Hs].
  cbn [count_char]. now rewrite Hd, IH.
Qed.

Lemma drop_prefix_Some (p s rest : string) :
  drop_prefix p s = Some rest -> s = p +:+ rest.
Proof.
  revert s. induction p as [|a p IH]; intros s H.
  - cbn in H. injection H as ->. reflexivity.
  - destruct s as [|b s]; [discriminate|]. cbn [drop_prefix] in H.
    destruct (Ascii.eqb_spec a b) as [->|]; [|discriminate].
    rewrite str_app_cons. f_equal. now apply IH.
Qed.

Lemma span_digits_spec (s d rest : string) :
  span_digits s = (d, rest) -> s = d +:+ rest /\ all_digits d = true.
Proof.
  revert d rest. induction s as [|c s IH]; intros d rest H; cbn [span_digits] in H.
  - injection H as <- <-. split; reflexivity.
  - destruct (PyStr.is_digit c) eqn:Hc.
    + destruct (span_digits s) as [d' rest'] eqn:Hs. injection H as <- <-.
      destruct (IH d' rest' eq_refl) as [-> Hd'].
      split; [reflexivity|]. cbn [all_digits]. now rewrite Hc.
    + injection H as <- <-. split; reflexivity.
Qed.

Lemma match_pinned_here_dots (project_name s v : string) :
  match_pinned_here project_name s = Some v ->
  count_char "." s = (count_char "." project_name + 2)%nat.
Proof.
  unfold match_pinned_here.
  destruct (drop_prefix (project_name +:+ "@") s) as [s1|] eqn:H1; [|discriminate].
  apply drop_prefix_Some in H1 as ->.
  destruct (span_digits s1) as [major s2] eqn:H2.
  apply span_digits_spec in H2 as [-> Hmajor].
  destruct major as [|m0 major]; [discriminate|].
  destruct (drop_prefix "." s2) as [s3|] eqn:H3; [|discriminate].
  apply drop_prefix_Some in H3 as ->.
  destruct (span_digits s3) as [minor s4] eqn:H4.
  apply span_digits_spec in H4 as [-> Hminor].
  destruct minor as [|m1 minor]; [discriminate|].
  destruct (drop_prefix ".rb" s4) as [s5|] eqn:H5; [|discriminate].
  apply drop_prefix_Some in H5 as ->.
  destruct (at_end s5) eqn:H6; [|discriminate]. intros _.
  assert (Hs5 : count_char "." s5 = 0%nat).
  { unfold at_end in H6. apply orb_true_iff in H6 as [H6|H6];
      apply String.eqb_eq in H6; subst; reflexivity. }
  rewrite !count_char_app, Hs5.
  rewrite (count_char_none "." (String m0 major)) by now apply all_digits_no_dot.
  rewrite (count_char_none "." (String m1 minor)) by now apply all_digits_no_dot.
  change (count_char "." "@") with 0%nat.
  change (count_char "." ".") with 1%nat.
  change (count_char "." ".rb") with 1%nat.
  lia.
Qed.

Lemma pinned_minor_dots (project_name filename v : string) :
  pinned_minor project_name filename = Some v ->
  (count_char "." project_name + 2 <= count_char "." filename)%nat.
Proof.
  induction filename as [|c filename IH]; cbn [pinned_minor].
  - destruct (match_pinned_here project_name EmptyString) eqn:H; [|discriminate].
    intros _. apply match_pinned_here_dots in H. lia.
  - destruct (match_pinned_here project_name (String c filename)) eqn:H.
    + intros _. apply match_pinned_here_dots in H. lia.
    + intros H'. apply IH in H'. cbn [count_char]. lia.
Qed.

Lemma pinned_minor_dotless (project_name major_minor : string) :
  PyStr.char_in "." major_minor = false ->
  pinned_minor project_name (pinned_file project_name major_minor) = None.
Proof.
  intros Hmm.
  destruct (pinned_minor _ _) as [v|] eqn:H; [|reflexivity].
  apply pinned_minor_dots in H. unfold pinned_file in H.
  rewrite !count_char_app, (count_char_none "." major_minor) in H by exact Hmm.
  change (count_char "." "@") with 0%nat in H.
  change (count_char "." ".rb") with 1%nat in H.
  lia.
Qed.

(** C9 (fails on the code): the pinned file of a minor without a dot.
    [process_project] writes the pinned file [name@minor.rb] for every
    generated minor, and the minor of a version without a dot (tag [v1]) is
    the version itself; [cleanup_old_versions] recognises only names of the
    form [name@digits.digits.rb], so it never removes and never reports
    such a file, whatever the minors to keep are: the file stays in the
    directory although its minor is not retained. *)
Theorem C9_dotless_minor_never_cleaned (project_name major_minor : string)
    (keep_versions : list string) (dry_run : bool) (w : World) :
  PyStr.char_in "." major_minor = false ->
  let f := pinned_file project_name major_minor in
  exists (removed : list string) (w' : World),
    cleanup_old_versions project_name keep_versions dry_run w = (Ok removed, w') /\
    (f ∉ removed) /\
    files w' !! f = files w !! f.
Proof.
  intros Hmm f. eexists _, _.
  split; [apply cleanup_old_versions_run|].
  assert (Hnot : f ∉ List.filter (names_stale_minor project_name keep_versions)
                       (filter (fun n => glob_match (project_name +:+ "@*.rb") n = true)
                          (map fst (map_to_list (files w))))).
  { intros H. apply stale_elem_of in H as [_ H]. unfold to_remove, f in H.
    rewrite pinned_minor_dotless in H by exact Hmm.
    now rewrite andb_false_r in H. }
  split; [exact Hnot|]. cbn [files].
  destruct dry_run; [reflexivity|].
  rewrite unlink_all_lookup. now rewrite bool_decide_eq_false_2.
Qed.

Lemma C9_dotless_minor_never_cleaned_witness :
  let project := example_project 1 in
  let first := process_project
                 (example_github [linux_release "v2"; linux_release "v1"])
                 project false empty_world in
  let second := process_project
                  (example_github [linux_release "v3"; linux_release "v2";
                                   linux_release "v1"])
                  project false (snd first) in
  (fst (fst first) = true /\ is_Some (files (snd first) !! "tool@1.rb")) /\
  (fst (fst second) = true /\
   is_Some (files (snd second) !! "tool@3.rb") /\
   is_Some (files (snd second) !! "tool@2.rb") /\
   is_Some (files (snd second) !! "tool@1.rb")) /\
  exists removed w',
    cleanup_old_versions "tool" ["3"; "2"] false (snd first) = (Ok removed, w') /\
    ("tool@1.rb" ∉ removed) /\
    is_Some (files w' !! "tool@1.rb").
Proof.
  intros project first second. split; [|split].
  - split; [vm_compute; reflexivity|]. vm_compute. eexists. reflexivity.
  - split; [vm_compute; reflexivity|].
    split; [|split]; vm_compute; eexists; reflexivity.
  - destruct (C9_dotless_minor_never_cleaned "tool" "1" ["3"; "2"] false (snd first)
                eq_refl) as (removed & w' & Hrun & Hnot & Hfile).
    exists removed, w'. split; [exact Hrun|]. split; [exact Hnot|].
    unfold pinned_file in Hfile.
    change ("tool" +:+ "@" +:+ "1" +:+ ".rb") with "tool@1.rb" in Hfile.
    rewrite Hfile. vm_compute. eexists. reflexivity.
Defined.

(** ** What a computation does to the directory *)

Lemma keeps_ret {A : Type} (a : A) : keeps_files (ret a).
Proof. intros w. reflexivity. Qed.

Lemma keeps_lift {A : Type} (r : result A) : keeps_files (lift r).
Proof. intros w. reflexivity. Qed.

Lemma keeps_print (s : string) : keeps_files (print s).
Proof. intros w. reflexivity. Qed.

Lemma keeps_bind {A B : Type} (c : M A) (k : A -> M B) :
  keeps_files c -> (forall a, keeps_files (k a)) -> keeps_files (bind c k).
Proof.
  intros Hc Hk w. unfold bind. specialize (Hc w).
  destruct (c w) as [[a|msg] w1]; simpl in *.
  - now rewrite Hk.
  - exact Hc.
Qed.

Lemma keeps_for_each {A : Type} (l : list A) (body : A -> M unit) :
  (forall x, keeps_files (body x)) -> keeps_files (for_each l body).
Proof.
  intros H. induction l as [|x l IH]; simpl.
  - apply keeps_ret.
  - apply keeps_bind; auto.
Qed.

Lemma keeps_for_fold {A S : Type} (l : list A) (acc : S) (body : S -> A -> M S) :
  (forall s x, keeps_files (body s x)) -> keeps_files (for_fold l acc body).
Proof.
  intros H. revert acc. induction l as [|x l IH]; intros acc; simpl.
  - apply keeps_ret.
  - apply keeps_bind; auto.
Qed.

Create HintDb frame.
#[local] Hint Resolve keeps_ret keeps_lift keeps_print : frame.
#[local] Hint Extern 2 (keeps_files (bind _ _)) =>
  apply keeps_bind; [|intros ?] : frame.

Lemma keeps_compute_sha256 (github : GitHubAPI.t) (url : string) :
  keeps_files (compute_sha256 github url).
Proof. unfold compute_sha256. auto with frame. Qed.

Lemma keeps_checksum_assets (github : GitHubAPI.t) (assets : list (string * Asset.t)) :
  keeps_files (checksum_assets github assets).
Proof.
  induction assets as [|[platform asset] rest IH]; simpl.
  - apply keeps_ret.
  - apply keeps_bind; [apply keeps_compute_sha256|]. intros sha256.
    apply keeps_bind; [apply keeps_print|]. intros _.
    apply keeps_bind; [exact IH|]. intros rest'. apply keeps_ret.
Qed.

Lemma keeps_process_version (github : GitHubAPI.t) (project : Project.t)
    (releases_by_minor : list (string * ReleaseData.t))
    (generated : list (string * Release.t)) (major_minor : string) :
  keeps_files (process_version github project releases_by_minor generated major_minor).
Proof.
  unfold process_version.
  destruct (PyDict.get major_minor releases_by_minor); [|apply keeps_lift].
  apply keeps_bind; [apply keeps_print|]. intros _.
  destruct (find_release_assets _ project).
  - auto with frame.
  - apply keeps_bind; [apply keeps_print|]. intros _.
    apply keeps_bind; [apply keeps_checksum_assets|]. intros ?. apply keeps_ret.
Qed.

Lemma keeps_write_formulas_dry_run (project : Project.t) (latest_version : string)
    (item : string * Release.t) :
  keeps_files (write_formulas project latest_version true item).
Proof.
  unfold write_formulas. destruct item as [major_minor release].
  apply keeps_bind.
  - destruct (String.eqb _ _); auto with frame.
  - intros _. destruct (0 <? _); auto with frame.
Qed.

Lemma keeps_cleanup_dry_run (project_name : string) (keep_versions : list string) :
  keeps_files (cleanup_old_versions project_name keep_versions true).
Proof. intros w. now rewrite cleanup_old_versions_run. Qed.

Lemma keeps_process_releases_dry_run (github : GitHubAPI.t) (project : Project.t) :
  keeps_files (process_releases github project true).
Proof.
  unfold process_releases.
  apply keeps_bind; [apply keeps_lift|]. intros releases_data.
  destruct releases_data; [auto with frame|].
  destruct (group_releases _); [auto with frame|].
  apply keeps_bind; [apply keeps_lift|]. intros sorted.
  apply keeps_bind; [apply keeps_print|]. intros _.
  apply keeps_bind; [apply keeps_print|]. intros _.
  apply keeps_bind; [apply keeps_for_fold; intros; apply keeps_process_version|].
  intros generated. destruct generated as [|g generated]; [auto with frame|].
  apply keeps_bind.
  { apply keeps_for_each. intros. apply keeps_write_formulas_dry_run. }
  intros _. apply keeps_bind; [|intros; apply keeps_ret].
  destruct (0 <? _); [|apply keeps_ret].
  apply keeps_bind; [apply keeps_cleanup_dry_run | intros; apply keeps_ret].
Qed.

Lemma process_project_dry_run_files (github : GitHubAPI.t) (project : Project.t)
    (w : World) :
  files (snd (process_project github project true w)) = files w.
Proof.
  unfold process_project. cbn [print].
  destruct (fill_repo_info github project) as [project'|msg]; [|reflexivity].
  match goal with
  | |- context [process_releases ?g ?p true ?w0] =>
      pose proof (keeps_process_releases_dry_run g p w0) as H;
      destruct (process_releases g p true w0) as [[b|msg] w1]
  end; simpl in *; exact H.
Qed.

(** ** Files that are renderings *)

Lemma rendered_from_refl (project : Project.t) (dir : gmap string string) :
  rendered_from project dir dir.
Proof. intros f. now left. Qed.

Lemma rendered_from_trans (project : Project.t) (d1 d2 d3 : gmap string string) :
  rendered_from project d1 d2 -> rendered_from project d2 d3 ->
  rendered_from project d1 d3.
Proof.
  intros H12 H23 f. destruct (H23 f) as [H|[H|H]].
  - rewrite H. apply H12.
  - right. now left.
  - right. now right.
Qed.

Lemma renders_keeps {A : Type} (project : Project.t) (c : M A) :
  keeps_files c -> renders_only project c.
Proof. intros H w. rewrite H. apply rendered_from_refl. Qed.

Lemma renders_bind {A B : Type} (project : Project.t) (c : M A) (k : A -> M B) :
  renders_only project c -> (forall a, renders_only project (k a)) ->
  renders_only project (bind c k).
Proof.
  intros Hc Hk w. unfold bind. specialize (Hc w).
  destruct (c w) as [[a|msg] w1]; simpl in *.
  - eapply rendered_from_trans; [exact Hc | apply Hk].
  - exact Hc.
Qed.

Lemma renders_for_each {A : Type} (project : Project.t) (l : list A)
    (body : A -> M unit) :
  (forall x, renders_only project (body x)) -> renders_only project (for_each l body).
Proof.
  intros H. induction l as [|x l IH]; simpl.
  - apply renders_keeps, keeps_ret.
  - apply renders_bind; auto.
Qed.

Lemma renders_write_file (project : Project.t) (path : string)
    (release : Release.t) (is_versioned : bool) :
  renders_only project (write_file path (generate_formula project release is_versioned)).
Proof.
  intros w f. cbn [write_file snd files].
  destruct (decide (path = f)) as [->|Hne].
  - right. right. exists release, is_versioned. apply lookup_insert_eq.
  - left. now apply lookup_insert_ne.
Qed.

Lemma renders_write_formulas (project : Project.t) (latest_version : string)
    (dry_run : bool) (item : string * Release.t) :
  renders_only project (write_formulas project latest_version dry_run item).
Proof.
  destruct dry_run; [apply renders_keeps, keeps_write_formulas_dry_run|].
  unfold write_formulas. destruct item as [major_minor release].
  apply renders_bind.
  - destruct (String.eqb _ _); [|apply renders_keeps, keeps_ret].
    apply renders_bind; [apply renders_write_file|].
    intros _. apply renders_keeps, keeps_print.
  - intros _. destruct (0 <? _); [|apply renders_keeps, keeps_ret].
    apply renders_bind; [apply renders_write_file|].
    intros _. apply renders_keeps, keeps_print.
Qed.

Lemma renders_cleanup (project : Project.t) (project_name : string)
    (keep_versions : list string) (dry_run : bool) :
  renders_only project (cleanup_old_versions project_name keep_versions dry_run).
Proof.
  intros w f. rewrite cleanup_old_versions_run. cbn [snd files].
  destruct dry_run; [now left|].
  rewrite unlink_all_lookup. destruct (bool_decide _); [right|]; now left.
Qed.

Lemma renders_process_releases (github : GitHubAPI.t) (project : Project.t)
    (dry_run : bool) :
  renders_only project (process_releases github project dry_run).
Proof.
  unfold process_releases.
  apply renders_bind; [apply renders_keeps, keeps_lift|]. intros releases_data.
  destruct releases_data; [apply renders_keeps; auto with frame|].
  destruct (group_releases _); [apply renders_keeps; auto with frame|].
  apply renders_bind; [apply renders_keeps, keeps_lift|]. intros sorted.
  apply renders_bind; [apply renders_keeps, keeps_print|]. intros _.
  apply renders_bind; [apply renders_keeps, keeps_print|]. intros _.
  apply renders_bind.
  { apply renders_keeps, keeps_for_fold. intros. apply keeps_process_version. }
  intros generated.
  destruct generated as [|g generated]; [apply renders_keeps; auto with frame|].
  apply renders_bind.
  { apply renders_for_each. intros. apply renders_write_formulas. }
  intros _. apply renders_bind; [|intros; apply renders_keeps, keeps_ret].
  destruct (0 <? _); [|apply renders_keeps, keeps_ret].
  apply renders_bind; [apply renders_cleanup|].
  intros; apply renders_keeps, keeps_ret.
Qed.

(** ** Repository metadata *)

Lemma process_project_renders (github : GitHubAPI.t) (project project' : Project.t)
    (dry_run : bool) (w : World) :
  fill_repo_info github project = Ok project' ->
  snd (fst (process_project github project dry_run w)) = project' /\
  rendered_from project' (files w) (files (snd (process_project github project dry_run w))).
Proof.
  intros Hfill. unfold process_project. cbn [print]. rewrite Hfill.
  match goal with
  | |- context [process_releases ?g ?p ?d ?w0] =>
      pose proof (renders_process_releases g p d w0) as H;
      destruct (process_releases g p d w0) as [[b|msg] w1]
  end; simpl in *; split; auto.
Qed.

Lemma generate_formula_license (project : Project.t) (release : Release.t)
    (is_versioned : bool) :
  exists after : string,
    generate_formula project release is_versioned
    = ("class " +:+ formula_class_name project release is_versioned
       +:+ " < Formula" +:+ nl
       +:+ "  desc " +:+ quoted (Project.description project) +:+ nl
       +:+ "  homepage " +:+ quoted (Project.homepage project) +:+ nl)
      +:+ license_line (py_str (Project.license project)) +:+ after.
Proof.
  eexists. rewrite generate_formula_blocks. unfold formula_header, license_line.
  rewrite !str_app_assoc. reflexivity.
Qed.

(** C10: the default license.  When the configuration gives no license and
    the repository object has no license key, a null license or an empty
    license object, the license of the project becomes [MIT]; this is the
    project that [process_project] goes on with, every formula rendered for
    it carries the line [license "MIT"], and every file that
    [process_project] writes is such a rendering. *)
Theorem C10_default_license (github : GitHubAPI.t) (project : Project.t)
    (repo_info : RepoInfo.t) :
  truthy_opt (Project.license project) = false ->
  GitHubAPI.get_repo github (Project.repo project) = Ok repo_info ->
  RepoInfo.license repo_info = Absent \/ RepoInfo.license repo_info = Null \/
    RepoInfo.license repo_info = Present [] ->
  exists project' : Project.t,
    fill_repo_info github project = Ok project' /\
    Project.license project' = Some "MIT" /\
    (forall (release : Release.t) (is_versioned : bool),
       exists after : string,
         generate_formula project' release is_versioned
         = ("class " +:+ formula_class_name project' release is_versioned
            +:+ " < Formula" +:+ nl
            +:+ "  desc " +:+ quoted (Project.description project') +:+ nl
            +:+ "  homepage " +:+ quoted (Project.homepage project') +:+ nl)
           +:+ license_line "MIT" +:+ after) /\
    (forall (dry_run : bool) (w : World),
       snd (fst (process_project github project dry_run w)) = project' /\
       rendered_from project' (files w)
         (files (snd (process_project github project dry_run w)))).
Proof.
  intros Hlicense Hrepo Hinfo.
  assert (Hmit : license_of repo_info = Some "MIT").
  { unfold license_of. destruct Hinfo as [->|[->| ->]]; reflexivity. }
  eexists. split; [|split; [|split]].
  - unfold fill_repo_info. rewrite Hlicense, Hrepo.
    rewrite orb_true_r. cbn [negb]. rewrite Hmit. reflexivity.
  - reflexivity.
  - intros release is_versioned.
    destruct (generate_formula_license
                (Project.mk (Project.repo project) (Project.name project)
                   (if negb (truthy (Project.description project))
                    then description_of repo_info project
                    else Project.description project)
                   (Some "MIT") (Project.homepage project)
                   (Project.binary_name project) (Project.keep_versions project)
                   (Project.asset_patterns project)) release is_versioned)
      as [after H].
    exists after. exact H.
  - intros dry_run w. apply process_project_renders.
    unfold fill_repo_info. rewrite Hlicense, Hrepo.
    rewrite orb_true_r. cbn [negb]. rewrite Hmit. reflexivity.
Qed.

Lemma C10_default_license_witness :
  let github := GitHubAPI.mk
        (fun _ => Ok (RepoInfo.mk (Present "A tool") Null))
        (fun _ _ => Ok [ReleaseData.mk "v1.2.3" false false
                          [AssetData.mk "tool-linux-amd64.tar.gz"
                             "https://github.com/acme/tool/releases/download/v1.2.3/tool-linux-amd64.tar.gz"]])
        (fun _ => Ok "0123456789abcdef0123") in
  let project := Project.mk "acme/tool" "tool" EmptyString (Some EmptyString)
                   "https://github.com/acme/tool" "tool" 0 [] in
  exists project' : Project.t,
    fill_repo_info github project = Ok project' /\
    Project.license project' = Some "MIT" /\
    snd (fst (process_project github project false (mkWorld ∅ []))) = project'.
Proof.
  intros github project.
  destruct (C10_default_license github project (RepoInfo.mk (Present "A tool") Null))
    as (project' & Hfill & Hlic & _ & Hrun);
    [reflexivity | reflexivity | right; left; reflexivity |].
  exists project'. split; [exact Hfill|]. split; [exact Hlic|].
  apply Hrun.
Defined.

(** ** The releases that are generated *)

Lemma checksum_assets_Ok (github : GitHubAPI.t) (assets assets' : list (string * Asset.t))
    (w w' : World) :
  checksum_assets github assets w = (Ok assets', w') ->
  with_checksums github assets = Ok assets'.
Proof.
  revert assets' w w'. induction assets as [|[platform asset] rest IH];
    intros assets' w w' H; simpl in *.
  - unfold ret in H. congruence.
  - apply bind_Ok_inv in H as (sha256 & w1 & H1 & H).
    unfold compute_sha256 in H1. apply bind_Ok_inv in H1 as (? & w0 & _ & H1).
    unfold lift in H1. injection H1 as H1 _. rewrite H1.
    apply bind_Ok_inv in H as (? & w2 & _ & H).
    apply bind_Ok_inv in H as (rest' & w3 & H3 & H).
    rewrite (IH _ _ _ H3). unfold ret in H. congruence.
Qed.

Lemma process_version_Ok (github : GitHubAPI.t) (project : Project.t)
    (releases_by_minor : list (string * ReleaseData.t))
    (generated generated' : list (string * Release.t)) (major_minor : string)
    (w w' : World) :
  process_version github project releases_by_minor generated major_minor w
    = (Ok generated', w') ->
  generated' = add_release github project releases_by_minor generated major_minor.
Proof.
  unfold process_version, add_release, release_of.
  destruct (PyDict.get major_minor releases_by_minor) as [release_data|];
    [|discriminate].
  intros H. apply bind_Ok_inv in H as (? & w1 & _ & H).
  destruct (find_release_assets release_data project) as [|a assets].
  - apply bind_Ok_inv in H as (? & w2 & _ & H). unfold ret in H. congruence.
  - apply bind_Ok_inv in H as (? & w2 & _ & H).
    apply bind_Ok_inv in H as (assets' & w3 & H3 & H).
    apply checksum_assets_Ok in H3. rewrite H3. unfold ret in H. congruence.
Qed.

Lemma for_fold_Ok {A S : Type} (body : S -> A -> M S) (f : S -> A -> S)
    (l : list A) (acc r : S) (w w' : World) :
  (forall s x w1 s' w2, body s x w1 = (Ok s', w2) -> s' = f s x) ->
  for_fold l acc body w = (Ok r, w') -> r = fold_left f l acc.
Proof.
  intros Hbody. revert acc w. induction l as [|x l IH]; intros acc w H; simpl in *.
  - unfold ret in H. congruence.
  - apply bind_Ok_inv in H as (acc' & w1 & H1 & H).
    apply Hbody in H1 as ->. now apply IH in H.
Qed.

Section Generated.
Context (github : GitHubAPI.t) (project : Project.t)
        (releases_by_minor : list (string * ReleaseData.t)).

Lemma generated_elem_of (l : list string) (acc : list (string * Release.t))
    (mm : string) (r : Release.t) :
  (mm, r) ∈ fold_left (add_release github project releases_by_minor) l acc ->
  (mm, r) ∈ acc \/ release_of github project releases_by_minor mm = Some r.
Proof.
  revert acc. induction l as [|x l IH]; intros acc H; simpl in *; [now left|].
  apply IH in H as [H|H]; [|now right].
  unfold add_release in H.
  destruct (release_of github project releases_by_minor x) as [rx|] eqn:E;
    [|now left].
  apply dict_elem_of_set in H as [[= -> ->]|H]; [now right | now left].
Qed.

Lemma generated_get_kept (l : list string) (acc : list (string * Release.t))
    (mm : string) (r : Release.t) :
  release_of github project releases_by_minor mm = Some r ->
  PyDict.get mm acc = Some r ->
  PyDict.get mm (fold_left (add_release github project releases_by_minor) l acc)
  = Some r.
Proof.
  intros Hrel. revert acc. induction l as [|x l IH]; intros acc H; simpl; [exact H|].
  apply IH. unfold add_release.
  destruct (release_of github project releases_by_minor x) as [rx|] eqn:E;
    [|exact H].
  rewrite dict_get_set. destruct (String.eqb_spec mm x) as [->|]; [congruence | exact H].
Qed.

Lemma generated_get (l : list string) (acc : list (string * Release.t))
    (mm : string) (r : Release.t) :
  mm ∈ l -> release_of github project releases_by_minor mm = Some r ->
  PyDict.get mm (fold_left (add_release github project releases_by_minor) l acc)
  = Some r.
Proof.
  intros Hin Hrel. revert acc.
  induction l as [|x l IH]; intros acc; [inversion Hin|].
  simpl. destruct (decide (mm = x)) as [->|Hne].
  - apply generated_get_kept; [exact Hrel|].
    unfold add_release. rewrite Hrel.
    now rewrite dict_get_set, String.eqb_refl.
  - apply IH. apply elem_of_cons in Hin as [?|?]; [contradiction | assumption].
Qed.

End Generated.

(** ** Writing the formulas *)

Lemma write_formulas_run (project : Project.t) (latest_version : string)
    (item : string * Release.t) (w : World) :
  exists w' : World,
    write_formulas project latest_version false item w = (Ok tt, w') /\
    files w' = write_step project latest_version (files w) item.
Proof.
  unfold write_formulas, write_step. destruct item as [major_minor release].
  unfold bind, write_file, print, ret, canonical_file, pinned_file.
  destruct (String.eqb major_minor latest_version), (0 <? Project.keep_versions project);
    cbn [files]; eexists; split; reflexivity.
Qed.

Lemma write_loop_run (project : Project.t) (latest_version : string)
    (items : list (string * Release.t)) (w : World) :
  exists w' : World,
    for_each items (write_formulas project latest_version false) w = (Ok tt, w') /\
    files w' = fold_left (write_step project latest_version) items (files w).
Proof.
  revert w. induction items as [|item items IH]; intros w; simpl.
  - exists w. split; reflexivity.
  - destruct (write_formulas_run project latest_version item w) as (w1 & H1 & F1).
    destruct (IH w1) as (w' & H' & F'). exists w'.
    split; [now erewrite bind_Ok by exact H1|]. now rewrite F', F1.
Qed.

Lemma canonical_not_pinned (project_name major_minor : string) :
  project_name +:+ ".rb" <> pinned_file project_name major_minor.
Proof.
  unfold pinned_file. intros H. apply (inj (String.app project_name)) in H.
  discriminate.
Qed.

Lemma write_step_canonical_other (project : Project.t) (latest_version : string)
    (dir : gmap string string) (mm : string) (r : Release.t) :
  mm <> latest_version ->
  write_step project latest_version dir (mm, r) !! canonical_file project
  = dir !! canonical_file project.
Proof.
  intros Hne. unfold write_step.
  destruct (String.eqb_spec mm latest_version); [contradiction|].
  destruct (0 <? _); [|reflexivity].
  apply lookup_insert_ne. intros H. symmetry in H.
  now apply canonical_not_pinned in H.
Qed.

Lemma write_step_canonical_latest (project : Project.t) (latest_version : string)
    (dir : gmap string string) (r : Release.t) :
  write_step project latest_version dir (latest_version, r) !! canonical_file project
  = Some (generate_formula project r false).
Proof.
  unfold write_step. rewrite String.eqb_refl.
  destruct (0 <? _); [|apply lookup_insert_eq].
  rewrite lookup_insert_ne; [apply lookup_insert_eq|].
  intros H. symmetry in H. now apply canonical_not_pinned in H.
Qed.

Lemma write_loop_canonical_kept (project : Project.t) (latest_version : string)
    (items : list (string * Release.t)) (dir : gmap string string) (r : Release.t) :
  (forall r', (latest_version, r') ∈ items -> r' = r) ->
  dir !! canonical_file project = Some (generate_formula project r false) ->
  fold_left (write_step project latest_version) items dir !! canonical_file project
  = Some (generate_formula project r false).
Proof.
  revert dir. induction items as [|[mm r'] items IH]; intros dir Hitems Hdir; cbn [fold_left].
  - exact Hdir.
  - apply IH.
    + intros r'' H. apply Hitems, elem_of_cons. now right.
    + destruct (decide (mm = latest_version)) as [->|Hne].
      * rewrite write_step_canonical_latest.
        rewrite (Hitems r'); [reflexivity|]. apply elem_of_cons. now left.
      * now rewrite write_step_canonical_other.
Qed.

Lemma write_loop_canonical (project : Project.t) (latest_version : string)
    (items : list (string * Release.t)) (dir : gmap string string) (r : Release.t) :
  (forall r', (latest_version, r') ∈ items -> r' = r) ->
  (latest_version, r) ∈ items ->
  fold_left (write_step project latest_version) items dir !! canonical_file project
  = Some (generate_formula project r false).
Proof.
  revert dir. induction items as [|[mm r'] items IH]; intros dir Hitems Hin; cbn [fold_left].
  - inversion Hin.
  - assert (Hrest : forall r'', (latest_version, r'') ∈ items -> r'' = r).
    { intros r'' H. apply Hitems, elem_of_cons. now right. }
    destruct (decide (mm = latest_version)) as [->|Hne].
    + apply write_loop_canonical_kept; [exact Hrest|].
      rewrite write_step_canonical_latest.
      rewrite (Hitems r'); [reflexivity|]. apply elem_of_cons. now left.
    + apply IH; [exact Hrest|].
      apply elem_of_cons in Hin as [[= ? ?]|?]; [congruence | assumption].
Qed.

(** ** A successful run of [process_project] *)

Lemma for_fold_Ok_each {A S : Type} (body : S -> A -> M S)
    (l : list A) (acc r : S) (w w' : World) (x : A) :
  for_fold l acc body w = (Ok r, w') -> x ∈ l ->
  exists s w1 s' w2, body s x w1 = (Ok s', w2).
Proof.
  revert acc w. induction l as [|y l IH]; intros acc w H Hin; [inversion Hin|].
  simpl in H. apply bind_Ok_inv in H as (acc' & w1 & H1 & H).
  apply elem_of_cons in Hin as [->|Hin]; [eauto 6|]. eapply IH; eassumption.
Qed.

Lemma process_version_Ok_checksums (github : GitHubAPI.t) (project : Project.t)
    (releases_by_minor : list (string * ReleaseData.t))
    (generated generated' : list (string * Release.t)) (major_minor : string)
    (w w' : World) (release_data : ReleaseData.t) :
  process_version github project releases_by_minor generated major_minor w
    = (Ok generated', w') ->
  PyDict.get major_minor releases_by_minor = Some release_data ->
  find_release_assets release_data project <> [] ->
  exists assets',
    with_checksums github (find_release_assets release_data project) = Ok assets'.
Proof.
  unfold process_version. intros H Hget Hassets. rewrite Hget in H.
  apply bind_Ok_inv in H as (? & w1 & _ & H).
  destruct (find_release_assets release_data project) as [|a assets];
    [contradiction|].
  apply bind_Ok_inv in H as (? & w2 & _ & H).
  apply bind_Ok_inv in H as (assets' & w3 & H3 & H).
  apply checksum_assets_Ok in H3. eauto.
Qed.

Lemma process_releases_true (github : GitHubAPI.t) (project : Project.t)
    (w w' : World) :
  process_releases github project false w = (Ok true, w') ->
  exists (releases_data : list ReleaseData.t) (sorted : list string),
    GitHubAPI.get_releases github (Project.repo project) 30 = Ok releases_data /\
    sorted_versions (PyDict.keys (group_releases releases_data)) = Ok sorted /\
    let releases_by_minor := group_releases releases_data in
    let to_keep := versions_to_keep project sorted in
    let generated :=
      fold_left (add_release github project releases_by_minor) to_keep [] in
    generated <> [] /\
    (forall mm release_data,
       mm ∈ to_keep ->
       PyDict.get mm releases_by_minor = Some release_data ->
       find_release_assets release_data project <> [] ->
       exists assets',
         with_checksums github (find_release_assets release_data project)
         = Ok assets') /\
    files w' = directory_after project (List.hd EmptyString sorted) generated (files w).
Proof.
  unfold process_releases. intros H.
  apply bind_Ok_inv in H as (releases_data & w1 & H1 & H).
  unfold lift in H1. injection H1 as Hrel <-.
  destruct releases_data as [|rd0 rest].
  { apply bind_Ok_inv in H as (? & ? & _ & H). unfold ret in H. discriminate. }
  remember (rd0 :: rest) as releases_data eqn:Hrd. clear Hrd.
  destruct (group_releases releases_data) as [|g0 grest] eqn:Hgroup.
  { apply bind_Ok_inv in H as (? & ? & _ & H). unfold ret in H. discriminate. }
  rewrite <- Hgroup in H. clear Hgroup g0 grest.
  apply bind_Ok_inv in H as (sorted & w2 & H2 & H).
  unfold lift in H2. injection H2 as Hsorted <-.
  apply bind_Ok_inv in H as (? & w3 & H3 & H).
  apply bind_Ok_inv in H as (? & w4 & H4 & H).
  apply bind_Ok_inv in H as (generated & w5 & H5 & H).
  assert (Hfiles : files w5 = files w).
  { pose proof (keeps_for_fold (versions_to_keep project sorted) []
      (process_version github project (group_releases releases_data))
      (fun s x => keeps_process_version github project
                    (group_releases releases_data) s x) w4) as Hk.
    rewrite H5 in Hk. simpl in Hk. rewrite Hk.
    unfold print in H3, H4. injection H3 as _ <-. injection H4 as _ <-.
    reflexivity. }
  exists releases_data, sorted. split; [exact Hrel|]. split; [exact Hsorted|].
  cbv zeta.
  assert (Hgen : generated
                 = fold_left (add_release github project (group_releases releases_data))
                     (versions_to_keep project sorted) []).
  { eapply for_fold_Ok; [|exact H5].
    intros s mm w6 s' w7. apply process_version_Ok. }
  rewrite <- Hgen.
  destruct generated as [|g generated].
  { apply bind_Ok_inv in H as (? & ? & _ & H). unfold ret in H. discriminate. }
  split; [discriminate|]. split.
  - intros mm release_data Hin Hget Hassets.
    destruct (for_fold_Ok_each _ _ _ _ _ _ mm H5 Hin) as (s & w6 & s' & w7 & Hrun).
    eapply process_version_Ok_checksums; eassumption.
  - apply bind_Ok_inv in H as (? & w6 & H6 & H).
    destruct (write_loop_run project (List.hd EmptyString sorted) (g :: generated) w5)
      as (w6' & Hw & Fw).
    assert (w6' = w6) as -> by congruence.
    unfold directory_after. rewrite <- Hfiles, <- Fw.
    apply bind_Ok_inv in H as (? & w7 & H7 & H).
    unfold ret in H. assert (w7 = w') as -> by congruence.
    destruct (0 <? Project.keep_versions project).
    + apply bind_Ok_inv in H7 as (removed & w8 & H8 & H7).
      unfold ret in H7. assert (w8 = w') as -> by congruence.
      rewrite cleanup_old_versions_run in H8. injection H8 as _ Hw'.
      rewrite <- Hw'. reflexivity.
    + unfold ret in H7. assert (w6 = w') as -> by congruence. reflexivity.
Qed.

Lemma process_project_true (github : GitHubAPI.t) (project project' : Project.t)
    (dry_run : bool) (w w' : World) :
  process_project github project dry_run w = (true, project', w') ->
  fill_repo_info github project = Ok project' /\
  exists w0 : World,
    files w0 = files w /\
    process_releases github project' dry_run w0 = (Ok true, w').
Proof.
  unfold process_project. cbn [print].
  destruct (fill_repo_info github project) as [p|msg]; [|discriminate].
  match goal with
  | |- context [process_releases ?g ?p ?d ?w0] =>
      destruct (process_releases g p d w0) as [[b|msg] w1] eqn:E
  end; [|discriminate].
  intros [= -> -> ->]. split; [reflexivity|]. eexists. split; [|exact E]. reflexivity.
Qed.

Lemma fill_repo_info_name (github : GitHubAPI.t) (project project' : Project.t) :
  fill_repo_info github project = Ok project' ->
  Project.name project' = Project.name project /\
  Project.repo project' = Project.repo project /\
  Project.keep_versions project' = Project.keep_versions project /\
  Project.asset_patterns project' = Project.asset_patterns project.
Proof.
  unfold fill_repo_info. destruct (_ || _).
  - destruct (GitHubAPI.get_repo _ _); [|discriminate]. intros [= <-]. auto.
  - intros [= <-]. auto.
Qed.

Lemma hd_firstn {A : Type} (d : A) (n : nat) (l : list A) :
  firstn n l <> [] -> List.hd d l ∈ firstn n l.
Proof.
  destruct n, l; simpl; try contradiction. intros _. apply elem_of_cons. now left.
Qed.

Lemma hd_versions_to_keep (project : Project.t) (sorted : list string) :
  versions_to_keep project sorted <> [] ->
  List.hd EmptyString sorted ∈ versions_to_keep project sorted.
Proof.
  unfold versions_to_keep, slice_to. destruct (0 <=? _); apply hd_firstn.
Qed.

Lemma directory_after_canonical (project : Project.t) (latest_version : string)
    (generated : list (string * Release.t)) (dir : gmap string string) :
  plain_name (Project.name project) = true ->
  directory_after project latest_version generated dir !! canonical_file project
  = fold_left (write_step project latest_version) generated dir
      !! canonical_file project.
Proof.
  intros Hplain. unfold directory_after.
  destruct (0 <? _); [|reflexivity].
  rewrite unlink_all_lookup, bool_decide_eq_false_2; [reflexivity|].
  unfold stale_files. intros H.
  apply list_elem_of_In, filter_In in H as [H _].
  apply list_elem_of_In, list_elem_of_filter in H as [H _].
  unfold canonical_file in H. rewrite glob_match_canonical in H by assumption.
  discriminate.
Qed.

(** The canonical formula file when the newest minor is generated.  When
    [process_project] succeeds outside a dry run and the release of the
    newest minor has a matched asset, the canonical file of the project
    holds the unversioned rendering of that release, with the digests of
    its downloaded assets, whichever of the other minors to keep are
    skipped for having no matched asset. *)
Lemma canonical_formula_written (github : GitHubAPI.t)
    (project project' : Project.t) (w w' : World) :
  plain_name (Project.name project) = true ->
  process_project github project false w = (true, project', w') ->
  exists (releases_data : list ReleaseData.t) (sorted : list string),
     GitHubAPI.get_releases github (Project.repo project') 30 = Ok releases_data /\
     sorted_versions (PyDict.keys (group_releases releases_data)) = Ok sorted /\
     forall release_data : ReleaseData.t,
       PyDict.get (List.hd EmptyString sorted) (group_releases releases_data)
         = Some release_data ->
       find_release_assets release_data project' <> [] ->
       exists assets' : list (string * Asset.t),
         with_checksums github (find_release_assets release_data project')
           = Ok assets' /\
         files w' !! canonical_file project'
         = Some (generate_formula project'
                   (Release.mk (ReleaseData.tag_name release_data)
                      (extract_version (ReleaseData.tag_name release_data))
                      (List.hd EmptyString sorted) assets')
                   false).
Proof.
  intros Hplain Hrun.
  apply process_project_true in Hrun as (Hfill & w0 & Hw0 & Hrun).
  apply fill_repo_info_name in Hfill as (Hname & _).
  rewrite <- Hname in Hplain.
  apply process_releases_true in Hrun
    as (releases_data & sorted & Hrel & Hsorted & Hgen & Hsums & Hfiles).
  exists releases_data, sorted. split; [exact Hrel|]. split; [exact Hsorted|].
  intros release_data Hget Hassets.
  set (latest := List.hd EmptyString sorted) in *.
  set (rbm := group_releases releases_data) in *.
  set (to_keep := versions_to_keep project' sorted) in *.
  assert (Hlatest : latest ∈ to_keep).
  { apply hd_versions_to_keep. fold to_keep. intros E. rewrite E in Hgen.
    now apply Hgen. }
  destruct (Hsums latest release_data Hlatest Hget Hassets) as [assets' Hsum].
  exists assets'. split; [exact Hsum|].
  set (release := Release.mk (ReleaseData.tag_name release_data)
                    (extract_version (ReleaseData.tag_name release_data))
                    latest assets').
  assert (Hrelease : release_of github project' rbm latest = Some release).
  { unfold release_of. rewrite Hget.
    destruct (find_release_assets release_data project') as [|a assets];
      [contradiction|].
    rewrite Hsum. reflexivity. }
  rewrite Hfiles, directory_after_canonical by exact Hplain.
  apply write_loop_canonical.
  - intros r' Hr'. apply generated_elem_of in Hr' as [Hr'|Hr'].
    + inversion Hr'.
    + congruence.
  - apply dict_get_elem_of. now apply generated_get.
Qed.

Example canonical_formula_written_example :
  let github := example_github (List.tl example_releases) in
  let run := process_project github (example_project 1) false empty_world in
  fst (fst run) = true /\
  exists assets' : list (string * Asset.t),
    files (snd run) !! "tool.rb"
    = Some (generate_formula (example_project 1)
              (Release.mk "v2.0.0" "2.0.0" "2.0" assets') false).
Proof.
  intros github run.
  assert (Hrun : process_project github (example_project 1) false empty_world
                 = (true, example_project 1, snd run)).
  { vm_compute. reflexivity. }
  split; [unfold run; now rewrite Hrun|].
  destruct (canonical_formula_written github (example_project 1)
              (example_project 1) empty_world (snd run) eq_refl Hrun)
    as (releases_data & sorted & Hrel & Hsorted & Hcanon).
  injection Hrel as <-. injection Hsorted as <-.
  destruct (Hcanon (ReleaseData.mk "v2.0.0" false false
                      [ AssetData.mk "tool-linux-amd64.tar.gz"
                          "https://github.com/acme/tool/releases/download/v2.0.0/tool-linux-amd64.tar.gz" ]))
    as (assets' & _ & Hfile); [reflexivity | discriminate |].
  exists assets'. exact Hfile.
Qed.

Lemma write_loop_canonical_absent (project : Project.t) (latest_version : string)
    (items : list (string * Release.t)) (dir : gmap string string) :
  latest_version ∉ PyDict.keys items ->
  fold_left (write_step project latest_version) items dir !! canonical_file project
  = dir !! canonical_file project.
Proof.
  revert dir. induction items as [|[mm r] items IH]; intros dir Hnot; [reflexivity|].
  cbn [fold_left]. unfold PyDict.keys in Hnot, IH. cbn [map fst] in Hnot.
  rewrite IH by (intros H; apply Hnot; now right).
  apply write_step_canonical_other. intros ->. apply Hnot. now left.
Qed.

(** C1 (fails on the code): the canonical file when the newest minor is
    skipped.  When the release of the newest minor has no matched asset and
    the run still succeeds (an older minor of the retention window was
    generated), the canonical formula file is not written: after the run
    it is what it was before, a stale formula or no file at all. *)
Theorem C1_newest_minor_skipped (github : GitHubAPI.t)
    (project project' : Project.t) (w w' : World)
    (releases_data : list ReleaseData.t) (sorted : list string)
    (release_data : ReleaseData.t) :
  plain_name (Project.name project) = true ->
  process_project github project false w = (true, project', w') ->
  GitHubAPI.get_releases github (Project.repo project) 30 = Ok releases_data ->
  sorted_versions (PyDict.keys (group_releases releases_data)) = Ok sorted ->
  PyDict.get (List.hd EmptyString sorted) (group_releases releases_data)
    = Some release_data ->
  find_release_assets release_data project' = [] ->
  files w' !! canonical_file project = files w !! canonical_file project.
Proof.
  intros Hplain Hrun Hrel Hsorted Hget Hassets.
  apply process_project_true in Hrun as (Hfill & w0 & Hw0 & Hrun).
  apply fill_repo_info_name in Hfill as (Hname & Hrepo & _).
  apply process_releases_true in Hrun
    as (releases_data' & sorted' & Hrel' & Hsorted' & _ & _ & Hfiles).
  rewrite Hrepo, Hrel in Hrel'. injection Hrel' as <-.
  rewrite Hsorted in Hsorted'. injection Hsorted' as <-.
  assert (Hcanon : canonical_file project = canonical_file project').
  { unfold canonical_file. now rewrite Hname. }
  rewrite Hcanon, Hfiles, Hw0.
  rewrite directory_after_canonical by now rewrite Hname.
  apply write_loop_canonical_absent.
  intros Hin. unfold PyDict.keys in Hin.
  apply list_elem_of_fmap in Hin as ([mm r] & Hmm & Hin). cbn in Hmm. subst mm.
  apply generated_elem_of in Hin as [Hin|Hin]; [inversion Hin|].
  unfold release_of in Hin. rewrite Hget, Hassets in Hin. discriminate.
Qed.

Lemma C1_newest_minor_skipped_witness :
  let github := example_github example_releases in
  let stale : gmap string string := list_to_map [("tool.rb", "stale formula")] in
  let run := process_project github (example_project 1) false (mkWorld stale []) in
  fst (fst run) = true /\
  files (snd run) !! "tool.rb" = Some "stale formula" /\
  is_Some (files (snd run) !! "tool@2.0.rb") /\
  fst (fst (process_project github (example_project 0) false (mkWorld stale [])))
  = false.
Proof.
  intros github stale run.
  assert (Hrun : process_project github (example_project 1) false (mkWorld stale [])
                 = (true, example_project 1, snd run)).
  { vm_compute. reflexivity. }
  split; [unfold run; now rewrite Hrun|]. split; [|split].
  - etransitivity; [|reflexivity].
    exact (C1_newest_minor_skipped github (example_project 1) (example_project 1)
             (mkWorld stale []) (snd run) example_releases ["2.1"; "2.0"]
             (List.hd (ReleaseData.mk EmptyString false false []) example_releases)
             eq_refl Hrun eq_refl eq_refl eq_refl eq_refl).
  - vm_compute. eexists. reflexivity.
  - vm_compute. reflexivity.
Defined.

(** ** Regular expressions: matching by derivatives is matching *)

Lemma str_app_eq_nil (s1 s2 : string) :
  s1 +:+ s2 = EmptyString -> s1 = EmptyString /\ s2 = EmptyString.
Proof. destruct s1; [now split | discriminate]. Qed.

Lemma str_app_eq_cons (s1 s2 s : string) (a : ascii) :
  s1 +:+ s2 = String a s ->
  (s1 = EmptyString /\ s2 = String a s) \/
  (exists s1', s1 = String a s1' /\ s = s1' +:+ s2).
Proof.
  destruct s1 as [|b s1]; [now left|].
  rewrite str_app_cons. intros [= -> <-]. right. eauto.
Qed.

Lemma re_matches_none (s : string) : ~ re_matches Re.RNone s.
Proof. intros H. inversion H. Qed.

Lemma re_matches_eps (s : string) : re_matches Re.REps s <-> s = EmptyString.
Proof. split; [now inversion 1 | intros ->; constructor]. Qed.

Lemma re_matches_cat (r1 r2 : Re.regex) (s : string) :
  re_matches (Re.RCat r1 r2) s <->
  exists s1 s2, s = s1 +:+ s2 /\ re_matches r1 s1 /\ re_matches r2 s2.
Proof.
  split.
  - inversion 1; subst. eauto.
  - intros (s1 & s2 & -> & H1 & H2). now constructor.
Qed.

Lemma re_matches_alt (r1 r2 : Re.regex) (s : string) :
  re_matches (Re.RAlt r1 r2) s <-> re_matches r1 s \/ re_matches r2 s.
Proof.
  split.
  - inversion 1; subst; auto.
  - intros [H|H]; [now apply MAltL | now apply MAltR].
Qed.

Lemma re_matches_smart_cat (r1 r2 : Re.regex) (s : string) :
  re_matches (Re.cat r1 r2) s <-> re_matches (Re.RCat r1 r2) s.
Proof.
  assert (Hl : forall r, re_matches Re.RNone s <-> re_matches (Re.RCat Re.RNone r) s).
  { intros r. rewrite re_matches_cat. split; [now intros ?%re_matches_none|].
    intros (? & ? & _ & H & _). now apply re_matches_none in H. }
  assert (Hr : forall r, re_matches Re.RNone s <-> re_matches (Re.RCat r Re.RNone) s).
  { intros r. rewrite re_matches_cat. split; [now intros ?%re_matches_none|].
    intros (? & ? & _ & _ & H). now apply re_matches_none in H. }
  assert (He : forall r, re_matches r s <-> re_matches (Re.RCat Re.REps r) s).
  { intros r. rewrite re_matches_cat. split.
    - intros H. exists EmptyString, s. repeat split; [constructor | exact H].
    - intros (s1 & s2 & -> & H1%re_matches_eps & H2). now subst. }
  destruct r1, r2; simpl; first [apply Hl | apply Hr | apply He | reflexivity].
Qed.

Lemma re_matches_smart_alt (r1 r2 : Re.regex) (s : string) :
  re_matches (Re.alt r1 r2) s <-> re_matches (Re.RAlt r1 r2) s.
Proof.
  assert (Hl : forall r, re_matches r s <-> re_matches (Re.RAlt Re.RNone r) s).
  { intros r. rewrite re_matches_alt. split; [now right|].
    intros [H|H]; [now apply re_matches_none in H | exact H]. }
  assert (Hr : forall r, re_matches r s <-> re_matches (Re.RAlt r Re.RNone) s).
  { intros r. rewrite re_matches_alt. split; [now left|].
    intros [H|H]; [exact H | now apply re_matches_none in H]. }
  destruct r1, r2; simpl; first [apply Hl | apply Hr | reflexivity].
Qed.

Lemma nullable_matches (r : Re.regex) :
  Re.nullable r = true <-> re_matches r EmptyString.
Proof.
  induction r as [| |c| |r1 IH1 r2 IH2|r1 IH1 r2 IH2|r IH]; simpl.
  - split; [discriminate | now intros ?%re_matches_none].
  - split; [constructor | reflexivity].
  - split; [discriminate | inversion 1].
  - split; [discriminate | inversion 1].
  - rewrite andb_true_iff, IH1, IH2, re_matches_cat. split.
    + intros [H1 H2]. exists EmptyString, EmptyString. auto.
    + intros (s1 & s2 & E & H1 & H2). symmetry in E.
      apply str_app_eq_nil in E as [-> ->]. auto.
  - now rewrite orb_true_iff, IH1, IH2, re_matches_alt.
  - split; [constructor | reflexivity].
Qed.

Lemma re_matches_star_cons (r : Re.regex) (a : ascii) (s : string) :
  re_matches (Re.RStar r) (String a s) ->
  exists s1 s2, s = s1 +:+ s2 /\ re_matches r (String a s1) /\
                re_matches (Re.RStar r) s2.
Proof.
  intros H. remember (Re.RStar r) as r' eqn:Er. remember (String a s) as t eqn:Et.
  induction H as [| | | | | | |r0 s1 s2 H1 _ H2 IH2]; try discriminate.
  injection Er as ->.
  apply str_app_eq_cons in Et as [[-> ->]|(s1' & -> & ->)].
  - now apply IH2.
  - eauto.
Qed.

Lemma deriv_matches (a : ascii) (r : Re.regex) (s : string) :
  re_matches (Re.deriv a r) s <-> re_matches r (String a s).
Proof.
  revert s. induction r as [| |c| |r1 IH1 r2 IH2|r1 IH1 r2 IH2|r IH]; intros s; simpl.
  - split; intros H; inversion H.
  - split; intros H; inversion H.
  - destruct (Ascii.eqb_spec a c) as [->|Hne].
    + rewrite re_matches_eps. split; [intros ->; constructor | now inversion 1].
    + split; [now intros ?%re_matches_none | inversion 1; congruence].
  - destruct (Ascii.eqb_spec a Re.newline) as [->|Hne].
    + split; [now intros ?%re_matches_none | inversion 1; congruence].
    + rewrite re_matches_eps. split; [intros ->; now constructor | now inversion 1].
  - assert (Hcat : re_matches (Re.RCat (Re.deriv a r1) r2) s <->
                   exists s1 s2, s = s1 +:+ s2 /\ re_matches r1 (String a s1) /\
                                 re_matches r2 s2).
    { rewrite re_matches_cat. split; intros (s1 & s2 & E & H1 & H2);
        exists s1, s2; (split; [exact E|]); split; auto; now apply IH1. }
    rewrite (re_matches_cat r1 r2).
    destruct (Re.nullable r1) eqn:En.
    + rewrite re_matches_smart_alt, re_matches_alt, re_matches_smart_cat, Hcat, IH2.
      split.
      * intros [(s1 & s2 & -> & H1 & H2)|H].
        -- exists (String a s1), s2. now rewrite str_app_cons.
        -- exists EmptyString, (String a s). repeat split; [|exact H].
           now apply nullable_matches.
      * intros (s1 & s2 & E & H1 & H2). symmetry in E.
        apply str_app_eq_cons in E as [[-> ->]|(s1' & -> & ->)]; [now right|].
        left. eauto.
    + rewrite re_matches_smart_cat, Hcat. split.
      * intros (s1 & s2 & -> & H1 & H2).
        exists (String a s1), s2. now rewrite str_app_cons.
      * intros (s1 & s2 & E & H1 & H2). symmetry in E.
        apply str_app_eq_cons in E as [[-> ->]|(s1' & -> & ->)]; [|eauto].
        apply nullable_matches in H1. congruence.
  - now rewrite re_matches_smart_alt, !re_matches_alt, IH1, IH2.
  - rewrite re_matches_smart_cat, re_matches_cat. split.
    + intros (s1 & s2 & -> & H1 & H2). apply IH in H1.
      rewrite <- str_app_cons. now constructor.
    + intros H. apply re_matches_star_cons in H as (s1 & s2 & -> & H1 & H2).
      exists s1, s2. repeat split; [now apply IH | exact H2].
Qed.

Lemma match_prefix_spec (r : Re.regex) (s : string) :
  Re.match_prefix r s = true <->
  exists p rest, s = p +:+ rest /\ re_matches r p.
Proof.
  revert r. induction s as [|a s IH]; intros r; simpl.
  - rewrite orb_false_r, nullable_matches. split.
    + intros H. exists EmptyString, EmptyString. auto.
    + intros (p & rest & E & H). symmetry in E.
      apply str_app_eq_nil in E as [-> _]. exact H.
  - rewrite orb_true_iff, nullable_matches, IH. split.
    + intros [H|(p & rest & -> & H)].
      * exists EmptyString, (String a s). auto.
      * exists (String a p), rest. split; [reflexivity | now apply deriv_matches].
    + intros (p & rest & E & H). symmetry in E.
      apply str_app_eq_cons in E as [[-> ->]|(p' & -> & ->)]; [now left|].
      right. exists p', rest. split; [reflexivity | now apply deriv_matches].
Qed.

Lemma search_spec (r : Re.regex) (s : string) :
  Re.search r s = true <->
  exists pre p post, s = pre +:+ p +:+ post /\ re_matches r p.
Proof.
  induction s as [|a s IH]; cbn [Re.search].
  - rewrite orb_false_r, match_prefix_spec. split.
    + intros (p & rest & E & H). exists EmptyString, p, rest. auto.
    + intros (pre & p & post & E & H). symmetry in E.
      apply str_app_eq_nil in E as [-> E]. eauto.
  - rewrite orb_true_iff, match_prefix_spec, IH. split.
    + intros [(p & rest & E & H)|(pre & p & post & -> & H)].
      * exists EmptyString, p, rest. auto.
      * exists (String a pre), p, post. auto.
    + intros (pre & p & post & E & H). symmetry in E.
      apply str_app_eq_cons in E as [[-> E]|(pre' & -> & ->)]; [left|right]; eauto.
Qed.

Lemma parse_cons_literal (c : ascii) (p : string) :
  PyStr.char_in c ".*" = false ->
  match p with String d _ => Ascii.eqb d "*" = false | EmptyString => True end ->
  Re.parse (String c p) = Re.RCat (Re.RChar c) (Re.parse p).
Proof.
  intros Hc Hp. rewrite !char_in_cons in Hc.
  apply orb_false_iff in Hc as [Hdot _].
  cbn [Re.parse]. unfold Re.atom. rewrite Hdot.
  destruct p as [|d p]; [reflexivity|]. now rewrite Hp.
Qed.

Lemma literal_pattern_head (p : string) :
  literal_pattern p = true ->
  match p with String d _ => Ascii.eqb d "*" = false | EmptyString => True end.
Proof.
  destruct p as [|d p]; [trivial|]. cbn [literal_pattern].
  rewrite !char_in_cons. intros H. apply andb_true_iff in H as [H _].
  apply negb_true_iff, orb_false_iff in H as [_ H].
  now apply orb_false_iff in H as [H _].
Qed.

Lemma literal_pattern_cons (c : ascii) (p : string) :
  literal_pattern (String c p) = true ->
  PyStr.char_in c ".*" = false /\ literal_pattern p = true.
Proof.
  cbn [literal_pattern]. intros H. apply andb_true_iff in H as [H1 H2].
  now apply negb_true_iff in H1.
Qed.

Lemma re_matches_char_cat (c : ascii) (r : Re.regex) (s : string) :
  re_matches (Re.RCat (Re.RChar c) r) s <->
  exists s', s = String c s' /\ re_matches r s'.
Proof.
  rewrite re_matches_cat. split.
  - intros (s1 & s2 & -> & H1 & H2). inversion H1; subst. eauto.
  - intros (s' & -> & H). exists (String c EmptyString), s'.
    repeat split; [constructor | exact H].
Qed.

Lemma parse_literal_matches (lit p : string) :
  literal_pattern lit = true ->
  re_matches (Re.parse lit) p <-> p = lit.
Proof.
  revert p. induction lit as [|c lit IH]; intros p Hlit.
  - apply re_matches_eps.
  - apply literal_pattern_cons in Hlit as [Hc Hlit].
    rewrite parse_cons_literal; [|exact Hc|now apply literal_pattern_head].
    rewrite re_matches_char_cat. split.
    + intros (s' & -> & H). apply IH in H; [now subst | exact Hlit].
    + intros ->. exists lit. split; [reflexivity | now apply IH].
Qed.

Lemma re_matches_dot_star (s : string) :
  re_matches (Re.RStar Re.RDot) s <-> PyStr.char_in Re.newline s = false.
Proof.
  split.
  - intros H. remember (Re.RStar Re.RDot) as r eqn:Er.
    induction H as [| | | | | | |r0 s1 s2 H1 _ H2 IH2]; try discriminate.
    + reflexivity.
    + injection Er as ->. inversion H1 as [| |c Hc| | | | |]; subst.
      rewrite str_app_cons, str_app_nil_l, char_in_cons, IH2 by reflexivity.
      rewrite orb_false_r. apply Ascii.eqb_neq. congruence.
  - induction s as [|c s IH]; intros H; [constructor|].
    rewrite char_in_cons in H. apply orb_false_iff in H as [Hc Hs].
    change (String c s) with (String c EmptyString +:+ s).
    constructor; [|now apply IH].
    constructor. apply Ascii.eqb_neq in Hc. congruence.
Qed.

Lemma parse_dot_star_matches (a b p : string) :
  literal_pattern a = true -> literal_pattern b = true ->
  re_matches (Re.parse (a +:+ ".*" +:+ b)) p <->
  exists mid, p = a +:+ mid +:+ b /\ PyStr.char_in Re.newline mid = false.
Proof.
  intros Ha Hb. revert p. induction a as [|c a IH]; intros p.
  - rewrite !str_app_nil_l.
    change (Re.parse (".*" +:+ b)) with (Re.RCat (Re.RStar Re.RDot) (Re.parse b)).
    rewrite re_matches_cat. split.
    + intros (s1 & s2 & -> & H1 & H2). apply parse_literal_matches in H2; [|exact Hb].
      subst. exists s1. split; [reflexivity | now apply re_matches_dot_star].
    + intros (mid & -> & H). exists mid, b. repeat split.
      * now apply re_matches_dot_star.
      * now apply parse_literal_matches.
  - apply literal_pattern_cons in Ha as [Hc Ha].
    rewrite str_app_cons, parse_cons_literal; [|exact Hc|].
    + rewrite re_matches_char_cat. split.
      * intros (s' & -> & H). apply IH in H as (mid & -> & Hmid); [|exact Ha].
        exists mid. now rewrite str_app_cons.
      * intros (mid & -> & Hmid). exists (a +:+ mid +:+ b).
        split; [now rewrite str_app_cons|]. apply IH; [exact Ha | eauto].
    + destruct a as [|d a]; [reflexivity|].
      rewrite str_app_cons. exact (literal_pattern_head _ Ha).
Qed.

(** [re_search] finds a literal pattern exactly in the strings that contain
    it, and a pattern [a.*b] exactly in the strings that contain [a] and,
    later on the same line, [b]. *)
Lemma re_search_literal (lit s : string) :
  literal_pattern lit = true ->
  Re.re_search lit s = true <-> exists pre post, s = pre +:+ lit +:+ post.
Proof.
  intros Hlit. unfold Re.re_search. rewrite search_spec. split.
  - intros (pre & p & post & -> & H).
    apply parse_literal_matches in H; [|exact Hlit]. subst. eauto.
  - intros (pre & post & ->). exists pre, lit, post.
    split; [reflexivity | now apply parse_literal_matches].
Qed.

Lemma re_search_dot_star (a b s : string) :
  literal_pattern a = true -> literal_pattern b = true ->
  Re.re_search (a +:+ ".*" +:+ b) s = true <->
  exists pre mid post,
    s = pre +:+ a +:+ mid +:+ b +:+ post /\ PyStr.char_in Re.newline mid = false.
Proof.
  intros Ha Hb. unfold Re.re_search. rewrite search_spec. split.
  - intros (pre & p & post & -> & H).
    apply parse_dot_star_matches in H as (mid & -> & Hmid); [|assumption..].
    exists pre, mid, post. split; [|exact Hmid]. now rewrite !str_app_assoc.
  - intros (pre & mid & post & -> & Hmid).
    exists pre, (a +:+ mid +:+ b), post. split; [now rewrite !str_app_assoc|].
    apply parse_dot_star_matches; eauto.
Qed.

Example re_search_darwin_arm64 (s : string) :
  Re.re_search "darwin.*arm64" s = true <->
  exists pre mid post,
    s = pre +:+ "darwin" +:+ mid +:+ "arm64" +:+ post /\
    PyStr.char_in Re.newline mid = false.
Proof. apply (re_search_dot_star "darwin" "arm64"); reflexivity. Qed.

(** ** Where the URL template does round-trip *)

Lemma str_length_app (a b : string) :
  String.length (a +:+ b) = (String.length a + String.length b)%nat.
Proof.
  induction a as [|c a IH]; [reflexivity|].
  rewrite str_app_cons. simpl. now rewrite IH.
Qed.

Lemma startswith_split (p s : string) :
  PyStr.startswith p s = true -> exists rest, s = p +:+ rest.
Proof.
  revert s. induction p as [|a p IH]; intros s H; [now exists s|].
  destruct s as [|b s]; [discriminate|].
  rewrite startswith_cons in H.
  destruct (Ascii.eqb_spec a b) as [->|]; [|discriminate].
  destruct (IH _ H) as [rest ->]. now exists rest.
Qed.

Lemma replace_go_skip (old new p s : string) :
  PyStr.replace_go old new (String.length p) (p +:+ s)
  = PyStr.replace_go old new 0 s.
Proof.
  induction p as [|c p IH]; [now destruct s|].
  rewrite str_app_cons. exact IH.
Qed.

Lemma replace_go_match (c : ascii) (old new rest : string) :
  PyStr.replace_go (String c old) new 0 (String c old +:+ rest)
  = new +:+ PyStr.replace_go (String c old) new 0 rest.
Proof.
  rewrite str_app_cons. cbn [PyStr.replace_go].
  rewrite <- str_app_cons, startswith_self_app.
  cbn [String.length]. rewrite Nat.sub_succ, Nat.sub_0_r.
  now rewrite replace_go_skip.
Qed.

Lemma replace_go_no_match (old new s : string) (c : ascii) :
  PyStr.startswith old (String c s) = false ->
  PyStr.replace_go old new 0 (String c s)
  = String c (PyStr.replace_go old new 0 s).
Proof. intros H. cbn [PyStr.replace_go]. now rewrite H. Qed.

Lemma template_roundtrip_v (version url : string) :
  PyStr.startswith "v" version = false ->
  PyStr.char_in "#" url = false ->
  let tag := String "v" version in
  extract_version tag = version /\
  interpolate_version version (PyStr.replace tag version_template url) = url.
Proof.
  intros Hv Hurl tag. split.
  { unfold tag. rewrite extract_version_cons_v.
    destruct version as [|c version]; [reflexivity|].
    apply extract_version_no_v. rewrite startswith_cons in Hv.
    rewrite Ascii.eqb_sym. now destruct (Ascii.eqb "v" c). }
  unfold interpolate_version, version_template, PyStr.replace, tag.
  remember (String.length url) as n eqn:Hn.
  assert (Hlen : (String.length url <= n)%nat) by lia. clear Hn.
  revert url Hurl Hlen. induction n as [|n IH]; intros url Hurl Hlen.
  { destruct url; [reflexivity | simpl in Hlen; lia]. }
  destruct url as [|c url]; [reflexivity|].
  rewrite char_in_cons in Hurl. apply orb_false_iff in Hurl as [Hc Hurl].
  destruct (PyStr.startswith (String "v" version) (String c url)) eqn:Hm.
  - apply startswith_split in Hm as [rest Hrest]. rewrite Hrest.
    rewrite replace_go_match.
    assert (Hrest_hash : PyStr.char_in "#" rest = false).
    { assert (H : PyStr.char_in "#" (String c url) = false)
        by (rewrite char_in_cons, Hc, Hurl; reflexivity).
      rewrite Hrest in H. clear - H.
      induction (String "v" version) as [|a p IHp]; [exact H|].
      rewrite str_app_cons, char_in_cons in H.
      apply orb_false_iff in H as [_ H]. now apply IHp. }
    assert (Hrest_len : (String.length rest <= n)%nat).
    { assert (H : String.length (String c url) = String.length (String "v" version +:+ rest))
        by now rewrite Hrest.
      rewrite str_length_app in H. simpl in H, Hlen. lia. }
    change ("v#{version}" +:+ PyStr.replace_go (String "v" version) "v#{version}" 0 rest)
      with (String "v" ("#{version}" +:+
              PyStr.replace_go (String "v" version) "v#{version}" 0 rest)).
    rewrite replace_go_no_match by reflexivity.
    rewrite (replace_go_match "#" "{version}").
    rewrite IH by assumption. reflexivity.
  - rewrite replace_go_no_match by exact Hm.
    rewrite replace_go_no_match.
    + rewrite IH; [reflexivity | exact Hurl | simpl in Hlen; lia].
    + rewrite startswith_cons. now rewrite Hc.
Qed.

(** ** Built-in detection, stated on the words of a name *)

Lemma endswith_spec (ext s : string) :
  PyStr.endswith ext s = true <-> exists stem, s = stem +:+ ext.
Proof.
  induction s as [|c s IH]; cbn [PyStr.endswith].
  - rewrite orb_false_r, String.eqb_eq. split.
    + intros ->. now exists EmptyString.
    + intros [stem H]. symmetry in H. apply str_app_eq_nil in H as [_ ->]. reflexivity.
  - rewrite orb_true_iff, String.eqb_eq, IH. split.
    + intros [->|[stem ->]]; [now exists EmptyString|]. now exists (String c stem).
    + intros [stem H]. symmetry in H.
      apply str_app_eq_cons in H as [[-> ->]|(stem' & -> & ->)]; [now left|].
      right. now exists stem'.
Qed.

Lemma is_archive_spec (s : string) :
  is_archive s = true <-> has_archive_extension s.
Proof.
  unfold is_archive, has_archive_extension. rewrite existsb_exists. split.
  - intros (ext & Hin & H). apply endswith_spec in H as [stem ->].
    exists stem, ext. split; [|reflexivity]. now apply list_elem_of_In.
  - intros (stem & ext & Hin & ->). exists ext. split.
    + now apply list_elem_of_In.
    + apply endswith_spec. now exists stem.
Qed.

Lemma group_matches_Exists (patterns : list string) (s : string) :
  group_matches patterns s = true <->
  Exists (fun p => Re.re_search p s = true) patterns.
Proof.
  unfold group_matches. induction patterns as [|p patterns IH]; cbn [existsb].
  - split; [discriminate | intros H; inversion H].
  - rewrite orb_true_iff, IH, Exists_cons. reflexivity.
Qed.

Lemma Exists_app_iff {A : Type} (P : A -> Prop) (l1 l2 : list A) :
  Exists P (l1 ++ l2)%list <-> Exists P l1 \/ Exists P l2.
Proof.
  induction l1 as [|x l1 IH]; cbn [app].
  - split; [now right | intros [H|H]; [inversion H | exact H]].
  - rewrite !Exists_cons, IH. tauto.
Qed.

Lemma Exists_map_iff {A B : Type} (f : A -> B) (P : B -> Prop) (l : list A) :
  Exists P (map f l) <-> Exists (fun x => P (f x)) l.
Proof.
  induction l as [|x l IH]; cbn [map].
  - split; intros H; inversion H.
  - now rewrite !Exists_cons, IH.
Qed.

Lemma Exists_flat_map_iff {A B : Type} (f : A -> list B) (P : B -> Prop)
    (l : list A) :
  Exists P (flat_map f l) <-> Exists (fun x => Exists P (f x)) l.
Proof.
  induction l as [|x l IH]; cbn [flat_map].
  - split; intros H; inversion H.
  - now rewrite Exists_app_iff, Exists_cons, IH.
Qed.

Lemma Exists_iff {A : Type} (P Q : A -> Prop) (l : list A) :
  Forall (fun x => P x <-> Q x) l -> Exists P l <-> Exists Q l.
Proof.
  induction l as [|x l IH]; intros H.
  - split; intros H'; inversion H'.
  - apply Forall_cons in H as [Hx Hl]. rewrite !Exists_cons, Hx, (IH Hl).
    reflexivity.
Qed.

Lemma group_matches_names (words : PlatformWords.t) (s : string) :
  plain_words words ->
  group_matches (patterns_of words) s = true <-> names_platform words s.
Proof.
  intros (Hos & Harch & Hsingle).
  rewrite group_matches_Exists. unfold patterns_of, names_platform.
  rewrite Exists_app_iff, Exists_flat_map_iff.
  assert (H1 : Exists (fun os => Exists (fun p => Re.re_search p s = true)
                         (map (fun arch => os +:+ ".*" +:+ arch)
                            (PlatformWords.arch_words words)))
                 (PlatformWords.os_words words)
               <-> Exists (fun os => Exists (fun arch => names_in_order os arch s)
                             (PlatformWords.arch_words words))
                     (PlatformWords.os_words words)).
  { apply Exists_iff. eapply Forall_impl; [exact Hos|].
    intros os Hlit. cbv beta. rewrite Exists_map_iff.
    apply Exists_iff. eapply Forall_impl; [exact Harch|].
    intros arch Hlit'. cbv beta. now apply re_search_dot_star. }
  assert (H2 : Exists (fun p => Re.re_search p s = true)
                 (PlatformWords.single_words words)
               <-> Exists (fun word => holds_word word s)
                     (PlatformWords.single_words words)).
  { apply Exists_iff. eapply Forall_impl; [exact Hsingle|].
    intros word Hlit. cbv beta. now apply re_search_literal. }
  rewrite H1, H2. reflexivity.
Qed.

Lemma first_platform_names (table : list (string * PlatformWords.t))
    (name_lower slot : string) :
  Forall (fun row => plain_words (snd row)) table ->
  first_platform (map (fun row => (fst row, patterns_of (snd row))) table) name_lower
    = Some slot <->
  exists (i : nat) (words : PlatformWords.t),
    table !! i = Some (slot, words) /\
    names_platform words name_lower /\
    forall (j : nat) (earlier : string * PlatformWords.t),
      (j < i)%nat -> table !! j = Some earlier ->
      ~ names_platform (snd earlier) name_lower.
Proof.
  intros Hplain. rewrite first_platform_Some. split.
  - intros (i & patterns & Hi & Hm & Hbefore).
    rewrite list_lookup_fmap in Hi.
    destruct (table !! i) as [[slot' words]|] eqn:Hrow; [|discriminate].
    cbn in Hi. injection Hi as -> <-.
    exists i, words. split; [exact Hrow|]. split.
    + apply group_matches_names; [|exact Hm].
      exact (proj1 (Forall_lookup _ _) Hplain i _ Hrow).
    + intros j earlier Hj He Hn.
      specialize (Hbefore j (fst earlier, patterns_of (snd earlier)) Hj).
      rewrite list_lookup_fmap, He in Hbefore. specialize (Hbefore eq_refl).
      cbn [snd] in Hbefore.
      apply group_matches_names in Hn;
        [congruence | exact (proj1 (Forall_lookup _ _) Hplain j _ He)].
  - intros (i & words & Hi & Hn & Hbefore).
    exists i, (patterns_of words). split; [|split].
    + now rewrite list_lookup_fmap, Hi.
    + apply group_matches_names; [|exact Hn].
      exact (proj1 (Forall_lookup _ _) Hplain i _ Hi).
    + intros j earlier Hj He. rewrite list_lookup_fmap in He.
      destruct (table !! j) as [row|] eqn:Hrow; [|discriminate].
      cbn in He. injection He as <-. cbn [snd].
      destruct (group_matches (patterns_of (snd row)) name_lower) eqn:E;
        [|reflexivity].
      exfalso. apply (Hbefore j row Hj Hrow).
      apply group_matches_names; [|exact E].
      exact (proj1 (Forall_lookup _ _) Hplain j _ Hrow).
Qed.

Lemma first_platform_names_None (table : list (string * PlatformWords.t))
    (name_lower : string) :
  Forall (fun row => plain_words (snd row)) table ->
  first_platform (map (fun row => (fst row, patterns_of (snd row))) table) name_lower
    = None <->
  forall slot words, (slot, words) ∈ table -> ~ names_platform words name_lower.
Proof.
  intros Hplain. rewrite first_platform_None. split.
  - intros H slot words Hin Hn.
    assert (Hrow : plain_words words).
    { exact (proj1 (Forall_forall _ _) Hplain (slot, words) Hin). }
    apply group_matches_names in Hn; [|exact Hrow].
    rewrite (H slot (patterns_of words)) in Hn; [discriminate|].
    apply list_elem_of_fmap. now exists (slot, words).
  - intros H slot patterns Hin.
    apply list_elem_of_fmap in Hin as ([slot' words] & Heq & Hin).
    cbn in Heq. injection Heq as -> ->.
    destruct (group_matches (patterns_of words) name_lower) eqn:E; [|reflexivity].
    exfalso. apply (H slot' words Hin).
    apply group_matches_names; [|exact E].
    exact (proj1 (Forall_forall _ _) Hplain (slot', words) Hin).
Qed.

Lemma platform_table_patterns :
  PLATFORM_PATTERNS = map (fun row => (fst row, patterns_of (snd row))) platform_table.
Proof. reflexivity. Qed.

Lemma platform_table_plain :
  Forall (fun row => plain_words (snd row)) platform_table.
Proof.
  unfold platform_table, plain_words. repeat constructor.
Qed.

(** C7: built-in detection.  A name whose lower-cased form does not end
    with an archive extension is classified as none.  Any other name is
    classified as the first slot, in the order macos_arm64, macos_x86_64,
    linux_arm64, linux_x86_64, that its lower-cased form names: it holds a
    word for the operating system and, later on the same line, a word for
    the architecture, or one of the single words of the slot; it is
    classified as none when it names no slot.
    [tool-darwin-arm64.tar.gz] is macos_arm64, [tool-darwin-arm64.sig] is
    none, [tool-linux-amd64.tar.gz] is linux_x86_64 and [checksums.zip] is
    none. *)
Theorem C7_detect_platform (asset_name : string) :
  let name_lower := PyStr.lower asset_name in
  map fst platform_table
    = ["macos_arm64"; "macos_x86_64"; "linux_arm64"; "linux_x86_64"] /\
  (~ has_archive_extension name_lower -> detect_platform asset_name = None) /\
  (has_archive_extension name_lower ->
     (forall slot : string,
        detect_platform asset_name = Some slot <->
        exists (i : nat) (words : PlatformWords.t),
          platform_table !! i = Some (slot, words) /\
          names_platform words name_lower /\
          forall (j : nat) (earlier : string * PlatformWords.t),
            (j < i)%nat -> platform_table !! j = Some earlier ->
            ~ names_platform (snd earlier) name_lower) /\
     (detect_platform asset_name = None <->
        forall slot words, (slot, words) ∈ platform_table ->
          ~ names_platform words name_lower)) /\
  detect_platform "tool-darwin-arm64.tar.gz" = Some "macos_arm64" /\
  detect_platform "tool-darwin-arm64.sig" = None /\
  detect_platform "tool-linux-amd64.tar.gz" = Some "linux_x86_64" /\
  detect_platform "checksums.zip" = None.
Proof.
  intros name_lower. split; [reflexivity|].
  split; [|split; [|repeat split; vm_compute; reflexivity]].
  - intros H. unfold detect_platform. fold name_lower.
    destruct (is_archive name_lower) eqn:E; [|reflexivity].
    apply is_archive_spec in E. contradiction.
  - intros H. apply is_archive_spec in H.
    unfold detect_platform. fold name_lower. rewrite H. cbn [negb].
    rewrite platform_table_patterns. split.
    + intros slot. apply first_platform_names, platform_table_plain.
    + apply first_platform_names_None, platform_table_plain.
Qed.

Lemma C7_detect_platform_witness :
  exists (i : nat) (words : PlatformWords.t),
    platform_table !! i = Some ("linux_x86_64", words) /\
    names_platform words "tool_linux-x86_64.tar.gz" /\
    forall (j : nat) (earlier : string * PlatformWords.t),
      (j < i)%nat -> platform_table !! j = Some earlier ->
      ~ names_platform (snd earlier) "tool_linux-x86_64.tar.gz".
Proof.
  destruct (C7_detect_platform "Tool_Linux-x86_64.TAR.GZ") as (_ & _ & H & _).
  apply H.
  - exists "tool_linux-x86_64", ".tar.gz". split; [|reflexivity].
    apply elem_of_cons. now left.
  - vm_compute. reflexivity.
Defined.

(** ** The numeric order of minors *)

Lemma split_by_nonempty (is_sep : ascii -> bool) (s : string) :
  PyStr.split_by is_sep s <> [].
Proof.
  induction s as [|c s IH]; cbn [PyStr.split_by]; [discriminate|].
  destruct (is_sep c); [discriminate|].
  destruct (PyStr.split_by is_sep s); discriminate.
Qed.

Lemma split_cons_sep (sep : ascii) (s : string) :
  PyStr.split sep (String sep s) = EmptyString :: PyStr.split sep s.
Proof. unfold PyStr.split. cbn [PyStr.split_by]. now rewrite Ascii.eqb_refl. Qed.

Lemma split_cons_other (sep c : ascii) (s : string) :
  Ascii.eqb sep c = false ->
  exists w ws, PyStr.split sep s = w :: ws /\
               PyStr.split sep (String c s) = String c w :: ws.
Proof.
  intros H. unfold PyStr.split. cbn [PyStr.split_by]. rewrite H.
  destruct (PyStr.split_by (Ascii.eqb sep) s) as [|w ws] eqn:E.
  - now apply split_by_nonempty in E.
  - eauto.
Qed.

Lemma split_no_sep (sep : ascii) (s : string) :
  PyStr.char_in sep s = false -> PyStr.split sep s = [s].
Proof.
  induction s as [|c s IH]; [reflexivity|].
  rewrite char_in_cons. intros H. apply orb_false_iff in H as [Hc Hs].
  destruct (split_cons_other sep c s Hc) as (w & ws & Es & ->).
  rewrite (IH Hs) in Es. now injection Es as <- <-.
Qed.

Lemma split_app_sep (sep : ascii) (a rest : string) :
  PyStr.char_in sep a = false ->
  PyStr.split sep (a +:+ String sep rest) = a :: PyStr.split sep rest.
Proof.
  induction a as [|c a IH]; intros H.
  - rewrite str_app_nil_l. apply split_cons_sep.
  - rewrite char_in_cons in H. apply orb_false_iff in H as [Hc Ha].
    rewrite str_app_cons.
    destruct (split_cons_other sep c (a +:+ String sep rest) Hc)
      as (w & ws & Es & ->).
    rewrite (IH Ha) in Es. now injection Es as <- <-.
Qed.














(** ** Custom asset patterns *)

Lemma contains_spec (sub s : string) :
  PyStr.contains sub s = true <-> exists pre post, s = pre +:+ sub +:+ post.
Proof.
  induction s as [|c s IH]; cbn [PyStr.contains].
  - rewrite orb_false_r. split.
    + intros H. apply startswith_split in H as [rest ->]. now exists EmptyString, rest.
    + intros (pre & post & E). symmetry in E.
      apply str_app_eq_nil in E as [-> E].
      apply str_app_eq_nil in E as [-> _]. reflexivity.
  - rewrite orb_true_iff, IH. split.
    + intros [H|(pre & post & ->)].
      * apply startswith_split in H as [rest ->]. now exists EmptyString, rest.
      * now exists (String c pre), post.
    + intros (pre & post & E). symmetry in E.
      apply str_app_eq_cons in E as [[-> E]|(pre' & -> & ->)].
      * left. rewrite <- E. apply startswith_self_app.
      * right. eauto.
Qed.

Lemma lower_char_idem (c : ascii) :
  PyStr.lower_char (PyStr.lower_char c) = PyStr.lower_char c.
Proof. destruct c as [[] [] [] [] [] [] [] []]; reflexivity. Qed.

Lemma lower_idem (s : string) : PyStr.lower (PyStr.lower s) = PyStr.lower s.
Proof.
  induction s as [|c s IH]; [reflexivity|].
  cbn [PyStr.lower]. now rewrite lower_char_idem, IH.
Qed.

Lemma lower_app (a b : string) :
  PyStr.lower (a +:+ b) = PyStr.lower a +:+ PyStr.lower b.
Proof.
  induction a as [|c a IH]; [reflexivity|].
  rewrite str_app_cons. cbn [PyStr.lower]. now rewrite IH, str_app_cons.
Qed.

(** A custom pattern matches an asset name exactly when the
    lower-cased name contains the lower-cased pattern; so the test does not
    see the case of either, a name that contains the pattern as written
    matches, and the empty pattern matches every name. *)
Theorem match_asset_pattern_spec (asset_name pattern : string) :
  (match_asset_pattern asset_name pattern = true <->
   exists pre post,
     PyStr.lower asset_name = pre +:+ PyStr.lower pattern +:+ post) /\
  match_asset_pattern (PyStr.lower asset_name) (PyStr.lower pattern)
    = match_asset_pattern asset_name pattern /\
  (forall pre post, asset_name = pre +:+ pattern +:+ post ->
     match_asset_pattern asset_name pattern = true) /\
  match_asset_pattern asset_name EmptyString = true.
Proof.
  unfold match_asset_pattern. split; [apply contains_spec|].
  split; [now rewrite !lower_idem|]. split.
  - intros pre post ->. apply contains_spec.
    exists (PyStr.lower pre), (PyStr.lower post). now rewrite !lower_app.
  - apply contains_spec. now exists EmptyString, (PyStr.lower asset_name).
Qed.

Lemma match_asset_pattern_spec_witness :
  match_asset_pattern "Tool-Linux-AMD64.tar.gz" "linux-amd64" = true /\
  match_asset_pattern "tool-linux-amd64.tar.gz" "windows" = false.
Proof.
  split; [|reflexivity].
  destruct (match_asset_pattern_spec "Tool-Linux-AMD64.tar.gz" "linux-amd64")
    as [[_ H] _].
  apply H. exists "tool-", ".tar.gz". reflexivity.
Defined.

(** ** The mapping of a release *)

Lemma find_app_last {A : Type} (f : A -> bool) (l : list A) (x : A) :
  List.find f (l ++ [x])%list
  = match List.find f l with
    | Some y => Some y
    | None => if f x then Some x else None
    end.
Proof.
  induction l as [|y l IH]; simpl; [reflexivity|].
  destruct (f y); [reflexivity | exact IH].
Qed.

Lemma add_asset_get (project : Project.t) (acc : list (string * Asset.t))
    (d : AssetData.t) (slot : string) :
  PyDict.get slot (add_asset project acc d)
  = if bool_decide (classify project (AssetData.name d) = Some slot)
    then Some (asset_of d) else PyDict.get slot acc.
Proof.
  unfold add_asset.
  destruct (classify project (AssetData.name d)) as [platform|] eqn:E.
  - rewrite dict_get_set. destruct (String.eqb_spec slot platform) as [->|Hne].
    + now rewrite bool_decide_eq_true_2.
    + rewrite bool_decide_eq_false_2; [reflexivity | congruence].
  - now rewrite bool_decide_eq_false_2.
Qed.

Lemma find_release_assets_fold_get (project : Project.t)
    (entries : list AssetData.t) (acc : list (string * Asset.t)) (slot : string) :
  PyDict.get slot (fold_left (add_asset project) entries acc)
  = match last_filed project slot entries with
    | Some d => Some (asset_of d)
    | None => PyDict.get slot acc
    end.
Proof.
  unfold last_filed. revert acc.
  induction entries as [|d entries IH]; intros acc; [reflexivity|].
  cbn [fold_left rev]. rewrite IH, find_app_last, add_asset_get.
  destruct (List.find _ (rev entries)); [reflexivity|].
  now destruct (bool_decide _).
Qed.

Lemma find_release_assets_fold_keys (project : Project.t)
    (entries : list AssetData.t) (acc : list (string * Asset.t)) :
  NoDup (PyDict.keys acc) ->
  (forall k, k ∈ PyDict.keys acc -> k ∈ known_slots project) ->
  NoDup (PyDict.keys (fold_left (add_asset project) entries acc)) /\
  forall k, k ∈ PyDict.keys (fold_left (add_asset project) entries acc) ->
            k ∈ known_slots project.
Proof.
  revert acc. induction entries as [|d entries IH]; intros acc Hnd Hin;
    [now split|].
  cbn [fold_left]. apply IH.
  - unfold add_asset. destruct (classify project _) as [platform|]; [|exact Hnd].
    rewrite dict_keys_set. destruct (PyDict.mem platform acc) eqn:Hm; [exact Hnd|].
    apply NoDup_app. split; [exact Hnd|]. split; [|apply NoDup_singleton].
    intros x Hx Hx'. apply list_elem_of_singleton in Hx' as ->.
    apply dict_mem_keys in Hx. congruence.
  - intros k Hk. unfold add_asset in Hk.
    destruct (classify project (AssetData.name d)) as [platform|] eqn:E; [|auto].
    rewrite dict_keys_set in Hk.
    destruct (PyDict.mem platform acc); [auto|].
    apply elem_of_app in Hk as [Hk|Hk]; [auto|].
    apply list_elem_of_singleton in Hk as ->.
    unfold classify, known_slots in *.
    destruct (Project.asset_patterns project) as [|p0 ps] eqn:Ep.
    + unfold detect_platform in E.
      destruct (negb _); [discriminate|].
      apply first_platform_Some in E as (i & pats & Hi & _).
      apply list_elem_of_fmap. exists (platform, pats). split; [reflexivity|].
      eapply list_elem_of_lookup_2. exact Hi.
    + clear Ep. revert E. generalize (p0 :: ps). intros l.
      induction l as [|[s pat] l IHl]; simpl; [discriminate|].
      destruct (match_asset_pattern _ pat).
      * intros [= ->]. apply elem_of_cons. now left.
      * intros H. apply elem_of_cons. right. now apply IHl.
Qed.

(** Last match wins: the asset that the mapping of a release holds for a
    slot is the last asset of the release that is filed under the slot, and
    the slot is absent when no asset is. *)
Theorem find_release_assets_last_wins (release_data : ReleaseData.t)
    (project : Project.t) (slot : string) :
  PyDict.get slot (find_release_assets release_data project)
  = option_map asset_of
      (last_filed project slot (ReleaseData.assets release_data)).
Proof.
  unfold find_release_assets. rewrite find_release_assets_fold_get.
  now destruct (last_filed _ _ _).
Qed.

(** The mapping of a release has every slot at most once and only slots
    that the project knows: the four of the built-in table, or those of the
    custom patterns; under built-in detection it has at most four entries,
    however many assets the release has. *)
Theorem find_release_assets_slots (release_data : ReleaseData.t)
    (project : Project.t) :
  let assets := find_release_assets release_data project in
  NoDup (PyDict.keys assets) /\
  (forall k, k ∈ PyDict.keys assets -> k ∈ known_slots project) /\
  (length assets <= length (known_slots project))%nat /\
  (Project.asset_patterns project = [] -> (length assets <= 4)%nat).
Proof.
  cbv zeta.
  destruct (find_release_assets_fold_keys project
              (ReleaseData.assets release_data) []) as [Hnd Hin].
  { constructor. }
  { intros k Hk. inversion Hk. }
  fold (find_release_assets release_data project) in Hnd, Hin.
  assert (Hlen : (length (find_release_assets release_data project)
                  <= length (known_slots project))%nat).
  { rewrite <- (length_map fst (find_release_assets release_data project)).
    apply NoDup_incl_length.
    - now apply NoDup_ListNoDup.
    - intros k Hk. apply list_elem_of_In, Hin, list_elem_of_In, Hk. }
  split; [exact Hnd|]. split; [exact Hin|]. split; [exact Hlen|].
  intros Hp. unfold known_slots in Hlen. rewrite Hp in Hlen. exact Hlen.
Qed.

Lemma find_release_assets_slots_witness :
  let project := example_project 0 in
  let release_data := ReleaseData.mk "v1.0.0" false false
        [ AssetData.mk "a-linux-amd64.tar.gz" "u1";
          AssetData.mk "b-linux-x86_64.zip" "u2";
          AssetData.mk "c-darwin-arm64.tgz" "u3";
          AssetData.mk "d-linux64.tar.xz" "u4";
          AssetData.mk "e-macos-aarch64.zip" "u5" ] in
  (length (find_release_assets release_data project) <= 4)%nat /\
  PyDict.get "linux_x86_64" (find_release_assets release_data project)
    = Some (Asset.mk "d-linux64.tar.xz" "u4" EmptyString).
Proof.
  intros project release_data. split.
  - apply (find_release_assets_slots release_data project). reflexivity.
  - reflexivity.
Defined.

(** ** Splitting and the minor key *)

(** [sep.join(s.split(sep))] is [s]. *)
Lemma join_split (sep : ascii) (s : string) :
  PyStr.join (String sep EmptyString) (PyStr.split sep s) = s.
Proof.
  induction s as [|c s IH]; [reflexivity|].
  destruct (Ascii.eqb sep c) eqn:E.
  - apply Ascii.eqb_eq in E as <-. rewrite split_cons_sep.
    pose proof (split_by_nonempty (Ascii.eqb sep) s) as Hne.
    fold (PyStr.split sep s) in Hne.
    destruct (PyStr.split sep s) as [|w ws] eqn:Es; [contradiction|].
    cbn [PyStr.join]. cbn [PyStr.join] in IH.
    rewrite str_app_nil_l. change (String sep EmptyString +:+ ?x) with (String sep x).
    destruct ws; cbn [PyStr.join] in *; now rewrite IH.
  - destruct (split_cons_other sep c s E) as (w & ws & Es & ->).
    rewrite Es in IH. destruct ws as [|w' ws]; cbn [PyStr.join] in *.
    + now rewrite IH.
    + now rewrite str_app_cons, IH.
Qed.

Lemma split_pieces_no_sep (sep : ascii) (s piece : string) :
  piece ∈ PyStr.split sep s -> PyStr.char_in sep piece = false.
Proof.
  revert piece. induction s as [|c s IH]; intros piece H.
  - apply list_elem_of_singleton in H as ->. reflexivity.
  - destruct (Ascii.eqb sep c) eqn:E.
    + apply Ascii.eqb_eq in E as <-. rewrite split_cons_sep in H.
      apply elem_of_cons in H as [->|H]; [reflexivity | now apply IH].
    + destruct (split_cons_other sep c s E) as (w & ws & Es & Ec).
      rewrite Ec in H. apply elem_of_cons in H as [->|H].
      * rewrite char_in_cons, E. apply IH. rewrite Es. apply elem_of_cons. now left.
      * apply IH. rewrite Es. apply elem_of_cons. now right.
Qed.

Lemma extract_major_minor_two (p0 p1 : string) :
  PyStr.char_in "." p0 = false -> PyStr.char_in "." p1 = false ->
  extract_major_minor (p0 +:+ "." +:+ p1) = p0 +:+ "." +:+ p1.
Proof.
  intros H0 H1. unfold extract_major_minor.
  change (p0 +:+ "." +:+ p1) with (p0 +:+ String "." p1).
  now rewrite split_app_sep, split_no_sep.
Qed.

(** The minor key of a version: a version without a dot is its own key;
    otherwise the key is the first two dot-separated components, whatever
    follows them; the key is always a prefix of the version, has at most
    two components, and is its own key. *)
Theorem extract_major_minor_spec (version : string) :
  (PyStr.char_in "." version = false -> extract_major_minor version = version) /\
  (forall p0 p1 rest : string,
     PyStr.char_in "." p0 = false -> PyStr.char_in "." p1 = false ->
     version = p0 +:+ "." +:+ p1 \/ version = p0 +:+ "." +:+ p1 +:+ "." +:+ rest ->
     extract_major_minor version = p0 +:+ "." +:+ p1) /\
  PyStr.startswith (extract_major_minor version) version = true /\
  (length (PyStr.split "." (extract_major_minor version)) <= 2)%nat /\
  extract_major_minor (extract_major_minor version) = extract_major_minor version.
Proof.
  split; [|split].
  - intros H. unfold extract_major_minor. now rewrite split_no_sep.
  - intros p0 p1 rest H0 H1 [->| ->].
    + now apply extract_major_minor_two.
    + unfold extract_major_minor.
      change (p0 +:+ "." +:+ p1 +:+ "." +:+ rest)
        with (p0 +:+ String "." (p1 +:+ String "." rest)).
      now rewrite split_app_sep, split_app_sep.
  - pose proof (join_split "." version) as Hjoin.
    pose proof (split_pieces_no_sep "." version) as Hpieces.
    unfold extract_major_minor.
    destruct (PyStr.split "." version) as [|p0 [|p1 rest]] eqn:Es.
    + now apply split_by_nonempty in Es.
    + split; [|split].
      * rewrite <- (str_app_nil_r version) at 2. apply startswith_self_app.
      * rewrite Es. simpl. lia.
      * now rewrite Es.
    + assert (H0 : PyStr.char_in "." p0 = false)
        by (apply Hpieces, elem_of_cons; now left).
      assert (H1 : PyStr.char_in "." p1 = false)
        by (apply Hpieces, elem_of_cons; right; apply elem_of_cons; now left).
      split; [|split].
      * rewrite <- Hjoin. destruct rest as [|p2 rest]; cbn [PyStr.join].
        -- rewrite <- (str_app_nil_r (p0 +:+ "." +:+ p1)) at 2.
           apply startswith_self_app.
        -- rewrite !startswith_app. apply startswith_self_app.
      * change (p0 +:+ "." +:+ p1) with (p0 +:+ String "." p1).
        rewrite split_app_sep, split_no_sep by assumption. simpl. lia.
      * fold (extract_major_minor (p0 +:+ "." +:+ p1)).
        now apply extract_major_minor_two.
Qed.

Lemma extract_major_minor_spec_witness :
  extract_major_minor "2.10.3-rc.1" = "2.10" /\ extract_major_minor "7" = "7".
Proof.
  split.
  - destruct (extract_major_minor_spec "2.10.3-rc.1") as (_ & H & _).
    apply (H "2" "10" "3-rc.1"); [reflexivity | reflexivity | now right].
  - now apply (extract_major_minor_spec "7").
Defined.

(** ** What version extraction returns *)

Lemma extract_version_v_letters (n : nat) (s : string) :
  extract_version (v_letters n +:+ s) = extract_version s.
Proof.
  induction n as [|n IH]; [reflexivity|].
  cbn [v_letters]. now rewrite str_app_cons, extract_version_cons_v.
Qed.

Lemma extract_version_suffix (tag : string) :
  exists n : nat, tag = v_letters n +:+ extract_version tag.
Proof.
  induction tag as [|c tag IH].
  - now exists 0%nat.
  - destruct (Ascii.eqb c "v") eqn:E.
    + apply Ascii.eqb_eq in E as ->. rewrite extract_version_cons_v.
      destruct IH as [n Hn]. exists (S n). cbn [v_letters].
      now rewrite str_app_cons, <- Hn.
    + exists 0%nat. now rewrite extract_version_no_v.
Qed.

Lemma extract_version_no_leading_v (tag : string) :
  PyStr.startswith "v" (extract_version tag) = false.
Proof.
  induction tag as [|c tag IH]; [reflexivity|].
  destruct (Ascii.eqb c "v") eqn:E.
  - apply Ascii.eqb_eq in E as ->. now rewrite extract_version_cons_v.
  - rewrite extract_version_no_v by exact E.
    rewrite startswith_cons, Ascii.eqb_sym, E. reflexivity.
Qed.

(** The version of a tag is the tag without all its leading letters [v]:
    it never begins with [v], a tag that does not begin with [v] is its own
    version, and extracting again changes nothing. *)
Theorem extract_version_spec (tag : string) :
  (exists n : nat, tag = v_letters n +:+ extract_version tag) /\
  PyStr.startswith "v" (extract_version tag) = false /\
  (PyStr.startswith "v" tag = false -> extract_version tag = tag) /\
  extract_version (extract_version tag) = extract_version tag.
Proof.
  assert (Hno : forall s, PyStr.startswith "v" s = false -> extract_version s = s).
  { intros [|c s] H; [reflexivity|]. apply extract_version_no_v.
    rewrite startswith_cons in H. rewrite Ascii.eqb_sym.
    now destruct (Ascii.eqb "v" c). }
  split; [apply extract_version_suffix|].
  split; [apply extract_version_no_leading_v|].
  split; [apply Hno|]. apply Hno, extract_version_no_leading_v.
Qed.

Lemma extract_version_spec_witness : extract_version "1.2.3" = "1.2.3".
Proof. now apply (extract_version_spec "1.2.3"). Defined.

(** ** Invariants of the generated releases *)

Lemma with_checksums_Ok (github : GitHubAPI.t) (assets assets' : list (string * Asset.t)) :
  with_checksums github assets = Ok assets' ->
  PyDict.keys assets' = PyDict.keys assets /\
  forall slot a, (slot, a) ∈ assets' ->
    GitHubAPI.download_sha256 github (Asset.url a) = Ok (Asset.sha256 a) /\
    exists a0, (slot, a0) ∈ assets /\
               Asset.name a = Asset.name a0 /\ Asset.url a = Asset.url a0.
Proof.
  revert assets'. induction assets as [|[platform asset] rest IH]; intros assets'.
  - intros [= <-]. split; [reflexivity|]. intros ? ? H. inversion H.
  - cbn [with_checksums].
    destruct (GitHubAPI.download_sha256 github (Asset.url asset)) as [sha|] eqn:E;
      [|discriminate].
    destruct (with_checksums github rest) as [rest'|]; [|discriminate].
    intros [= <-]. destruct (IH rest' eq_refl) as [Hk Ha].
    split; [unfold PyDict.keys in *; simpl; now rewrite Hk|].
    intros slot a H. apply elem_of_cons in H as [[= -> ->]|H].
    + split; [exact E|]. exists asset. split; [apply elem_of_cons; now left|].
      now split.
    + destruct (Ha slot a H) as (Hs & a0 & H0 & Hn).
      split; [exact Hs|]. exists a0. split; [apply elem_of_cons; now right|exact Hn].
Qed.

Lemma generated_elem_of_list (github : GitHubAPI.t) (project : Project.t)
    (releases_by_minor : list (string * ReleaseData.t))
    (l : list string) (acc : list (string * Release.t))
    (mm : string) (r : Release.t) :
  (mm, r) ∈ fold_left (add_release github project releases_by_minor) l acc ->
  (mm, r) ∈ acc \/
  (mm ∈ l /\ release_of github project releases_by_minor mm = Some r).
Proof.
  revert acc. induction l as [|x l IH]; intros acc H; cbn [fold_left] in H;
    [now left|].
  apply IH in H as [H|[H1 H2]].
  - unfold add_release in H.
    destruct (release_of github project releases_by_minor x) as [rx|] eqn:E;
      [|now left].
    apply dict_elem_of_set in H as [[= -> ->]|H]; [|now left].
    right. split; [apply elem_of_cons; now left | exact E].
  - right. split; [apply elem_of_cons; now right | exact H2].
Qed.

Lemma generated_keys_NoDup (github : GitHubAPI.t) (project : Project.t)
    (releases_by_minor : list (string * ReleaseData.t))
    (l : list string) (acc : list (string * Release.t)) :
  NoDup (PyDict.keys acc) ->
  NoDup (PyDict.keys (fold_left (add_release github project releases_by_minor) l acc)).
Proof.
  revert acc. induction l as [|x l IH]; intros acc Hacc; cbn [fold_left];
    [exact Hacc|].
  apply IH. unfold add_release.
  destruct (release_of github project releases_by_minor x); [|exact Hacc].
  rewrite dict_keys_set. destruct (PyDict.mem x acc) eqn:Hm; [exact Hacc|].
  apply NoDup_app. split; [exact Hacc|]. split; [|apply NoDup_singleton].
  intros k Hk Hk'. apply list_elem_of_singleton in Hk' as ->.
  apply dict_mem_keys in Hk. congruence.
Qed.

Lemma first_seen_Some (mm : string) (releases_data : list ReleaseData.t)
    (rd : ReleaseData.t) :
  first_seen mm releases_data = Some rd ->
  rd ∈ releases_data /\ is_published rd = true /\ minor_of rd = mm.
Proof.
  unfold first_seen. intros H. apply find_some in H as [Hin H].
  apply andb_true_iff in H as [Hp Hm]. apply String.eqb_eq in Hm.
  split; [now apply list_elem_of_In|]. now split.
Qed.

(** The releases that the loop over the versions to keep generates: each is
    filed under its own minor, which is the minor of its version, and its
    version is the version of its tag; it is a published release of the
    list, has at least one asset, and every asset carries the digest of the
    download of its URL; no minor is generated twice. *)
Theorem generated_releases_invariant (github : GitHubAPI.t) (project : Project.t)
    (releases_data : list ReleaseData.t) (to_keep : list string)
    (generated : list (string * Release.t)) (w w' : World) :
  for_fold to_keep []
    (process_version github project (group_releases releases_data)) w
    = (Ok generated, w') ->
  NoDup (PyDict.keys generated) /\
  forall (mm : string) (r : Release.t),
    (mm, r) ∈ generated ->
    mm ∈ to_keep /\
    Release.major_minor r = mm /\
    Release.version r = extract_version (Release.tag r) /\
    extract_major_minor (Release.version r) = mm /\
    (exists rd : ReleaseData.t,
       rd ∈ releases_data /\ is_published rd = true /\
       ReleaseData.tag_name rd = Release.tag r /\
       PyDict.keys (Release.assets r)
         = PyDict.keys (find_release_assets rd project)) /\
    Release.assets r <> [] /\
    forall slot a, (slot, a) ∈ Release.assets r ->
      GitHubAPI.download_sha256 github (Asset.url a) = Ok (Asset.sha256 a).
Proof.
  intros Hrun.
  assert (Hgen : generated
                 = fold_left (add_release github project (group_releases releases_data))
                     to_keep []).
  { eapply for_fold_Ok; [|exact Hrun].
    intros s x w1 s' w2. apply process_version_Ok. }
  split.
  { rewrite Hgen. apply generated_keys_NoDup. constructor. }
  intros mm r Hin. rewrite Hgen in Hin.
  apply generated_elem_of_list in Hin as [Hin|[Hmm Hrel]]; [inversion Hin|].
  split; [exact Hmm|].
  unfold release_of in Hrel.
  destruct (PyDict.get mm (group_releases releases_data)) as [rd|] eqn:Hget;
    [|discriminate].
  unfold group_releases in Hget. rewrite group_fold_get in Hget. cbn in Hget.
  apply first_seen_Some in Hget as (Hrd & Hpub & Hminor).
  destruct (find_release_assets rd project) as [|a0 assets0] eqn:Hassets;
    [discriminate|].
  destruct (with_checksums github (a0 :: assets0)) as [assets'|] eqn:Hsum;
    [|discriminate].
  injection Hrel as <-. cbn [Release.major_minor Release.version Release.tag
                             Release.assets].
  apply with_checksums_Ok in Hsum as [Hkeys Hsha].
  split; [reflexivity|]. split; [reflexivity|]. split; [exact Hminor|].
  split; [|split].
  - exists rd. rewrite Hassets. auto.
  - intros ->. discriminate.
  - intros slot a Ha. now apply Hsha in Ha as [Ha _].
Qed.

Lemma generated_releases_invariant_witness :
  let github := example_github example_releases in
  let run := for_fold ["2.1"; "2.0"] []
               (process_version github (example_project 1)
                  (group_releases example_releases)) empty_world in
  match fst run with
  | Ok generated =>
      NoDup (PyDict.keys generated) /\
      Forall (fun item => extract_major_minor (Release.version (snd item)) = fst item)
        generated
  | Raise _ => False
  end.
Proof.
  intros github run.
  destruct run as [[generated|msg] w'] eqn:Hrun; [|vm_compute in Hrun; discriminate].
  destruct (generated_releases_invariant github (example_project 1)
              example_releases ["2.1"; "2.0"] generated empty_world w' Hrun)
    as [Hnd H].
  split; [exact Hnd|]. apply Forall_forall. intros [mm r] Hin.
  now destruct (H mm r Hin) as (_ & _ & _ & Hmm & _).
Defined.

(** ** The window of versions to keep *)

Lemma firstn_elem_of {A : Type} (x : A) (n : nat) (l : list A) :
  x ∈ firstn n l -> x ∈ l.
Proof.
  intros H. rewrite <- (firstn_skipn n l). apply elem_of_app. now left.
Qed.

Lemma StronglySorted_firstn {A : Type} (R : A -> A -> Prop) (n : nat) (l : list A) :
  StronglySorted R l -> StronglySorted R (firstn n l).
Proof.
  intros H. revert n. induction H as [|x l Hl IH Hall]; intros [|n]; simpl;
    try constructor.
  - apply IH.
  - apply Forall_forall. intros y Hy. rewrite Forall_forall in Hall.
    apply Hall. eapply firstn_elem_of. exact Hy.
Qed.

Lemma versions_to_keep_firstn (project : Project.t) (sorted : list string) :
  exists n : nat, versions_to_keep project sorted = firstn n sorted.
Proof.
  unfold versions_to_keep, slice_to. destruct (0 <=? _); eauto.
Qed.

(** The versions to keep, whatever the retention count (also a negative
    one): they are an initial part of the sorted minors, they are pairwise
    different and in descending order, each of them has a release of the
    list, published and of that minor, and when there are any the first is
    the newest minor. *)
Theorem versions_to_keep_invariant (project : Project.t)
    (releases_data : list ReleaseData.t) (sorted : list string) :
  sorted_versions (PyDict.keys (group_releases releases_data)) = Ok sorted ->
  let to_keep := versions_to_keep project sorted in
  (exists n : nat, to_keep = firstn n sorted) /\
  NoDup to_keep /\
  StronglySorted at_least_as_new to_keep /\
  (forall mm, mm ∈ to_keep ->
     exists rd, PyDict.get mm (group_releases releases_data) = Some rd /\
                rd ∈ releases_data /\ is_published rd = true /\
                minor_of rd = mm) /\
  (to_keep <> [] -> List.hd EmptyString to_keep = List.hd EmptyString sorted).
Proof.
  intros Hsorted to_keep.
  destruct (versions_to_keep_firstn project sorted) as [n Hn].
  fold to_keep in Hn.
  pose proof (sorted_versions_perm _ _ Hsorted) as Hperm.
  assert (Hnd : NoDup sorted).
  { rewrite Hperm. unfold group_releases. apply group_fold_NoDup. constructor. }
  split; [eauto|]. rewrite Hn. split; [|split; [|split]].
  - apply NoDup_ListNoDup. apply NoDup_ListNoDup in Hnd.
    rewrite <- (firstn_skipn n sorted) in Hnd.
    now apply List.NoDup_app_remove_r in Hnd.
  - apply StronglySorted_firstn. exact (sorted_versions_sorted _ _ Hsorted).
  - intros mm Hmm.
    assert (Hkey : mm ∈ PyDict.keys (group_releases releases_data)).
    { rewrite <- Hperm. eapply firstn_elem_of. exact Hmm. }
    apply dict_mem_keys in Hkey. unfold PyDict.mem in Hkey.
    destruct (PyDict.get mm (group_releases releases_data)) as [rd|] eqn:Hget;
      [|discriminate].
    exists rd. split; [reflexivity|].
    unfold group_releases in Hget. rewrite group_fold_get in Hget. cbn in Hget.
    now apply first_seen_Some.
  - destruct n, sorted; simpl; try contradiction; reflexivity.
Qed.

Lemma versions_to_keep_invariant_witness :
  let releases_data :=
    [ ReleaseData.mk "v1.9.0" false false [];
      ReleaseData.mk "v2.10.1" false false [];
      ReleaseData.mk "v2.10.0" false false [];
      ReleaseData.mk "v2.9.7" false false [] ] in
  versions_to_keep (example_project 1) ["2.10"; "2.9"; "1.9"] = ["2.10"; "2.9"] /\
  NoDup (versions_to_keep (example_project 1) ["2.10"; "2.9"; "1.9"]) /\
  StronglySorted at_least_as_new
    (versions_to_keep (example_project 1) ["2.10"; "2.9"; "1.9"]).
Proof.
  intros releases_data. split; [reflexivity|].
  destruct (versions_to_keep_invariant (example_project 1) releases_data
              ["2.10"; "2.9"; "1.9"] eq_refl) as (_ & Hnd & Hs & _).
  split; assumption.
Defined.

(** ** Cleanup: a dry run, and a second run *)

Lemma stale_files_after_cleanup (project_name : string) (keep_versions : list string)
    (dir : gmap string string) :
  stale_files project_name keep_versions
    (unlink_all (stale_files project_name keep_versions dir) dir) = [].
Proof.
  destruct (stale_files project_name keep_versions
              (unlink_all (stale_files project_name keep_versions dir) dir))
    as [|f rest] eqn:E; [reflexivity|]. exfalso.
  assert (Hf : f ∈ stale_files project_name keep_versions
                 (unlink_all (stale_files project_name keep_versions dir) dir)).
  { rewrite E. apply elem_of_cons. now left. }
  unfold stale_files in Hf at 1. apply stale_elem_of in Hf as [[content Hc] Hr].
  rewrite unlink_all_lookup in Hc.
  destruct (bool_decide _) eqn:Hb; [discriminate|].
  apply bool_decide_eq_false in Hb. apply Hb.
  unfold stale_files. apply stale_elem_of. split; [eauto | exact Hr].
Qed.

(** A dry run of the cleanup names exactly the files that the real cleanup
    removes, in the same order, and changes no file; after a real cleanup a
    second one with the same versions to keep finds nothing to remove,
    prints nothing and leaves the directory as it is. *)
Theorem cleanup_dry_run_and_rerun (project_name : string)
    (keep_versions : list string) (w : World) :
  plain_name project_name = true ->
  let dry := cleanup_old_versions project_name keep_versions true w in
  let real := cleanup_old_versions project_name keep_versions false w in
  fst dry = fst real /\
  files (snd dry) = files w /\
  (exists removed, fst real = Ok removed /\
     files (snd real) = unlink_all removed (files w) /\
     stdout (snd dry) = (stdout w ++ map (removal_report true) removed)%list /\
     stdout (snd real) = (stdout w ++ map (removal_report false) removed)%list) /\
  cleanup_old_versions project_name keep_versions false (snd real)
    = (Ok [], snd real).
Proof.
  intros _. cbv zeta. rewrite !cleanup_old_versions_run. cbn [fst snd files stdout].
  split; [reflexivity|]. split; [reflexivity|]. split; [eauto|].
  fold (stale_files project_name keep_versions (files w)).
  fold (stale_files project_name keep_versions
          (unlink_all (stale_files project_name keep_versions (files w)) (files w))).
  rewrite stale_files_after_cleanup. cbn [map unlink_all fold_left].
  now rewrite List.app_nil_r.
Qed.

Lemma cleanup_dry_run_and_rerun_witness :
  let dir : gmap string string :=
    list_to_map [("tool.rb", "latest"); ("tool@2.1.rb", "a"); ("tool@1.9.rb", "c")] in
  let w := mkWorld dir [] in
  fst (cleanup_old_versions "tool" ["2.1"] true w)
    = fst (cleanup_old_versions "tool" ["2.1"] false w) /\
  cleanup_old_versions "tool" ["2.1"] false
    (snd (cleanup_old_versions "tool" ["2.1"] false w))
    = (Ok [], snd (cleanup_old_versions "tool" ["2.1"] false w)).
Proof.
  intros dir w.
  destruct (cleanup_dry_run_and_rerun "tool" ["2.1"] w eq_refl) as (H1 & _ & _ & H2).
  split; [exact H1 | exact H2].
Defined.

(** ** Outcomes that do not depend on the world

    In the model a write to the formula directory always succeeds, so the
    result of a run is decided by the answers of the network. *)




Lemma always_ok_ret {A : Type} (a : A) : always_ok (ret a).
Proof. intros w. now exists a. Qed.



Lemma always_ok_bind {A B : Type} (c : M A) (k : A -> M B) :
  always_ok c -> (forall a, always_ok (k a)) -> always_ok (bind c k).
Proof.
  intros Hc Hk w. unfold bind. destruct (Hc w) as [a Ha].
  destruct (c w) as [[a'|msg] w1]; simpl in Ha; [|discriminate].
  apply Hk.
Qed.





Lemma always_ok_cleanup (project_name : string) (keep_versions : list string)
    (dry_run : bool) :
  always_ok (cleanup_old_versions project_name keep_versions dry_run).
Proof. intros w. rewrite cleanup_old_versions_run. eauto. Qed.

Lemma always_ok_tail (project : Project.t) (latest_version : string)
    (dry_run : bool) (generated : list (string * Release.t)) :
  always_ok
    (bind (if 0 <? Project.keep_versions project
           then bind (cleanup_old_versions (Project.name project)
                        (PyDict.keys generated) dry_run)
                  (fun _ => ret tt)
           else ret tt)
       (fun _ => ret true)).
Proof.
  apply always_ok_bind; [|intros; apply always_ok_ret].
  destruct (0 <? _); [|apply always_ok_ret].
  apply always_ok_bind; [apply always_ok_cleanup | intros; apply always_ok_ret].
Qed.






(** ** The files of other projects *)

Lemma same_outside_refl (name : string) (dir : gmap string string) :
  same_outside name dir dir.
Proof. intros f _ _. reflexivity. Qed.

Lemma same_outside_trans (name : string) (d1 d2 d3 : gmap string string) :
  same_outside name d1 d2 -> same_outside name d2 d3 -> same_outside name d1 d3.
Proof. intros H12 H23 f Hc Hg. now rewrite H23, H12. Qed.

Lemma own_keeps {A : Type} (name : string) (c : M A) :
  keeps_files c -> touches_own_files name c.
Proof. intros H w. rewrite H. apply same_outside_refl. Qed.

Lemma own_bind {A B : Type} (name : string) (c : M A) (k : A -> M B) :
  touches_own_files name c -> (forall a, touches_own_files name (k a)) ->
  touches_own_files name (bind c k).
Proof.
  intros Hc Hk w. unfold bind. specialize (Hc w).
  destruct (c w) as [[a|msg] w1]; simpl in *.
  - eapply same_outside_trans; [exact Hc | apply Hk].
  - exact Hc.
Qed.

Lemma own_for_each {A : Type} (name : string) (l : list A) (body : A -> M unit) :
  (forall x, touches_own_files name (body x)) ->
  touches_own_files name (for_each l body).
Proof.
  intros H. induction l as [|x l IH]; simpl.
  - apply own_keeps, keeps_ret.
  - apply own_bind; auto.
Qed.

Lemma own_write_canonical (name content : string) :
  touches_own_files name (write_file (name +:+ ".rb") content).
Proof.
  intros w f Hc _. cbn [write_file snd files]. apply lookup_insert_ne. congruence.
Qed.

Lemma own_write_pinned (name major_minor content : string) :
  plain_name name = true ->
  touches_own_files name
    (write_file (name +:+ "@" +:+ major_minor +:+ ".rb") content).
Proof.
  intros Hplain w f _ Hg. cbn [write_file snd files]. apply lookup_insert_ne.
  intros <-. rewrite glob_match_pinned in Hg by exact Hplain. discriminate.
Qed.

Lemma own_write_formulas (project : Project.t) (latest_version : string)
    (dry_run : bool) (item : string * Release.t) :
  plain_name (Project.name project) = true ->
  touches_own_files (Project.name project)
    (write_formulas project latest_version dry_run item).
Proof.
  intros Hplain.
  destruct dry_run; [apply own_keeps, keeps_write_formulas_dry_run|].
  unfold write_formulas. destruct item as [major_minor release].
  apply own_bind.
  - destruct (String.eqb _ _); [|apply own_keeps, keeps_ret].
    apply own_bind; [apply own_write_canonical|].
    intros _. apply own_keeps, keeps_print.
  - intros _. destruct (0 <? _); [|apply own_keeps, keeps_ret].
    apply own_bind; [now apply own_write_pinned|].
    intros _. apply own_keeps, keeps_print.
Qed.

Lemma own_cleanup (name : string) (keep_versions : list string) (dry_run : bool) :
  touches_own_files name (cleanup_old_versions name keep_versions dry_run).
Proof.
  intros w f _ Hg. rewrite cleanup_old_versions_run. cbn [snd files].
  destruct dry_run; [reflexivity|].
  rewrite unlink_all_lookup, bool_decide_eq_false_2; [reflexivity|].
  intros H. apply stale_elem_of in H as [_ H]. unfold to_remove in H.
  rewrite Hg in H. discriminate.
Qed.

Lemma own_process_releases (github : GitHubAPI.t) (project : Project.t)
    (dry_run : bool) :
  plain_name (Project.name project) = true ->
  touches_own_files (Project.name project)
    (process_releases github project dry_run).
Proof.
  intros Hplain. unfold process_releases.
  apply own_bind; [apply own_keeps, keeps_lift|]. intros releases_data.
  destruct releases_data.
  { apply own_keeps, keeps_bind; [apply keeps_print | intros; apply keeps_ret]. }
  destruct (group_releases _).
  { apply own_keeps, keeps_bind; [apply keeps_print | intros; apply keeps_ret]. }
  apply own_bind; [apply own_keeps, keeps_lift|]. intros sorted.
  apply own_bind; [apply own_keeps, keeps_print|]. intros _.
  apply own_bind; [apply own_keeps, keeps_print|]. intros _.
  apply own_bind.
  { apply own_keeps, keeps_for_fold. intros. apply keeps_process_version. }
  intros generated. destruct generated as [|g generated].
  { apply own_keeps, keeps_bind; [apply keeps_print | intros; apply keeps_ret]. }
  apply own_bind.
  { apply own_for_each. intros. now apply own_write_formulas. }
  intros _. apply own_bind; [|intros; apply own_keeps, keeps_ret].
  destruct (0 <? _); [|apply own_keeps, keeps_ret].
  apply own_bind; [apply own_cleanup|]. intros; apply own_keeps, keeps_ret.
Qed.

Lemma process_project_same_outside (github : GitHubAPI.t)
    (project : Project.t) (dry_run : bool) (w : World) :
  plain_name (Project.name project) = true ->
  same_outside (Project.name project) (files w)
    (files (snd (process_project github project dry_run w))).
Proof.
  intros Hplain. unfold process_project. cbn [print].
  destruct (fill_repo_info github project) as [p|msg] eqn:Hfill;
    [|apply same_outside_refl].
  apply fill_repo_info_name in Hfill as (Hname & _).
  match goal with
  | |- context [process_releases github p dry_run ?w0] =>
      pose proof (own_process_releases github p dry_run) as H;
      rewrite Hname in H; specialize (H Hplain w0);
      destruct (process_releases github p dry_run w0) as [[b|m] w1]
  end; exact H.
Qed.

(** Processing a project never touches the files of another one: whatever
    the outcome, a file of the directory that is neither the canonical file
    of the project nor matched by the glob of its pinned files is after the
    call what it was before. *)
Theorem process_project_touches_own_files (github : GitHubAPI.t)
    (project : Project.t) (dry_run : bool) (w : World) (f : string) :
  plain_name (Project.name project) = true ->
  f <> canonical_file project ->
  glob_match (Project.name project +:+ "@*.rb") f = false ->
  files (snd (process_project github project dry_run w)) !! f = files w !! f.
Proof.
  intros Hplain Hc Hg.
  now apply (process_project_same_outside github project dry_run w Hplain).
Qed.

Lemma process_project_touches_own_files_witness :
  let dir : gmap string string :=
    list_to_map [("other.rb", "x"); ("other@1.0.rb", "y")] in
  let run := process_project (example_github example_releases)
               (example_project 1) false (mkWorld dir []) in
  files (snd run) !! "other@1.0.rb" = Some "y" /\
  files (snd run) !! "other.rb" = Some "x".
Proof.
  intros dir run. unfold run. split.
  - rewrite process_project_touches_own_files; reflexivity || discriminate.
  - rewrite process_project_touches_own_files; reflexivity || discriminate.
Defined.

(** ** The pinned files after a successful run *)

Lemma str_app_inv_tail (a b c : string) : a +:+ c = b +:+ c -> a = b.
Proof.
  revert b. induction a as [|x a IH]; intros [|y b] H.
  - reflexivity.
  - apply (f_equal String.length) in H.
    rewrite str_app_nil_l, str_app_cons in H.
    cbn [String.length] in H. rewrite str_length_app in H. lia.
  - apply (f_equal String.length) in H.
    rewrite str_app_nil_l, str_app_cons in H.
    cbn [String.length] in H. rewrite str_length_app in H. lia.
  - rewrite !str_app_cons in H. injection H as -> H. f_equal. now apply IH.
Qed.

Lemma str_app_inv_head (a b c : string) : a +:+ b = a +:+ c -> b = c.
Proof.
  induction a as [|x a IH]; intros H.
  - now rewrite !str_app_nil_l in H.
  - rewrite !str_app_cons in H. injection H as H. now apply IH.
Qed.

Lemma pinned_file_inj (project_name mm mm' : string) :
  pinned_file project_name mm = pinned_file project_name mm' -> mm = mm'.
Proof.
  unfold pinned_file. intros H.
  apply str_app_inv_head, str_app_inv_head in H.
  now apply str_app_inv_tail in H.
Qed.

Lemma write_step_pinned_other (project : Project.t) (latest_version : string)
    (dir : gmap string string) (mm mm' : string) (r' : Release.t) :
  mm' <> mm ->
  write_step project latest_version dir (mm', r')
    !! pinned_file (Project.name project) mm
  = dir !! pinned_file (Project.name project) mm.
Proof.
  intros Hne. unfold write_step.
  assert (Hc : (if String.eqb mm' latest_version
                then <[canonical_file project := generate_formula project r' false]> dir
                else dir) !! pinned_file (Project.name project) mm
               = dir !! pinned_file (Project.name project) mm).
  { destruct (String.eqb mm' latest_version); [|reflexivity].
    apply lookup_insert_ne. apply canonical_not_pinned. }
  destruct (0 <? Project.keep_versions project); [|exact Hc].
  rewrite lookup_insert_ne; [exact Hc|].
  intros H. apply pinned_file_inj in H. contradiction.
Qed.

Lemma write_step_pinned_same (project : Project.t) (latest_version : string)
    (dir : gmap string string) (mm : string) (r : Release.t) :
  0 < Project.keep_versions project ->
  write_step project latest_version dir (mm, r)
    !! pinned_file (Project.name project) mm
  = Some (generate_formula project r true).
Proof.
  intros Hk. unfold write_step.
  apply Z.ltb_lt in Hk. rewrite Hk. apply lookup_insert_eq.
Qed.

Lemma write_loop_pinned_absent (project : Project.t) (latest_version : string)
    (items : list (string * Release.t)) (dir : gmap string string) (mm : string) :
  mm ∉ PyDict.keys items ->
  fold_left (write_step project latest_version) items dir
    !! pinned_file (Project.name project) mm
  = dir !! pinned_file (Project.name project) mm.
Proof.
  revert dir. induction items as [|[mm' r'] items IH]; intros dir Hnot.
  - reflexivity.
  - cbn [fold_left]. unfold PyDict.keys in Hnot, IH. cbn [map fst] in Hnot.
    rewrite IH by (intros H; apply Hnot; now right).
    apply write_step_pinned_other. intros ->. apply Hnot. now left.
Qed.

Lemma write_loop_pinned_present (project : Project.t) (latest_version : string)
    (items : list (string * Release.t)) (dir : gmap string string)
    (mm : string) (r : Release.t) :
  0 < Project.keep_versions project ->
  (forall r', (mm, r') ∈ items -> r' = r) ->
  (mm, r) ∈ items ->
  fold_left (write_step project latest_version) items dir
    !! pinned_file (Project.name project) mm
  = Some (generate_formula project r true).
Proof.
  intros Hk. revert dir.
  induction items as [|[mm' r'] items IH]; intros dir Huniq Hin.
  - inversion Hin.
  - cbn [fold_left].
    destruct (decide (mm ∈ PyDict.keys items)) as [Hkeys|Hkeys].
    + apply IH.
      * intros r'' H. apply Huniq. now right.
      * unfold PyDict.keys in Hkeys. apply list_elem_of_fmap in Hkeys
          as ([mm'' r''] & Heq & Hin'). cbn in Heq. subst mm''.
        rewrite <- (Huniq r'') by (now right). exact Hin'.
    + rewrite write_loop_pinned_absent by exact Hkeys.
      apply elem_of_cons in Hin as [Heq|Hin].
      * injection Heq as <- <-. now apply write_step_pinned_same.
      * exfalso. apply Hkeys. unfold PyDict.keys.
        apply list_elem_of_fmap. exists (mm, r). split; [reflexivity|exact Hin].
Qed.

Lemma dict_NoDup_unique {V : Type} (d : list (string * V)) (k : string) (v v' : V) :
  NoDup (PyDict.keys d) -> (k, v) ∈ d -> (k, v') ∈ d -> v = v'.
Proof.
  unfold PyDict.keys. induction d as [|[k0 v0] d IH]; intros Hnd Hin Hin'.
  - inversion Hin.
  - cbn [map fst] in Hnd. apply NoDup_cons in Hnd as [Hnot Hnd].
    apply elem_of_cons in Hin as [Heq|Hin];
      apply elem_of_cons in Hin' as [Heq'|Hin'].
    + congruence.
    + exfalso. apply Hnot. injection Heq as <- <-.
      apply list_elem_of_fmap. now exists (k, v').
    + exfalso. apply Hnot. injection Heq' as <- <-.
      apply list_elem_of_fmap. now exists (k, v).
    + now apply IH.
Qed.

Lemma directory_after_pinned (project : Project.t) (latest_version : string)
    (generated : list (string * Release.t)) (dir : gmap string string)
    (major minor : string) :
  plain_name (Project.name project) = true ->
  0 < Project.keep_versions project ->
  NoDup (PyDict.keys generated) ->
  is_number major = true -> is_number minor = true ->
  directory_after project latest_version generated dir
    !! pinned_file (Project.name project) (major +:+ "." +:+ minor)
  = option_map (fun r => generate_formula project r true)
      (PyDict.get (major +:+ "." +:+ minor) generated).
Proof.
  intros Hplain Hk Hnodup Hmaj Hmin. unfold directory_after.
  pose proof Hk as Hk'. apply Z.ltb_lt in Hk'. rewrite Hk'.
  set (mm := major +:+ "." +:+ minor).
  rewrite unlink_all_lookup.
  assert (Hrem : to_remove (Project.name project) (PyDict.keys generated)
                   (pinned_file (Project.name project) mm)
                 = negb (bool_decide (mm ∈ PyDict.keys generated))).
  { unfold to_remove. unfold pinned_file at 1.
    rewrite glob_match_pinned by exact Hplain.
    unfold mm. now rewrite pinned_minor_pinned_file. }
  destruct (PyDict.get mm generated) as [r|] eqn:Hget; cbn [option_map].
  - assert (Hin : (mm, r) ∈ generated) by now apply dict_get_elem_of.
    assert (Hkeys : mm ∈ PyDict.keys generated).
    { unfold PyDict.keys. apply list_elem_of_fmap. now exists (mm, r). }
    rewrite bool_decide_eq_false_2.
    + apply write_loop_pinned_present; [exact Hk| |exact Hin].
      intros r' Hin'. exact (dict_NoDup_unique _ _ _ _ Hnodup Hin' Hin).
    + intros H. apply stale_elem_of in H as [_ H]. rewrite Hrem in H.
      rewrite bool_decide_eq_true_2 in H by exact Hkeys. discriminate.
  - assert (Hkeys : mm ∉ PyDict.keys generated).
    { intros H. apply dict_mem_keys in H. unfold PyDict.mem in H.
      rewrite Hget in H. discriminate. }
    destruct (bool_decide (_ ∈ stale_files _ _ _)) eqn:Hst; [reflexivity|].
    apply bool_decide_eq_false in Hst.
    destruct (fold_left (write_step project latest_version) generated dir
                !! pinned_file (Project.name project) mm) eqn:Hw; [|reflexivity].
    exfalso. apply Hst. apply stale_elem_of. split; [now rewrite Hw|].
    rewrite Hrem. now rewrite bool_decide_eq_false_2.
Qed.

Lemma generated_get_window (github : GitHubAPI.t) (project : Project.t)
    (releases_by_minor : list (string * ReleaseData.t))
    (to_keep : list string) (mm : string) :
  PyDict.get mm (fold_left (add_release github project releases_by_minor) to_keep [])
  = if bool_decide (mm ∈ to_keep)
    then release_of github project releases_by_minor mm
    else None.
Proof.
  set (generated := fold_left _ to_keep []).
  assert (Hnone : forall mm',
            (forall r, ~ (mm' ∈ to_keep /\
                          release_of github project releases_by_minor mm' = Some r)) ->
            PyDict.get mm' generated = None).
  { intros mm' Hno. destruct (PyDict.get mm' generated) as [r|] eqn:Hget;
      [|reflexivity].
    exfalso. apply dict_get_elem_of in Hget.
    apply generated_elem_of_list in Hget as [Hget|Hget]; [inversion Hget|].
    exact (Hno r Hget). }
  case_bool_decide as Hin.
  - destruct (release_of github project releases_by_minor mm) as [r|] eqn:Hrel.
    + now apply generated_get.
    + apply Hnone. intros r [_ H]. congruence.
  - apply Hnone. intros r [H _]. contradiction.
Qed.

(** After a successful run that keeps past versions, the pinned files of
    the project are exactly the formulas of the releases that were
    generated: for a minor [major.minor] of two numbers, the pinned file
    holds the versioned formula of the release chosen for that minor when
    the minor is in the retention window and its release has a matching
    asset, and there is no such file otherwise, whatever the directory
    held before. A minor of the window whose release has no matching asset
    loses its pinned file. *)
Theorem process_project_pinned_files (github : GitHubAPI.t)
    (project project' : Project.t) (w w' : World)
    (releases_data : list ReleaseData.t) (sorted : list string)
    (major minor : string) :
  plain_name (Project.name project) = true ->
  0 < Project.keep_versions project ->
  process_project github project false w = (true, project', w') ->
  GitHubAPI.get_releases github (Project.repo project) 30 = Ok releases_data ->
  sorted_versions (PyDict.keys (group_releases releases_data)) = Ok sorted ->
  is_number major = true -> is_number minor = true ->
  files w' !! pinned_file (Project.name project) (major +:+ "." +:+ minor)
  = if bool_decide (major +:+ "." +:+ minor ∈ versions_to_keep project sorted)
    then option_map (fun release => generate_formula project' release true)
           (release_of github project' (group_releases releases_data)
              (major +:+ "." +:+ minor))
    else None.
Proof.
  intros Hplain Hk Hrun Hrel Hsorted Hmaj Hmin.
  apply process_project_true in Hrun as (Hfill & w0 & Hw0 & Hrun).
  apply fill_repo_info_name in Hfill as (Hname & Hrepo & Hkeep & _).
  apply process_releases_true in Hrun
    as (releases_data' & sorted' & Hrel' & Hsorted' & _ & _ & Hfiles).
  rewrite Hrepo, Hrel in Hrel'. injection Hrel' as <-.
  rewrite Hsorted in Hsorted'. injection Hsorted' as <-.
  rewrite Hfiles, <- Hname.
  rewrite directory_after_pinned;
    [ | now rewrite Hname | now rewrite Hkeep
      | apply generated_keys_NoDup; constructor | exact Hmaj | exact Hmin ].
  rewrite generated_get_window.
  assert (Hwin : versions_to_keep project' sorted = versions_to_keep project sorted).
  { unfold versions_to_keep. now rewrite Hkeep. }
  rewrite Hwin. now destruct (bool_decide _).
Qed.

Lemma process_project_pinned_files_witness :
  let dir : gmap string string :=
    list_to_map [("tool@2.1.rb", "old"); ("tool@1.9.rb", "old")] in
  let run := process_project (example_github example_releases)
               (example_project 2) false (mkWorld dir []) in
  fst (fst run) = true /\
  files (snd run) !! "tool@2.1.rb" = None /\
  files (snd run) !! "tool@1.9.rb" = None /\
  exists assets' : list (string * Asset.t),
    files (snd run) !! "tool@2.0.rb"
    = Some (generate_formula (example_project 2)
              (Release.mk "v2.0.0" "2.0.0" "2.0" assets') true).
Proof.
  intros dir run.
  assert (Hrun : process_project (example_github example_releases)
                   (example_project 2) false (mkWorld dir [])
                 = (true, example_project 2, snd run)).
  { vm_compute. reflexivity. }
  pose proof (fun major minor =>
    process_project_pinned_files (example_github example_releases)
      (example_project 2) (example_project 2) (mkWorld dir []) (snd run)
      example_releases ["2.1"; "2.0"] major minor
      eq_refl eq_refl Hrun eq_refl eq_refl) as H.
  split; [unfold run; now rewrite Hrun|].
  split; [exact (H "2" "1" eq_refl eq_refl)|].
  split; [exact (H "1" "9" eq_refl eq_refl)|].
  eexists. exact (H "2" "0" eq_refl eq_refl).
Defined.

(** ** The command line *)










Lemma process_all_dry_run (github : GitHubAPI.t) (projects : list Project.t)
    (n : nat) (w : World) :
  files (snd (process_all github projects true n w)) = files w.
Proof.
  revert n w. induction projects as [|p projects IH]; intros n w; [reflexivity|].
  cbn [process_all].
  pose proof (process_project_dry_run_files github p w) as H.
  destruct (process_project github p true w) as [[ok p'] w1].
  rewrite IH. exact H.
Qed.

Lemma process_all_same_outside (github : GitHubAPI.t) (projects : list Project.t)
    (dry_run : bool) (n : nat) (w : World) (f : string) :
  Forall (fun p => plain_name (Project.name p) = true /\
                   f <> canonical_file p /\
                   glob_match (Project.name p +:+ "@*.rb") f = false) projects ->
  files (snd (process_all github projects dry_run n w)) !! f = files w !! f.
Proof.
  revert n w. induction projects as [|p projects IH]; intros n w H; [reflexivity|].
  apply Forall_cons in H as [(Hplain & Hc & Hg) H].
  cbn [process_all].
  pose proof (process_project_same_outside github p dry_run w Hplain f Hc Hg) as Hp.
  destruct (process_project github p dry_run w) as [[ok p'] w1].
  rewrite IH by exact H. exact Hp.
Qed.

Lemma main_files (args : Args.t) (config_file : option (option (list ConfigItem.t)))
    (github : GitHubAPI.t) (w : World) :
  files (snd (main args config_file github w)) = files w \/
  exists projects document,
    config_file = Some document /\ load_config document = Ok projects /\
    files (snd (main args config_file github w))
    = files (snd (process_all github (selected_projects args projects)
                    (Args.dry_run args) 0 w)).
Proof.
  unfold main, selected_projects.
  destruct config_file as [document|]; [|now left].
  destruct (load_config document) as [projects|msg] eqn:Hload; [|now left].
  destruct (Args.list args).
  { left. cbn [print].
    match goal with
    | |- context [for_each projects ?body ?w0] =>
        pose proof (keeps_for_each projects body
                      (fun p => keeps_print (list_line p)) w0) as H;
        destruct (for_each projects body w0) as [r w1]
    end. exact H. }
  assert (Hrep : forall l,
            files (snd (process_and_report github l (Args.dry_run args) w))
            = files (snd (process_all github l (Args.dry_run args) 0 w))).
  { intros l. unfold process_and_report.
    destruct (process_all github l (Args.dry_run args) 0 w) as [k w1]. reflexivity. }
  destruct (truthy (get_default (Args.project args) EmptyString)).
  - destruct (List.filter _ projects) as [|p l] eqn:Hf; [now left|].
    right. exists projects, document. rewrite Hf. auto.
  - right. exists projects, document. auto.
Qed.

(** With [--dry-run] the formula directory is left as it is, whatever the
    other arguments, the configuration and the answers of the network. *)
Theorem main_dry_run_keeps_directory (args : Args.t)
    (config_file : option (option (list ConfigItem.t)))
    (github : GitHubAPI.t) (w : World) :
  Args.dry_run args = true ->
  files (snd (main args config_file github w)) = files w.
Proof.
  intros Hdry.
  destruct (main_files args config_file github w)
    as [H|(projects & document & _ & _ & H)]; [exact H|].
  rewrite H, Hdry. apply process_all_dry_run.
Qed.

Lemma main_dry_run_keeps_directory_witness :
  let dir : gmap string string := list_to_map [("tool.rb", "old")] in
  files (snd (main (Args.mk "projects.yaml" None false true)
                (Some (Some [ConfigItem.Str "acme/tool"]))
                (example_github example_releases) (mkWorld dir []))) = dir.
Proof.
  intros dir. now rewrite main_dry_run_keeps_directory.
Defined.

(** A run changes no file but the formula files of the projects it
    processes: a file that is neither the canonical file nor, by the glob,
    a pinned file of a selected project is afterwards what it was
    before. *)
Theorem main_touches_selected_only (args : Args.t)
    (document : option (list ConfigItem.t)) (projects : list Project.t)
    (github : GitHubAPI.t) (w : World) (f : string) :
  load_config document = Ok projects ->
  Forall (fun p => plain_name (Project.name p) = true /\
                   f <> canonical_file p /\
                   glob_match (Project.name p +:+ "@*.rb") f = false)
    (selected_projects args projects) ->
  files (snd (main args (Some document) github w)) !! f = files w !! f.
Proof.
  intros Hload Hall.
  destruct (main_files args (Some document) github w)
    as [H|(projects' & document' & Hdoc & Hload' & H)]; [now rewrite H|].
  injection Hdoc as <-. rewrite Hload in Hload'. injection Hload' as <-.
  rewrite H. now apply process_all_same_outside.
Qed.

Lemma main_touches_selected_only_witness :
  let dir : gmap string string :=
    list_to_map [("other.rb", "x"); ("other@1.0.rb", "y")] in
  files (snd (main (Args.mk "projects.yaml" (Some "tool") false false)
                (Some (Some [ConfigItem.Str "acme/tool"; ConfigItem.Str "acme/other"]))
                (example_github example_releases) (mkWorld dir [])))
    !! "other.rb" = Some "x".
Proof.
  intros dir.
  erewrite main_touches_selected_only; [reflexivity | reflexivity |].
  repeat constructor; discriminate.
Defined.

(** ** A tag that is not a version *)

Lemma map_result_Raise {A B : Type} (f : A -> result B) (l : list A) (x : A) :
  x ∈ l -> (forall y, f x <> Ok y) -> exists msg, map_result f l = Raise msg.
Proof.
  intros Hin Hx. induction l as [|a l IH]; [inversion Hin|].
  cbn [map_result]. apply elem_of_cons in Hin as [<-|Hin].
  - destruct (f x) as [y|msg]; [now contradiction (Hx y) | eauto].
  - destruct (f a) as [y|msg]; [|eauto].
    destruct (IH Hin) as [msg ->]. eauto.
Qed.

Lemma sorted_versions_Raise (keys : list string) (v : string) :
  v ∈ keys -> (forall k, sort_key v <> Ok k) ->
  exists msg, sorted_versions keys = Raise msg.
Proof.
  intros Hin Hv. unfold sorted_versions.
  destruct (map_result_Raise
              (fun v => match sort_key v with
                        | Ok k => Ok (k, v)
                        | Raise msg => Raise msg
                        end) keys v Hin) as [msg ->]; [|eauto].
  intros [k v']. destruct (sort_key v) as [k'|]; [|discriminate].
  now contradiction (Hv k').
Qed.

Lemma group_releases_keys (releases_data : list ReleaseData.t)
    (release_data : ReleaseData.t) :
  release_data ∈ releases_data -> is_published release_data = true ->
  minor_of release_data ∈ PyDict.keys (group_releases releases_data).
Proof.
  intros Hin Hpub. apply dict_mem_keys. unfold PyDict.mem, group_releases.
  rewrite group_fold_get. cbn [PyDict.get]. unfold first_seen.
  destruct (List.find _ releases_data) eqn:Hfind; [reflexivity|].
  apply list_elem_of_In in Hin.
  apply (find_none _ _ Hfind) in Hin.
  rewrite Hpub, String.eqb_refl in Hin. discriminate.
Qed.

(** One published release whose tag does not give a numeric major.minor
    makes the whole project fail, wherever it stands among the releases
    fetched and however many good releases there are: the sort key is
    computed for every minor before any formula is generated. *)
Theorem process_project_bad_tag (github : GitHubAPI.t) (project : Project.t)
    (dry_run : bool) (w : World) (releases_data : list ReleaseData.t)
    (release_data : ReleaseData.t) :
  GitHubAPI.get_releases github (Project.repo project) 30 = Ok releases_data ->
  release_data ∈ releases_data ->
  is_published release_data = true ->
  (forall k : list Z, sort_key (minor_of release_data) <> Ok k) ->
  fst (fst (process_project github project dry_run w)) = false.
Proof.
  intros Hrel Hin Hpub Hkey. unfold process_project. cbn [print].
  destruct (fill_repo_info github project) as [p|msg] eqn:Hfill; [|reflexivity].
  apply fill_repo_info_name in Hfill as (_ & Hrepo & _).
  pose proof (group_releases_keys _ _ Hin Hpub) as Hkeys.
  destruct (sorted_versions_Raise _ _ Hkeys Hkey) as [msg Hsorted].
  unfold process_releases, bind, lift. rewrite Hrepo, Hrel.
  destruct releases_data as [|rd0 rest]; [inversion Hin|].
  destruct (group_releases (rd0 :: rest)) as [|g0 grest] eqn:Hgroup;
    [inversion Hkeys|].
  rewrite Hsorted. reflexivity.
Qed.

Lemma process_project_bad_tag_witness :
  let bad := ReleaseData.mk "release-1.2" false false [] in
  fst (fst (process_project (example_github (example_releases ++ [bad]))
              (example_project 1) false empty_world)) = false.
Proof.
  intros bad.
  apply (process_project_bad_tag _ _ _ _ (example_releases ++ [bad]) bad).
  - reflexivity.
  - apply elem_of_app. right. apply elem_of_cons. now left.
  - reflexivity.
  - intros k. vm_compute. discriminate.
Defined.

(** ** Project configuration *)

Lemma join_last (sep : string) (l : list string) :
  l <> [] ->
  PyStr.join sep l = List.last l EmptyString \/
  exists pre, PyStr.join sep l = pre +:+ sep +:+ List.last l EmptyString.
Proof.
  induction l as [|x l IH]; [contradiction|]. intros _.
  destruct l as [|y l]; [now left|].
  right. change (PyStr.join sep (x :: y :: l))
    with (x +:+ sep +:+ PyStr.join sep (y :: l)).
  change (List.last (x :: y :: l) EmptyString) with (List.last (y :: l) EmptyString).
  destruct IH as [->|[pre ->]]; [discriminate| |].
  - now exists x.
  - exists (x +:+ sep +:+ pre). now rewrite !str_app_assoc.
Qed.

Lemma last_elem_of {A : Type} (l : list A) (d : A) : l <> [] -> List.last l d ∈ l.
Proof.
  induction l as [|x l IH]; [contradiction|]. intros _.
  destruct l as [|y l]; [apply elem_of_cons; now left|].
  apply elem_of_cons. right. apply IH. discriminate.
Qed.

Lemma split_last (sep : ascii) (s : string) :
  let t := List.last (PyStr.split sep s) EmptyString in
  PyStr.char_in sep t = false /\
  (s = t \/ exists pre, s = pre +:+ String sep t).
Proof.
  cbv zeta.
  assert (Hne : PyStr.split sep s <> []) by apply split_by_nonempty.
  split.
  - eapply split_pieces_no_sep. now apply last_elem_of.
  - destruct (join_last (String sep EmptyString) _ Hne) as [H|[pre H]];
      rewrite join_split in H; [now left|].
    right. exists pre. exact H.
Qed.

Lemma truthy_false (s : string) : truthy s = false <-> s = EmptyString.
Proof.
  unfold truthy. destruct (String.eqb_spec s EmptyString); split; intros;
    congruence || reflexivity || discriminate.
Qed.

Lemma post_init_idem (self : Project.t) :
  __post_init__ (__post_init__ self) = __post_init__ self.
Proof.
  unfold __post_init__. cbn [Project.name Project.repo Project.binary_name
    Project.homepage Project.description Project.license Project.keep_versions
    Project.asset_patterns].
  f_equal.
  - destruct (truthy (Project.name self)) eqn:Hn; cbn [negb].
    + now rewrite Hn.
    + now destruct (truthy (List.last _ _)).
  - destruct (truthy (Project.homepage self)) eqn:Hh; cbn [negb].
    + now rewrite Hh.
    + reflexivity.
  - destruct (truthy (Project.name self)) eqn:Hn; cbn [negb].
    + rewrite Hn. cbn [negb].
      destruct (truthy (Project.binary_name self)) eqn:Hb; cbn [negb].
      * now rewrite Hb.
      * now destruct (truthy (Project.name self)).
    + set (name := List.last _ _).
      assert (Hname : (if negb (truthy name) then name else name) = name)
        by now destruct (truthy name).
      rewrite Hname.
      destruct (truthy (Project.binary_name self)) eqn:Hb; cbn [negb].
      * now rewrite Hb.
      * now destruct (truthy name).
Qed.

(** The defaults of a project.  A project without a name is named after
    the part of its repository id that follows the last slash; a given name
    is kept; a project without a binary name uses its name; a homepage is
    always set; and applying the defaults twice changes nothing more. *)
Theorem post_init_defaults (self : Project.t) :
  let p := __post_init__ self in
  (Project.name self = EmptyString ->
   PyStr.char_in "/" (Project.name p) = false /\
   (Project.repo self = Project.name p \/
    exists owner, Project.repo self = owner +:+ "/" +:+ Project.name p)) /\
  (Project.name self <> EmptyString -> Project.name p = Project.name self) /\
  (Project.binary_name self = EmptyString -> Project.binary_name p = Project.name p) /\
  Project.homepage p <> EmptyString /\
  Project.repo p = Project.repo self /\
  __post_init__ p = p.
Proof.
  cbv zeta. split; [|split; [|split; [|split; [|split]]]].
  - intros Hn. unfold __post_init__. cbn [Project.name]. rewrite Hn. cbn.
    apply (split_last "/" (Project.repo self)).
  - intros Hn. unfold __post_init__. cbn [Project.name].
    destruct (truthy (Project.name self)) eqn:E; [reflexivity|].
    apply truthy_false in E. contradiction.
  - intros Hb. unfold __post_init__. cbn [Project.name Project.binary_name].
    rewrite Hb. reflexivity.
  - unfold __post_init__. cbn [Project.homepage].
    destruct (truthy (Project.homepage self)) eqn:E; cbn [negb].
    + intros H. apply truthy_false in H. congruence.
    + discriminate.
  - reflexivity.
  - apply post_init_idem.
Qed.

Lemma post_init_defaults_witness :
  let p := __post_init__
             (Project.mk "bordeux/tmpltool" EmptyString EmptyString
                (Some EmptyString) EmptyString EmptyString 0 []) in
  Project.name p = "tmpltool" /\ Project.binary_name p = "tmpltool".
Proof.
  intros p.
  destruct (post_init_defaults
              (Project.mk "bordeux/tmpltool" EmptyString EmptyString
                 (Some EmptyString) EmptyString EmptyString 0 []))
    as (Hname & _ & Hbin & _).
  specialize (Hname eq_refl). specialize (Hbin eq_refl).
  split; [reflexivity | exact Hbin].
Defined.

Lemma load_item_repo (item : ConfigItem.t) :
  match load_item item with
  | Ok p => item_repo item = Some (Project.repo p) /\ __post_init__ p = p
  | Raise msg => item_repo item = None /\ msg = "'repo'"
  end.
Proof.
  destruct item as [repo|item]; cbn [load_item item_repo].
  - split; [reflexivity | apply post_init_idem].
  - destruct (ConfigItem.repo item) as [repo|].
    + split; [reflexivity | apply post_init_idem].
    + split; reflexivity.
Qed.

(** Loading the configuration is all or nothing.  When every entry names
    a repository, the projects come out one per entry and in the order of
    the file, each with its defaults applied; as soon as one mapping lacks
    the key [repo], the load raises [KeyError: 'repo'] and no project is
    returned, whatever the other entries are. *)
Theorem load_config_all_or_nothing (items : list ConfigItem.t) :
  match load_config (Some items) with
  | Ok projects =>
      map (fun p => Some (Project.repo p)) projects = map item_repo items /\
      Forall (fun p => __post_init__ p = p) projects
  | Raise msg => msg = "'repo'" /\ None ∈ map item_repo items
  end.
Proof.
  unfold load_config. cbn [get_default].
  induction items as [|item items IH]; cbn [map_result map].
  - split; [reflexivity | constructor].
  - pose proof (load_item_repo item) as H.
    destruct (load_item item) as [p|msg].
    + destruct H as [Hrepo Hpost].
      destruct (map_result load_item items) as [projects|msg].
      * destruct IH as [IH1 IH2]. cbn [map]. split.
        -- now rewrite Hrepo, IH1.
        -- now constructor.
      * destruct IH as [IH1 IH2]. split; [exact IH1|].
        apply elem_of_cons. now right.
    + destruct H as [Hrepo ->]. split; [reflexivity|].
      rewrite Hrepo. apply elem_of_cons. now left.
Qed.

(** ** The class name of a formula *)

Lemma any_char_app (p : ascii -> bool) (a b : string) :
  any_char p (a +:+ b) = any_char p a || any_char p b.
Proof.
  induction a as [|c a IH]; [reflexivity|].
  rewrite str_app_cons. cbn [any_char]. now rewrite IH, orb_assoc.
Qed.

Lemma split_by_pieces (is_sep : ascii -> bool) (s piece : string) :
  piece ∈ PyStr.split_by is_sep s -> any_char is_sep piece = false.
Proof.
  revert piece. induction s as [|c s IH]; intros piece H; cbn [PyStr.split_by] in H.
  - apply list_elem_of_singleton in H as ->. reflexivity.
  - destruct (is_sep c) eqn:Hc.
    + apply elem_of_cons in H as [->|H]; [reflexivity | now apply IH].
    + destruct (PyStr.split_by is_sep s) as [|w ws].
      * apply list_elem_of_singleton in H as ->. cbn [any_char]. now rewrite Hc.
      * apply elem_of_cons in H as [->|H].
        -- cbn [any_char]. rewrite Hc. apply IH. apply elem_of_cons. now left.
        -- apply IH. apply elem_of_cons. now right.
Qed.

Lemma upper_char_word_sep (c : ascii) :
  is_word_sep c = false -> is_word_sep (PyStr.upper_char c) = false.
Proof.
  destruct c as [[] [] [] [] [] [] [] []]; vm_compute; intros H;
    first [reflexivity | discriminate H].
Qed.

Lemma lower_char_word_sep (c : ascii) :
  is_word_sep c = false -> is_word_sep (PyStr.lower_char c) = false.
Proof.
  destruct c as [[] [] [] [] [] [] [] []]; vm_compute; intros H;
    first [reflexivity | discriminate H].
Qed.

Lemma lower_word_sep (s : string) :
  any_char is_word_sep s = false -> any_char is_word_sep (PyStr.lower s) = false.
Proof.
  induction s as [|c s IH]; [reflexivity|]. cbn [any_char PyStr.lower].
  intros H. apply orb_false_iff in H as [Hc Hs].
  now rewrite lower_char_word_sep, IH.
Qed.

Lemma capitalize_word_sep (s : string) :
  any_char is_word_sep s = false ->
  any_char is_word_sep (PyStr.capitalize s) = false.
Proof.
  destruct s as [|c s]; [reflexivity|]. cbn [any_char PyStr.capitalize].
  intros H. apply orb_false_iff in H as [Hc Hs].
  now rewrite upper_char_word_sep, lower_word_sep.
Qed.

Lemma join_empty_any_char (p : ascii -> bool) (l : list string) :
  Forall (fun w => any_char p w = false) l ->
  any_char p (PyStr.join EmptyString l) = false.
Proof.
  induction l as [|x l IH]; intros H; [reflexivity|].
  apply Forall_cons in H as [Hx Hl].
  destruct l as [|y l]; [exact Hx|].
  change (PyStr.join EmptyString (x :: y :: l))
    with (x +:+ EmptyString +:+ PyStr.join EmptyString (y :: l)).
  rewrite str_app_nil_l, any_char_app, Hx. now apply IH.
Qed.

Lemma camel_case_word_sep (name : string) :
  any_char is_word_sep (camel_case name) = false.
Proof.
  unfold camel_case. apply join_empty_any_char.
  apply Forall_forall. intros w Hw.
  apply list_elem_of_fmap in Hw as (piece & -> & Hpiece).
  apply capitalize_word_sep. eapply split_by_pieces. exact Hpiece.
Qed.

Lemma any_char_char_in (c : ascii) (s : string) :
  any_char is_word_sep s = false -> is_word_sep c = true ->
  PyStr.char_in c s = false.
Proof.
  intros Hs Hc. induction s as [|d s IH]; [reflexivity|].
  cbn [any_char] in Hs. apply orb_false_iff in Hs as [Hd Hs].
  rewrite char_in_cons, IH by exact Hs. rewrite orb_false_r.
  destruct (Ascii.eqb_spec c d) as [->|]; [congruence | reflexivity].
Qed.

Lemma replace_dot_none (new s : string) :
  PyStr.char_in "." s = false -> PyStr.replace_go "." new 0 s = s.
Proof.
  induction s as [|c s IH]; [reflexivity|].
  rewrite char_in_cons. intros H. apply orb_false_iff in H as [Hc Hs].
  rewrite replace_go_no_match.
  - now rewrite IH.
  - rewrite startswith_cons, Hc. reflexivity.
Qed.

Lemma replace_dot_app (new a b : string) :
  PyStr.char_in "." a = false ->
  PyStr.replace_go "." new 0 (a +:+ b) = a +:+ PyStr.replace_go "." new 0 b.
Proof.
  induction a as [|c a IH]; intros H.
  - now rewrite !str_app_nil_l.
  - rewrite char_in_cons in H. apply orb_false_iff in H as [Hc Ha].
    rewrite !str_app_cons, replace_go_no_match.
    + now rewrite IH.
    + rewrite startswith_cons, Hc. reflexivity.
Qed.

Lemma is_number_all_digits (s : string) : is_number s = true -> all_digits s = true.
Proof. destruct s; [discriminate | auto]. Qed.

Lemma replace_dot_major_minor (major minor : string) :
  is_number major = true -> is_number minor = true ->
  PyStr.replace "." EmptyString (major +:+ "." +:+ minor) = major +:+ minor.
Proof.
  intros Hmaj Hmin. apply is_number_all_digits, all_digits_no_dot in Hmaj, Hmin.
  unfold PyStr.replace. rewrite replace_dot_app by exact Hmaj.
  rewrite (replace_go_match "." EmptyString EmptyString minor).
  now rewrite str_app_nil_l, replace_dot_none.
Qed.

(** The class name of a formula is made of the words of the project name,
    capitalised and joined: it holds neither a hyphen nor an underscore.
    For a release whose minor is two numbers, the versioned formula opens
    with that name followed by [AT] and the two numbers without the dot. *)
Theorem generate_formula_class_name (project : Project.t) (release : Release.t)
    (major minor : string) :
  is_number major = true -> is_number minor = true ->
  Release.major_minor release = major +:+ "." +:+ minor ->
  PyStr.char_in "-" (camel_case (Project.name project)) = false /\
  PyStr.char_in "_" (camel_case (Project.name project)) = false /\
  PyStr.startswith
    ("class " +:+ camel_case (Project.name project) +:+ " < Formula" +:+ nl)
    (generate_formula project release false) = true /\
  PyStr.startswith
    ("class " +:+ camel_case (Project.name project) +:+ "AT" +:+ major +:+ minor
     +:+ " < Formula" +:+ nl)
    (generate_formula project release true) = true.
Proof.
  intros Hmaj Hmin Hmm.
  pose proof (camel_case_word_sep (Project.name project)) as Hsep.
  split; [now apply any_char_char_in|]. split; [now apply any_char_char_in|].
  rewrite !generate_formula_blocks. unfold formula_header, formula_class_name.
  rewrite Hmm, replace_dot_major_minor by assumption.
  split.
  - rewrite !str_app_assoc, !startswith_app. apply startswith_self_app.
  - rewrite !str_app_assoc, !startswith_app. apply startswith_self_app.
Qed.

Lemma generate_formula_class_name_witness :
  PyStr.startswith ("class MyToolAT210 < Formula" +:+ nl)
    (generate_formula
       (Project.mk "acme/my-tool" "my-tool" "A tool" (Some "MIT")
          "https://github.com/acme/my-tool" "my-tool" 1 [])
       (Release.mk "v2.10.3" "2.10.3" "2.10" []) true) = true.
Proof.
  destruct (generate_formula_class_name
              (Project.mk "acme/my-tool" "my-tool" "A tool" (Some "MIT")
                 "https://github.com/acme/my-tool" "my-tool" 1 [])
              (Release.mk "v2.10.3" "2.10.3" "2.10" []) "2" "10"
              eq_refl eq_refl eq_refl) as (_ & _ & _ & H).
  exact H.
Defined.
